(** * asset-mgr: assignment lifecycle, cascade and list rules

    A shallow embedding of the API route handlers of the asset manager
    (Next.js route files over a drizzle/PostgreSQL store, validated with
    zod) and the properties of its domain layer: the Project/Asset
    assignment rules, the deletion cascade, note validation, the list
    filters and pagination.

    Conventions of the model.
    - A JavaScript string is a [string] of 8-bit code units.
    - A timestamp ([Date]) is its epoch value in [Z].
    - A JSON number is a rational ([Q]); every finite double is one.
    - A page or limit is an integer ([Z]); JavaScript computes with it
      exactly up to [MAX_SAFE_INTEGER], which the properties on pages
      assume ([exact_paging]).
    - An identifier is its text in the spelling of the store (lower
      case). Rows are looked up by comparing texts, which is the store's
      comparison of uuid values for a request that spells its identifiers
      that way; the properties that look a row up by an identifier of the
      request assume it ([canonical]).
    - A table is the list of its rows, in insertion order.
    - A route handler is a computation in the monad [M]: it reads the
      platform ([Env]: clock, storage faults, library predicates), threads
      the [World] (store, statement log) and may throw. *)

From Stdlib Require Import List String Ascii Bool ZArith QArith Lia Arith.
From Stdlib Require Import Permutation DecimalString.
Import ListNotations.
Local Open Scope string_scope.
Local Open Scope Z_scope.

Set Implicit Arguments.

(* ===================================================================== *)
(** ** JavaScript strings *)
(* ===================================================================== *)

Module Js.

(** White space removed by [String.prototype.trim] (code units below 256):
    TAB, LF, VT, FF, CR, SPACE and NBSP. *)
Definition is_space (c : ascii) : bool :=
  let n := nat_of_ascii c in
  ((9 <=? n) && (n <=? 13) || (n =? 32) || (n =? 160))%nat.

Fixpoint trimStart (s : string) : string :=
  match s with
  | EmptyString => EmptyString
  | String c s' => if is_space c then trimStart s' else s
  end.

Fixpoint trimEnd (s : string) : string :=
  match s with
  | EmptyString => EmptyString
  | String c s' =>
      match trimEnd s' with
      | EmptyString => if is_space c then EmptyString else String c EmptyString
      | t => String c t
      end
  end.

Definition trim (s : string) : string := trimEnd (trimStart s).

(** [toLowerCase] on the letters whose lower case is an ASCII letter. *)
Definition lower_char (c : ascii) : ascii :=
  let n := nat_of_ascii c in
  if ((65 <=? n) && (n <=? 90))%nat then ascii_of_nat (n + 32) else c.

Fixpoint toLowerCase (s : string) : string :=
  match s with
  | EmptyString => EmptyString
  | String c s' => String (lower_char c) (toLowerCase s')
  end.

(** Truthiness of a string: the empty string is falsy. *)
Definition truthy (s : string) : bool :=
  match s with EmptyString => false | _ => true end.

Definition is_digit (c : ascii) : bool :=
  let n := nat_of_ascii c in ((48 <=? n) && (n <=? 57))%nat.

Definition is_hex (c : ascii) : bool :=
  let n := nat_of_ascii c in
  (((48 <=? n) && (n <=? 57)) || ((97 <=? n) && (n <=? 102))
   || ((65 <=? n) && (n <=? 70)))%nat.

(** [String.prototype.split(",")]. *)
Fixpoint split_comma (s : string) : list string :=
  match s with
  | EmptyString => [EmptyString]
  | String c s' =>
      if Ascii.eqb c "," then EmptyString :: split_comma s'
      else match split_comma s' with
           | [] => [String c EmptyString]
           | w :: ws => String c w :: ws
           end
  end.

(** [parseInt(s)] with no radix: leading white space, an optional sign,
    then the longest run of digits (hexadecimal after a [0x] prefix);
    [None] is NaN. *)
Fixpoint digits_value (acc : Z) (s : string) : Z :=
  match s with
  | String c s' =>
      if is_digit c
      then digits_value (10 * acc + Z.of_nat (nat_of_ascii c - 48)) s'
      else acc
  | EmptyString => acc
  end.

Definition hex_digit_value (c : ascii) : Z :=
  let n := nat_of_ascii c in
  if is_digit c then Z.of_nat (n - 48)
  else if (97 <=? n)%nat then Z.of_nat (n - 87) else Z.of_nat (n - 55).

Fixpoint hex_value (acc : Z) (s : string) : Z :=
  match s with
  | String c s' =>
      if is_hex c then hex_value (16 * acc + hex_digit_value c) s' else acc
  | EmptyString => acc
  end.

Definition starts_with (f : ascii -> bool) (s : string) : bool :=
  match s with String c _ => f c | EmptyString => false end.

Definition parse_magnitude (r : string) : option Z :=
  match r with
  | String "0" (String x h) =>
      if (Ascii.eqb x "x" || Ascii.eqb x "X")%bool
      then if starts_with is_hex h then Some (hex_value 0 h) else None
      else Some (digits_value 0 r)
  | _ => if starts_with is_digit r then Some (digits_value 0 r) else None
  end.

(** [parseInt(s)]; [None] is NaN. The numbers of JavaScript are taken to
    be the integers, which they are up to [Number.MAX_SAFE_INTEGER]. *)
Definition parseInt (s : string) : option Z :=
  match trimStart s with
  | String "-" r => option_map Z.opp (parse_magnitude r)
  | String "+" r => parse_magnitude r
  | r => parse_magnitude r
  end.

(** [parseInt(s, 10)] *)
Definition parseInt10 (s : string) : option Z :=
  let decimal r :=
    if starts_with is_digit r then Some (digits_value 0 r) else None in
  match trimStart s with
  | String "-" r => option_map Z.opp (decimal r)
  | String "+" r => decimal r
  | r => decimal r
  end.

(** [x || d] on a query parameter: absent and empty both give [d]. *)
Definition or_default (x : option string) (d : string) : string :=
  match x with
  | Some s => if truthy s then s else d
  | None => d
  end.

(** [Math.ceil(total / limit)] for a [limit] other than 0. *)
Definition ceil_div (total limit : Z) : Z := - ((- total) / limit).

End Js.

(** The identifier check every route handler spells out:
    [/^[0-9a-f]{8}-[0-9a-f]{4}-[0-9a-f]{4}-[0-9a-f]{4}-[0-9a-f]{12}$/i]. *)
Fixpoint hex_run (n : nat) (s : string) : option string :=
  match n with
  | O => Some s
  | S n' =>
      match s with
      | String c s' => if Js.is_hex c then hex_run n' s' else None
      | EmptyString => None
      end
  end.

Definition dash (s : string) : option string :=
  match s with
  | String c s' => if Ascii.eqb c "-" then Some s' else None
  | EmptyString => None
  end.

Definition and_then {A B} (o : option A) (f : A -> option B) : option B :=
  match o with Some a => f a | None => None end.

Definition uuidRegex_test (s : string) : bool :=
  match
    and_then (and_then (and_then (and_then (and_then (and_then (and_then
      (and_then (hex_run 8 s) dash) (hex_run 4)) dash) (hex_run 4)) dash)
      (hex_run 4)) dash) (hex_run 12)
  with
  | Some EmptyString => true
  | _ => false
  end.

(** The spelling the store gives an identifier: lower case. The store
    holds identifiers as uuid values and compares them as such, whatever
    the case of the letters in a request; the tables below hold them as
    texts in the spelling of the store and compare texts, which is the
    same comparison for a request that spells its identifiers as the
    store does. The properties that look a row up by an identifier of
    the request are stated for that spelling. *)
Definition canonical (id : string) : bool :=
  String.eqb (Js.toLowerCase id) id.

(** A reference that is null or spelled as the store spells it. *)
Definition canonical_ref (ref : option string) : bool :=
  match ref with Some id => canonical id | None => true end.

(** [Number.MAX_SAFE_INTEGER]: up to it the numbers of JavaScript are the
    integers, and are sent to the store digit by digit. *)
Definition MAX_SAFE_INTEGER : Z := 2 ^ 53 - 1.


(* ===================================================================== *)
(** ** JSON request bodies *)
(* ===================================================================== *)

#[local] Unset Elimination Schemes.
Inductive json : Type :=
| JNull
| JBool (b : bool)
| JNum (q : Q)
| JStr (s : string)
| JArr (items : list json)
| JObj (fields : list (string * json)).
#[local] Set Elimination Schemes.

(** Property access [o.k]; [None] is [undefined]. *)
Fixpoint assoc (k : string) (fields : list (string * json)) : option json :=
  match fields with
  | [] => None
  | (k', v) :: rest => if String.eqb k k' then Some v else assoc k rest
  end.

Definition prop (k : string) (o : json) : option json :=
  match o with JObj fields => assoc k fields | _ => None end.

(** [{ ...o, k: v }]. *)
Fixpoint assoc_set (k : string) (v : json) (fields : list (string * json))
  : list (string * json) :=
  match fields with
  | [] => [(k, v)]
  | (k', v') :: rest =>
      if String.eqb k k' then (k, v) :: rest else (k', v') :: assoc_set k v rest
  end.

(** [const { k, ...rest } = o]. *)
Fixpoint assoc_remove (k : string) (fields : list (string * json))
  : list (string * json) :=
  match fields with
  | [] => []
  | (k', v') :: rest =>
      if String.eqb k k' then assoc_remove k rest else (k', v') :: assoc_remove k rest
  end.

(** Truthiness of a property value ([undefined], [null], [false], [0] and
    the empty string are falsy). *)
Definition truthy (v : option json) : bool :=
  match v with
  | None | Some JNull => false
  | Some (JBool b) => b
  | Some (JNum q) => negb (Qeq_bool q 0)
  | Some (JStr s) => Js.truthy s
  | Some (JArr _) | Some (JObj _) => true
  end.

(* ===================================================================== *)
(** ** Data model (db/schema.ts) *)
(* ===================================================================== *)

Definition Date := Z.

Record Location := { lat : Q; lng : Q }.

Module Asset.
Record t := {
  id : string;
  name : string;
  description : string;
  taxDecNo : string;
  declaredOwner : string;
  marketValue : string;
  assessedValue : string;
  carStatus : option string;
  location : Location;
  status : string;
  address : string;
  taxDeclarationNo : string;
  tctNo : string;
  areaPerSqM : string;
  locationOfPropery : string;
  barangay : string;
  bidder : string;
  auctionDate : Date;
  dateOfCertificationOfSale : Date;
  entryNo : string;
  detailsShortUpdateLog : string;
  createdAt : Date;
  updatedAt : Date
}.
End Asset.

Module Project.
Record t := {
  id : string;
  name : string;
  description : option string;
  status : string;
  assetId : option string;
  startDate : option Date;
  endDate : option Date;
  assignedAt : option Date;
  createdAt : Date;
  updatedAt : Date
}.
End Project.

Module CaseStatus.
Record t := {
  id : string;
  rtc : string;
  case_no : string;
  lastUpdatedAt : Date;
  details : option string;
  judge : option string;
  assetId : option string;
  projectId : option string
}.
End CaseStatus.

Module Note.
Record t := {
  id : string;
  content : string;
  assetId : option string;
  projectId : option string;
  caseId : option string;
  createdAt : Date;
  updatedAt : Date
}.
End Note.

(** The four tables of the store. *)
Record DB := {
  assets : list Asset.t;
  projects : list Project.t;
  case_status : list CaseStatus.t;
  notes : list Note.t
}.

(** A nullable column compared with a value: [eq(col, v)] holds on no row
    whose column is NULL. Identifiers are compared as texts, see
    [canonical]. *)
Definition eq_col (col : option string) (v : string) : bool :=
  match col with Some x => String.eqb x v | None => false end.

Definition isNull {A} (col : option A) : bool :=
  match col with Some _ => false | None => true end.

Definition isNotNull {A} (col : option A) : bool := negb (isNull col).

(** The invariant of the assignment columns of a project. *)
Definition assignment_consistent (p : Project.t) : bool :=
  Bool.eqb (isNull (Project.assetId p)) (isNull (Project.assignedAt p)).

(* ===================================================================== *)
(** ** Validated payloads and [SET] clauses *)
(* ===================================================================== *)

(** In a validated payload a key that is absent ([undefined]) is [None]; a
    nullable column that is present holds [Some None] for [null]. *)

Module ProjectInput.
Record t := {
  id : option string;
  name : string;
  description : option string;
  status : string;
  assetId : option (option string);
  startDate : option (option Date);
  endDate : option (option Date);
  assignedAt : option (option Date);
  createdAt : option Date;
  updatedAt : option Date
}.
End ProjectInput.

Module ProjectSet.
Record t := {
  name : option string;
  description : option string;
  status : option string;
  assetId : option (option string);
  startDate : option (option Date);
  endDate : option (option Date);
  assignedAt : option (option Date);
  updatedAt : option Date
}.
End ProjectSet.

Module AssetSet.
Record t := {
  id : option string;
  name : option string;
  description : option string;
  taxDecNo : option string;
  declaredOwner : option string;
  marketValue : option string;
  assessedValue : option string;
  carStatus : option (option string);
  location : option Location;
  status : option string;
  address : option string;
  taxDeclarationNo : option string;
  tctNo : option string;
  areaPerSqM : option string;
  locationOfPropery : option string;
  barangay : option string;
  bidder : option string;
  auctionDate : option Date;
  dateOfCertificationOfSale : option Date;
  entryNo : option string;
  detailsShortUpdateLog : option string;
  createdAt : option Date;
  updatedAt : option Date
}.
End AssetSet.

Module CaseSet.
Record t := {
  rtc : option string;
  case_no : option string;
  lastUpdatedAt : option Date;
  details : option string;
  judge : option string;
  assetId : option (option string);
  projectId : option (option string)
}.
End CaseSet.

Module NoteInput.
Record t := {
  id : option string;
  content : string;
  assetId : option (option string);
  projectId : option (option string);
  caseId : option (option string);
  createdAt : option Date;
  updatedAt : option Date
}.
End NoteInput.

(* ===================================================================== *)
(** ** The store: rows, constraints and foreign-key actions *)
(* ===================================================================== *)

Module Store.

(** Whether a row has the key [i], compared as text (see [canonical]). *)
Definition has_asset (d : DB) (i : string) : bool :=
  existsb (fun a => String.eqb (Asset.id a) i) (assets d).
Definition has_project (d : DB) (i : string) : bool :=
  existsb (fun p => String.eqb (Project.id p) i) (projects d).
Definition has_case (d : DB) (i : string) : bool :=
  existsb (fun c => String.eqb (CaseStatus.id c) i) (case_status d).
Definition has_note (d : DB) (i : string) : bool :=
  existsb (fun n => String.eqb (Note.id n) i) (notes d).

(** [.references(() => t.id)]: a reference that is written must be NULL
    or designate a row. *)
Definition fk (has : string -> bool) (ref : option string) : bool :=
  match ref with Some i => has i | None => true end.

(** A reference column is checked when a statement changes it. *)
Definition fk_changed (has : string -> bool) (old new : option string)
  : bool :=
  match old, new with
  | Some i, Some j => if String.eqb i j then true else has j
  | _, _ => fk has new
  end.

(** [onDelete: "set null"] *)
Definition set_null (gone : string -> bool) (ref : option string)
  : option string :=
  match ref with
  | Some i => if gone i then None else Some i
  | None => None
  end.

(** [UPDATE ... SET ... WHERE ... RETURNING *] on a list of rows. *)
Definition update_rows {R} (where_ : R -> bool) (set : R -> R)
  (rows : list R) : list R :=
  map (fun r => if where_ r then set r else r) rows.

Definition returning {R} (where_ : R -> bool) (set : R -> R)
  (rows : list R) : list R :=
  map set (filter where_ rows).

(** [ORDER BY createdAt DESC], rows of equal date in table order. *)
Fixpoint insert_desc {R} (key : R -> Z) (x : R) (l : list R) : list R :=
  match l with
  | [] => [x]
  | y :: l' => if key y <=? key x then x :: l else y :: insert_desc key x l'
  end.

Definition order_desc {R} (key : R -> Z) (l : list R) : list R :=
  fold_right (insert_desc key) [] l.

(** The largest integer of the store ([bigint]). *)
Definition bigint_max : Z := 2 ^ 63 - 1.

(** [.limit(limit).offset(offset)]: the query builder leaves out a limit
    that is not a number ([None]) or is negative, and an offset that is
    not a number or is 0; the store refuses a negative offset, and a limit
    or an offset beyond its integers. *)
Definition limit_offset {R} (limit offset : option Z) (rows : list R)
  : option (list R) :=
  let negative (x : option Z) :=
    match x with Some n => n <? 0 | None => false end in
  let beyond (x : option Z) :=
    match x with Some n => bigint_max <? n | None => false end in
  if negative offset || beyond offset || beyond limit then None
  else
    let skipped :=
      match offset with
      | Some o => skipn (Z.to_nat o) rows
      | None => rows
      end in
    Some (match limit with
          | Some l => if l <? 0 then skipped else firstn (Z.to_nat l) skipped
          | None => skipped
          end).

(** The store's reading of a text as a uuid: thirty-two hexadecimal
    digits, read two by two, with an optional dash after each group of
    four, the whole optionally in braces. *)
Fixpoint uuid_bytes (i n : nat) (s : string) : option string :=
  match n with
  | O => Some s
  | S n' =>
      match s with
      | String a (String b s') =>
          if Js.is_hex a && Js.is_hex b then
            uuid_bytes (S i) n'
              (match s' with
               | String c s'' =>
                   if Nat.odd i && (i <? 15)%nat && Ascii.eqb c "-"
                   then s'' else s'
               | EmptyString => s'
               end)
          else None
      | _ => None
      end
  end.

Definition uuid_text (s : string) : bool :=
  match s with
  | String c s' =>
      if Ascii.eqb c "{" then
        match uuid_bytes 0 16 s' with
        | Some (String d EmptyString) => Ascii.eqb d "}"
        | _ => false
        end
      else
        match uuid_bytes 0 16 s with
        | Some EmptyString => true
        | _ => false
        end
  | EmptyString => false
  end.

(** A statement that compares uuid columns with the texts [vals]: the
    store refuses it when one of them is no uuid. *)
Definition comparing {A} (vals : list string) (result : option A)
  : option A :=
  if forallb uuid_text vals then result else None.

(** [LEFT JOIN assets ON ref = assets.id] *)
Definition join_asset (d : DB) (ref : option string) : option Asset.t :=
  match ref with
  | Some i => find (fun a => String.eqb (Asset.id a) i) (assets d)
  | None => None
  end.
Definition join_project (d : DB) (ref : option string) : option Project.t :=
  match ref with
  | Some i => find (fun p => String.eqb (Project.id p) i) (projects d)
  | None => None
  end.
Definition join_case (d : DB) (ref : option string) : option CaseStatus.t :=
  match ref with
  | Some i => find (fun c => String.eqb (CaseStatus.id c) i) (case_status d)
  | None => None
  end.

(** SQL [LIKE] on code units: [%] any run, [_] any one, backslash
    escapes; a dangling escape matches nothing. *)
Fixpoint like (pat : list ascii) : list ascii -> bool :=
  match pat with
  | [] => fun s => match s with [] => true | _ => false end
  | c :: pat' =>
      if Ascii.eqb c "%" then
        fix any (s : list ascii) : bool :=
          like pat' s || match s with [] => false | _ :: s' => any s' end
      else if Ascii.eqb c "_" then
        fun s => match s with [] => false | _ :: s' => like pat' s' end
      else if Ascii.eqb c "\" then
        match pat' with
        | [] => fun _ => false
        | e :: pat'' =>
            fun s => match s with
                     | [] => false
                     | x :: s' => Ascii.eqb e x && like pat'' s'
                     end
        end
      else
        fun s => match s with
                 | [] => false
                 | x :: s' => Ascii.eqb c x && like pat' s'
                 end
  end.

(** [ilike(col, pat)]: [LIKE] up to letter case. *)
Definition ilike (col : string) (pat : string) : bool :=
  like (list_ascii_of_string (Js.toLowerCase pat))
       (list_ascii_of_string (Js.toLowerCase col)).

Definition ilike_null (col : option string) (pat : string) : bool :=
  match col with Some s => ilike s pat | None => false end.

(** [.set({ ... })]: a key that is absent leaves the column as it is. *)
Definition over {A} (new : option A) (old : A) : A :=
  match new with Some a => a | None => old end.

Definition set_project (s : ProjectSet.t) (p : Project.t) : Project.t :=
  {| Project.id := Project.id p;
     Project.name := over (ProjectSet.name s) (Project.name p);
     Project.description :=
       over (option_map Some (ProjectSet.description s)) (Project.description p);
     Project.status := over (ProjectSet.status s) (Project.status p);
     Project.assetId := over (ProjectSet.assetId s) (Project.assetId p);
     Project.startDate := over (ProjectSet.startDate s) (Project.startDate p);
     Project.endDate := over (ProjectSet.endDate s) (Project.endDate p);
     Project.assignedAt := over (ProjectSet.assignedAt s) (Project.assignedAt p);
     Project.createdAt := Project.createdAt p;
     Project.updatedAt := over (ProjectSet.updatedAt s) (Project.updatedAt p) |}.

Definition set_asset (s : AssetSet.t) (a : Asset.t) : Asset.t :=
  {| Asset.id := over (AssetSet.id s) (Asset.id a);
     Asset.name := over (AssetSet.name s) (Asset.name a);
     Asset.description := over (AssetSet.description s) (Asset.description a);
     Asset.taxDecNo := over (AssetSet.taxDecNo s) (Asset.taxDecNo a);
     Asset.declaredOwner := over (AssetSet.declaredOwner s) (Asset.declaredOwner a);
     Asset.marketValue := over (AssetSet.marketValue s) (Asset.marketValue a);
     Asset.assessedValue := over (AssetSet.assessedValue s) (Asset.assessedValue a);
     Asset.carStatus := over (AssetSet.carStatus s) (Asset.carStatus a);
     Asset.location := over (AssetSet.location s) (Asset.location a);
     Asset.status := over (AssetSet.status s) (Asset.status a);
     Asset.address := over (AssetSet.address s) (Asset.address a);
     Asset.taxDeclarationNo :=
       over (AssetSet.taxDeclarationNo s) (Asset.taxDeclarationNo a);
     Asset.tctNo := over (AssetSet.tctNo s) (Asset.tctNo a);
     Asset.areaPerSqM := over (AssetSet.areaPerSqM s) (Asset.areaPerSqM a);
     Asset.locationOfPropery :=
       over (AssetSet.locationOfPropery s) (Asset.locationOfPropery a);
     Asset.barangay := over (AssetSet.barangay s) (Asset.barangay a);
     Asset.bidder := over (AssetSet.bidder s) (Asset.bidder a);
     Asset.auctionDate := over (AssetSet.auctionDate s) (Asset.auctionDate a);
     Asset.dateOfCertificationOfSale :=
       over (AssetSet.dateOfCertificationOfSale s)
            (Asset.dateOfCertificationOfSale a);
     Asset.entryNo := over (AssetSet.entryNo s) (Asset.entryNo a);
     Asset.detailsShortUpdateLog :=
       over (AssetSet.detailsShortUpdateLog s) (Asset.detailsShortUpdateLog a);
     Asset.createdAt := over (AssetSet.createdAt s) (Asset.createdAt a);
     Asset.updatedAt := over (AssetSet.updatedAt s) (Asset.updatedAt a) |}.

Definition set_case (s : CaseSet.t) (c : CaseStatus.t) : CaseStatus.t :=
  {| CaseStatus.id := CaseStatus.id c;
     CaseStatus.rtc := over (CaseSet.rtc s) (CaseStatus.rtc c);
     CaseStatus.case_no := over (CaseSet.case_no s) (CaseStatus.case_no c);
     CaseStatus.lastUpdatedAt :=
       over (CaseSet.lastUpdatedAt s) (CaseStatus.lastUpdatedAt c);
     CaseStatus.details :=
       over (option_map Some (CaseSet.details s)) (CaseStatus.details c);
     CaseStatus.judge :=
       over (option_map Some (CaseSet.judge s)) (CaseStatus.judge c);
     CaseStatus.assetId := over (CaseSet.assetId s) (CaseStatus.assetId c);
     CaseStatus.projectId := over (CaseSet.projectId s) (CaseStatus.projectId c) |}.

(** The [SET] clauses on the assignment columns of a project. *)
Definition set_assignment (ref : option string) (at_ : option Date)
  (updated : option Date) : ProjectSet.t :=
  {| ProjectSet.name := None; ProjectSet.description := None;
     ProjectSet.status := None; ProjectSet.assetId := Some ref;
     ProjectSet.startDate := None; ProjectSet.endDate := None;
     ProjectSet.assignedAt := Some at_; ProjectSet.updatedAt := updated |}.

Definition set_asset_ref (ref : option string) : ProjectSet.t :=
  {| ProjectSet.name := None; ProjectSet.description := None;
     ProjectSet.status := None; ProjectSet.assetId := Some ref;
     ProjectSet.startDate := None; ProjectSet.endDate := None;
     ProjectSet.assignedAt := None; ProjectSet.updatedAt := None |}.

Definition note_with_refs (a p c : option string) (n : Note.t) : Note.t :=
  {| Note.id := Note.id n; Note.content := Note.content n;
     Note.assetId := a; Note.projectId := p; Note.caseId := c;
     Note.createdAt := Note.createdAt n; Note.updatedAt := Note.updatedAt n |}.

Definition case_with_refs (a p : option string) (c : CaseStatus.t)
  : CaseStatus.t :=
  {| CaseStatus.id := CaseStatus.id c; CaseStatus.rtc := CaseStatus.rtc c;
     CaseStatus.case_no := CaseStatus.case_no c;
     CaseStatus.lastUpdatedAt := CaseStatus.lastUpdatedAt c;
     CaseStatus.details := CaseStatus.details c;
     CaseStatus.judge := CaseStatus.judge c;
     CaseStatus.assetId := a; CaseStatus.projectId := p |}.

(** *** Statements that write *)

(** [db.update(projects).set(s).where(w).returning()] *)
Definition update_projects (where_ : Project.t -> bool) (s : ProjectSet.t)
  (d : DB) : option (list Project.t * DB) :=
  if forallb
       (fun p => fk_changed (has_asset d) (Project.assetId p)
                   (Project.assetId (set_project s p)))
       (filter where_ (projects d))
  then Some (returning where_ (set_project s) (projects d),
             {| assets := assets d;
                projects := update_rows where_ (set_project s) (projects d);
                case_status := case_status d;
                notes := notes d |})
  else None.

(** [db.update(assets).set(s).where(w).returning()] *)
Definition update_assets (where_ : Asset.t -> bool) (s : AssetSet.t)
  (d : DB) : option (list Asset.t * DB) :=
  Some (returning where_ (set_asset s) (assets d),
        {| assets := update_rows where_ (set_asset s) (assets d);
           projects := projects d;
           case_status := case_status d;
           notes := notes d |}).

(** [db.update(case_status).set(s).where(w).returning()] *)
Definition update_cases (where_ : CaseStatus.t -> bool) (s : CaseSet.t)
  (d : DB) : option (list CaseStatus.t * DB) :=
  if forallb
       (fun c =>
          fk_changed (has_asset d) (CaseStatus.assetId c)
            (CaseStatus.assetId (set_case s c))
          && fk_changed (has_project d) (CaseStatus.projectId c)
               (CaseStatus.projectId (set_case s c)))
       (filter where_ (case_status d))
  then Some (returning where_ (set_case s) (case_status d),
             {| assets := assets d;
                projects := projects d;
                case_status := update_rows where_ (set_case s) (case_status d);
                notes := notes d |})
  else None.

Definition ids_of {R} (id : R -> string) (rows : list R) (i : string) : bool :=
  existsb (fun r => String.eqb (id r) i) rows.

(** [db.delete(assets).where(w).returning()], with the [set null]
    actions of the references to [assets.id]. *)
Definition delete_assets (where_ : Asset.t -> bool) (d : DB)
  : list Asset.t * DB :=
  let gone := ids_of Asset.id (filter where_ (assets d)) in
  (filter where_ (assets d),
   {| assets := filter (fun a => negb (where_ a)) (assets d);
      projects :=
        map (fun p => set_project
                        (set_asset_ref (set_null gone (Project.assetId p))) p)
            (projects d);
      case_status :=
        map (fun c => case_with_refs (set_null gone (CaseStatus.assetId c))
                        (CaseStatus.projectId c) c)
            (case_status d);
      notes :=
        map (fun n => note_with_refs (set_null gone (Note.assetId n))
                        (Note.projectId n) (Note.caseId n) n)
            (notes d) |}).

(** [db.delete(projects).where(w).returning()] *)
Definition delete_projects (where_ : Project.t -> bool) (d : DB)
  : list Project.t * DB :=
  let gone := ids_of Project.id (filter where_ (projects d)) in
  (filter where_ (projects d),
   {| assets := assets d;
      projects := filter (fun p => negb (where_ p)) (projects d);
      case_status :=
        map (fun c => case_with_refs (CaseStatus.assetId c)
                        (set_null gone (CaseStatus.projectId c)) c)
            (case_status d);
      notes :=
        map (fun n => note_with_refs (Note.assetId n)
                        (set_null gone (Note.projectId n)) (Note.caseId n) n)
            (notes d) |}).

(** [db.delete(case_status).where(w).returning()] *)
Definition delete_cases (where_ : CaseStatus.t -> bool) (d : DB)
  : list CaseStatus.t * DB :=
  let gone := ids_of CaseStatus.id (filter where_ (case_status d)) in
  (filter where_ (case_status d),
   {| assets := assets d;
      projects := projects d;
      case_status := filter (fun c => negb (where_ c)) (case_status d);
      notes :=
        map (fun n => note_with_refs (Note.assetId n) (Note.projectId n)
                        (set_null gone (Note.caseId n)) n)
            (notes d) |}).

(** [db.delete(notes).where(w).returning()] *)
Definition delete_notes (where_ : Note.t -> bool) (d : DB)
  : list Note.t * DB :=
  (filter where_ (notes d),
   {| assets := assets d;
      projects := projects d;
      case_status := case_status d;
      notes := filter (fun n => negb (where_ n)) (notes d) |}).

(** [db.insert(projects).values(row).returning()]: the key is new and
    the reference designates an asset. *)
Definition insert_project (row : Project.t) (d : DB)
  : option (list Project.t * DB) :=
  if negb (has_project d (Project.id row))
     && fk (has_asset d) (Project.assetId row)
  then Some ([row],
             {| assets := assets d;
                projects := projects d ++ [row];
                case_status := case_status d;
                notes := notes d |})
  else None.

(** [db.insert(notes).values(row).returning()] *)
Definition insert_note (row : Note.t) (d : DB) : option (list Note.t * DB) :=
  if negb (has_note d (Note.id row))
     && fk (has_asset d) (Note.assetId row)
     && fk (has_project d) (Note.projectId row)
     && fk (has_case d) (Note.caseId row)
  then Some ([row],
             {| assets := assets d;
                projects := projects d;
                case_status := case_status d;
                notes := notes d ++ [row] |})
  else None.

End Store.

(* ===================================================================== *)
(** ** Validation results (zod) *)
(* ===================================================================== *)

Inductive IssueCode :=
| invalid_type | too_small | too_big | invalid_format
| invalid_value | invalid_union | custom.

Record Issue := { code : IssueCode; path : list string; message : string }.

(** The outcome of a schema on a value: [Valid], [Dirty] (issues that let
    the later checks of the enclosing object run) or [Aborted] (a type-level
    issue, after which the refinements of the enclosing object do not run). *)
Inductive Res (A : Type) : Type :=
| Valid (a : A)
| Dirty (errs : list Issue)
| Aborted (errs : list Issue).
Arguments Valid {A} a.
Arguments Dirty {A} errs.
Arguments Aborted {A} errs.

Definition issues {A} (r : Res A) : list Issue :=
  match r with Valid _ => [] | Dirty errs | Aborted errs => errs end.

Definition is_aborted {A} (r : Res A) : bool :=
  match r with Aborted _ => true | _ => false end.

Definition res_map {A B} (f : A -> B) (r : Res A) : Res B :=
  match r with
  | Valid a => Valid (f a)
  | Dirty errs => Dirty errs
  | Aborted errs => Aborted errs
  end.

(** The fields of an object schema: every field is checked, the issues are
    reported in field order, and the object aborts when a field does. *)
Definition ap {A B} (rf : Res (A -> B)) (ra : Res A) : Res B :=
  match rf, ra with
  | Valid f, Valid a => Valid (f a)
  | Aborted errs, _ => Aborted (errs ++ issues ra)
  | _, Aborted errs => Aborted (issues rf ++ errs)
  | _, _ => Dirty (issues rf ++ issues ra)
  end.

Notation "rf <*> ra" := (ap rf ra) (at level 61, left associativity).

(** The message of an issue raised without a message of the schema's own. *)
Definition default_message : string := "Invalid input".

Definition issue (c : IssueCode) (p : list string) (msg : string) : Issue :=
  {| code := c; path := p; message := msg |}.

Section FieldSchemas.

Variable p : list string.

Definition fail_type {A} : Res A :=
  Aborted [issue invalid_type p default_message].

(** [z.string()] *)
Definition z_string (v : option json) : Res string :=
  match v with Some (JStr s) => Valid s | _ => fail_type end.

(** [z.string().min(1, msg).trim()]: the length is checked before the
    value is trimmed. *)
Definition z_string_min1_trim (msg : string) (v : option json) : Res string :=
  match v with
  | Some (JStr s) =>
      if Js.truthy s then Valid (Js.trim s) else Dirty [issue too_small p msg]
  | _ => fail_type
  end.

(** [z.string().uuid(msg)] and the like: a format check on a string. *)
Definition z_string_format (ok : string -> bool) (msg : string)
  (v : option json) : Res string :=
  match v with
  | Some (JStr s) =>
      if ok s then Valid s else Dirty [issue invalid_format p msg]
  | _ => fail_type
  end.

(** [z.enum([...])] *)
Definition z_enum (options : list string) (v : option json) : Res string :=
  match v with
  | Some (JStr s) =>
      if existsb (String.eqb s) options then Valid s
      else Aborted [issue invalid_value p default_message]
  | _ => Aborted [issue invalid_value p default_message]
  end.

(** [.optional()]: [undefined] passes as is. *)
Definition optional {A} (f : option json -> Res A) (v : option json)
  : Res (option A) :=
  match v with None => Valid None | _ => res_map Some (f v) end.

(** [.nullable()]: [null] passes as is. *)
Definition nullable {A} (f : option json -> Res A) (v : option json)
  : Res (option A) :=
  match v with Some JNull => Valid None | _ => res_map Some (f v) end.

(** [.default(d)]: [undefined] becomes [d]. *)
Definition with_default {A} (d : A) (f : option json -> Res A)
  (v : option json) : Res A :=
  match v with None => Valid d | _ => f v end.

(** [.default(d)] made optional by [.partial()]. *)
Definition partial_default {A} (applies : bool) (d : A)
  (f : option json -> Res A) (v : option json) : Res (option A) :=
  match v with
  | None => Valid (if applies then Some d else None)
  | _ => res_map Some (f v)
  end.

(** [z.date()]: no JSON value is a [Date]. *)
Definition z_date (v : option json) : Res Date := fail_type.

(** [z.union([z.string().<format>(msg).transform(..), z.date(), z.null()])]
    and [z.union([z.string().uuid(msg), z.null()])]: [null], or a string
    of the format; a string of another format reports the issue of the
    string option, any other value is no member of the union. *)
Definition z_union_null {A} (conv : string -> option A) (msg : string)
  (v : option json) : Res (option A) :=
  match v with
  | Some JNull => Valid None
  | Some (JStr s) =>
      match conv s with
      | Some a => Valid (Some a)
      | None => Dirty [issue invalid_format p msg]
      end
  | _ => Aborted [issue invalid_union p default_message]
  end.

(** [z.number().min(lo, msg).max(hi, msg)] *)
Definition z_number_between (lo hi : Q) (msg : string) (v : option json)
  : Res Q :=
  match v with
  | Some (JNum q) =>
      if negb (Qle_bool lo q) then Dirty [issue too_small p msg]
      else if negb (Qle_bool q hi) then Dirty [issue too_big p msg]
      else Valid q
  | _ => fail_type
  end.

End FieldSchemas.

(* ===================================================================== *)
(** ** The platform, the world and the handler monad *)
(* ===================================================================== *)

(** What a handler reads from outside the repository. *)
Record Env := {
  (** the successive readings of the clock ([new Date()], [now()]) *)
  clock : nat -> Date;
  (** whether the n-th statement sent to the store fails *)
  faults : nat -> bool;
  (** the successive identifiers drawn by the store ([defaultRandom()]) *)
  gen_random_uuid : nat -> string;
  (** the identifier format of the validation library ([z.string().uuid()]) *)
  zod_uuid : string -> bool;
  (** [z.string().datetime()] followed by [new Date(str)] *)
  iso_datetime : string -> option Date;
  (** [new Date(str)]; [None] is an invalid date *)
  Date_parse : string -> option Date;
  (** whether [.default(v)] under [.partial()] yields [v] for a missing key *)
  default_in_optional : bool
}.

Inductive Verb := SELECT | INSERT | UPDATE | DELETE.
Inductive Table := assets_table | projects_table | cases_table | notes_table.

(** A statement sent to the store, with the values bound in it. *)
Record Query := { verb : Verb; table : Table; bound : list string }.

Record World := {
  db : DB;
  (** the statements sent so far, oldest first *)
  log : list Query;
  (** the number of clock readings so far *)
  ticks : nat;
  (** the number of identifiers drawn so far *)
  draws : nat
}.

Inductive Exn :=
| ZodError (errs : list Issue)
| Error (msg : string).

Definition M (A : Type) : Type := Env -> World -> (Exn + A) * World.

Definition ret {A} (a : A) : M A := fun _ w => (inr a, w).

Definition bind {A B} (m : M A) (k : A -> M B) : M B :=
  fun env w =>
    match m env w with
    | (inr a, w') => k a env w'
    | (inl e, w') => (inl e, w')
    end.

Definition throw {A} (e : Exn) : M A := fun _ w => (inl e, w).

Notation "x <- m ;; k" := (bind m (fun x => k))
  (at level 100, m at next level, right associativity).
Notation "m ;;; k" := (bind m (fun _ => k))
  (at level 100, right associativity).

Definition ask : M Env := fun env w => (inr env, w).

(** [new Date()] *)
Definition new_Date : M Date :=
  fun env w =>
    (inr (clock env (ticks w)),
     {| db := db w; log := log w; ticks := S (ticks w); draws := draws w |}).

(** [schema.parse(v)]: any issue is thrown as a [ZodError]. *)
Definition parse {A} (r : Res A) : M A :=
  match r with
  | Valid a => ret a
  | Dirty errs | Aborted errs => throw (ZodError errs)
  end.

(** One awaited statement: it is logged; it fails when the platform says so
    or when the store refuses it (a violated constraint), and then leaves
    the store as it was. *)
Definition statement {A} (q : Query) (run : DB -> option (A * DB)) : M A :=
  fun env w =>
    let w1 := {| db := db w; log := log w ++ [q];
                 ticks := ticks w; draws := draws w |} in
    if faults env (List.length (log w)) then (inl (Error "storage failure"), w1)
    else
      match run (db w) with
      | Some (a, d) =>
          (inr a, {| db := d; log := log w ++ [q];
                     ticks := ticks w; draws := draws w |})
      | None => (inl (Error "constraint violation"), w1)
      end.

(** A read-only statement. *)
Definition query {A} (q : Query) (rows : DB -> A) : M A :=
  statement q (fun d => Some (rows d, d)).

(** The store draws an identifier. *)
Definition draw_uuid : M string :=
  fun env w =>
    (inr (gen_random_uuid env (draws w)),
     {| db := db w; log := log w; ticks := ticks w; draws := S (draws w) |}).

(** [try { body } catch (error) { recover(error) }] *)
Definition try_catch {A} (body : M A) (recover : Exn -> A)
  : Env -> World -> A * World :=
  fun env w =>
    match body env w with
    | (inr a, w') => (a, w')
    | (inl e, w') => (recover e, w')
    end.

(** [Promise.all(items.map(async item => ...))]. [map] runs every callback
    up to its first [await] ([before]: destructuring, checks, validation and
    clock readings, which may throw); the rest of a callback ([after]: its
    statements) then runs whatever became of the other callbacks, here one
    callback after the other. The call rejects with the first error thrown
    before an [await] if there is one, otherwise with the first error of a
    statement. *)
Fixpoint start_all {A C} (before : A -> M C) (items : list A)
  : Env -> World -> list (Exn + C) * World :=
  fun env w =>
    match items with
    | [] => ([], w)
    | x :: rest =>
        let '(r, w1) := before x env w in
        let '(rs, w2) := start_all before rest env w1 in
        (r :: rs, w2)
    end.

Fixpoint settle_all {C B} (after : C -> M B) (started : list (Exn + C))
  : Env -> World -> list (Exn + B) * World :=
  fun env w =>
    match started with
    | [] => ([], w)
    | inl e :: rest =>
        let '(rs, w1) := settle_all after rest env w in
        (inl e :: rs, w1)
    | inr c :: rest =>
        let '(r, w1) := after c env w in
        let '(rs, w2) := settle_all after rest env w1 in
        (r :: rs, w2)
    end.

Fixpoint first_rejection {B} (rs : list (Exn + B)) : option Exn :=
  match rs with
  | [] => None
  | inl e :: _ => Some e
  | inr _ :: rest => first_rejection rest
  end.

Fixpoint fulfilled {B} (rs : list (Exn + B)) : list B :=
  match rs with
  | [] => []
  | inr b :: rest => b :: fulfilled rest
  | inl _ :: rest => fulfilled rest
  end.

Definition Promise_all {A C B} (before : A -> M C) (after : C -> M B)
  (items : list A) : M (list B) :=
  fun env w =>
    let '(started, w1) := start_all before items env w in
    let '(rs, w2) := settle_all after started env w1 in
    match first_rejection started with
    | Some e => (inl e, w2)
    | None =>
        match first_rejection rs with
        | Some e => (inl e, w2)
        | None => (inr (fulfilled rs), w2)
        end
    end.

(* ===================================================================== *)
(** ** The schemas of db/schema.ts *)
(* ===================================================================== *)

Module Schema.
Section WithEnv.

Variable env : Env.

(** [coerceTimestamp(label)]: a string is trimmed and read by
    [new Date], a number is taken as an epoch value; what is not turned
    into a valid date fails [z.date()]. *)
Definition max_time : Q := 8640000000000000 # 1.

Definition coerceTimestamp (p : list string) (v : option json) : Res Date :=
  match v with
  | Some (JStr s) =>
      let trimmed := Js.trim s in
      if Js.truthy trimmed then
        match Date_parse env trimmed with
        | Some d => Valid d
        | None => fail_type p
        end
      else fail_type p
  | Some (JNum q) =>
      if Qle_bool (Qopp max_time) q && Qle_bool q max_time
      then Valid (Z.quot (Qnum q) (Z.pos (Qden q)))
      else fail_type p
  | _ => fail_type p
  end.

Definition uuid_of (s : string) : option string :=
  if zod_uuid env s then Some s else None.

(** A column of a generated schema: required on insert, optional under
    [.partial()]. *)
Definition column {A} (partial : bool) (f : option json -> Res A)
  (v : option json) : Res (option A) :=
  if partial then optional f v else res_map Some (f v).

(** A column left out by [.omit(..)]: the key is ignored. *)
Definition omitted {A} (omit : bool) (f : option json -> Res (option A))
  (v : option json) : Res (option A) :=
  if omit then Valid None else f v.

Definition not_an_object {A} : Res A :=
  Aborted [issue invalid_type [] default_message].

(** *** Assets *)

Definition asset_statuses : list string :=
  ["active"; "inactive"; "maintenance"; "retired"].

Definition lat_message : string := "Latitude must be between -90 and 90".
Definition lng_message : string := "Longitude must be between -180 and 180".

Definition location_schema (v : option json) : Res Location :=
  match v with
  | Some (JObj fields) =>
      Valid Build_Location
      <*> z_number_between ["location"; "lat"] (-90 # 1) (90 # 1)
            lat_message (assoc "lat" fields)
      <*> z_number_between ["location"; "lng"] (-180 # 1) (180 # 1)
            lng_message (assoc "lng" fields)
  | _ => fail_type ["location"]
  end.

Definition text_column (partial : bool) (k : string) (body : json)
  : Res (option string) :=
  column partial (z_string [k]) (prop k body).

Definition assetSchema (partial : bool) (body : json) : Res AssetSet.t :=
  match body with
  | JObj _ =>
      Valid AssetSet.Build_t
      <*> omitted partial
            (optional (z_string_format ["id"] (zod_uuid env) default_message))
            (prop "id" body)
      <*> column partial (z_string_min1_trim ["name"] "Asset name is required")
            (prop "name" body)
      <*> column partial
            (z_string_min1_trim ["description"] "Asset description is required")
            (prop "description" body)
      <*> text_column partial "taxDecNo" body
      <*> text_column partial "declaredOwner" body
      <*> text_column partial "marketValue" body
      <*> text_column partial "assessedValue" body
      <*> optional (nullable (z_string ["carStatus"])) (prop "carStatus" body)
      <*> column partial location_schema (prop "location" body)
      <*> (if partial
           then partial_default (default_in_optional env) "active"
                  (z_enum ["status"] asset_statuses) (prop "status" body)
           else res_map Some
                  (with_default "active" (z_enum ["status"] asset_statuses)
                     (prop "status" body)))
      <*> text_column partial "address" body
      <*> text_column partial "taxDeclarationNo" body
      <*> text_column partial "tctNo" body
      <*> text_column partial "areaPerSqM" body
      <*> text_column partial "locationOfPropery" body
      <*> text_column partial "barangay" body
      <*> text_column partial "bidder" body
      <*> column partial (coerceTimestamp ["auctionDate"])
            (prop "auctionDate" body)
      <*> column partial (coerceTimestamp ["dateOfCertificationOfSale"])
            (prop "dateOfCertificationOfSale" body)
      <*> text_column partial "entryNo" body
      <*> text_column partial "detailsShortUpdateLog" body
      <*> omitted partial (optional (z_date ["createdAt"]))
            (prop "createdAt" body)
      <*> optional (z_date ["updatedAt"]) (prop "updatedAt" body)
  | _ => not_an_object
  end.

Definition insertAssetSchema : json -> Res AssetSet.t := assetSchema false.
(** [insertAssetSchema.partial().omit({ id: true, createdAt: true })] *)
Definition updateAssetSchema : json -> Res AssetSet.t := assetSchema true.

(** *** Projects *)

Definition project_statuses : list string :=
  ["planning"; "active"; "on-hold"; "completed"; "cancelled"].

Definition asset_ref (v : option json) : Res (option (option string)) :=
  optional (z_union_null ["assetId"] uuid_of "Invalid asset ID") v.

Definition date_field (k : string) (v : option json)
  : Res (option (option Date)) :=
  optional (z_union_null [k] (iso_datetime env) "Invalid date format") v.

Definition insertProjectSchema (body : json) : Res ProjectInput.t :=
  match body with
  | JObj _ =>
      Valid ProjectInput.Build_t
      <*> optional (z_string_format ["id"] (zod_uuid env) default_message)
            (prop "id" body)
      <*> z_string_min1_trim ["name"] "Project name is required"
            (prop "name" body)
      <*> optional (z_string ["description"]) (prop "description" body)
      <*> with_default "planning" (z_enum ["status"] project_statuses)
            (prop "status" body)
      <*> asset_ref (prop "assetId" body)
      <*> date_field "startDate" (prop "startDate" body)
      <*> date_field "endDate" (prop "endDate" body)
      <*> date_field "assignedAt" (prop "assignedAt" body)
      <*> optional (z_date ["createdAt"]) (prop "createdAt" body)
      <*> optional (z_date ["updatedAt"]) (prop "updatedAt" body)
  | _ => not_an_object
  end.

(** [insertProjectSchema.partial().omit({ id: true, createdAt: true })] *)
Definition updateProjectSchema (body : json) : Res ProjectSet.t :=
  match body with
  | JObj _ =>
      Valid ProjectSet.Build_t
      <*> optional (z_string_min1_trim ["name"] "Project name is required")
            (prop "name" body)
      <*> optional (z_string ["description"]) (prop "description" body)
      <*> partial_default (default_in_optional env) "planning"
            (z_enum ["status"] project_statuses) (prop "status" body)
      <*> asset_ref (prop "assetId" body)
      <*> date_field "startDate" (prop "startDate" body)
      <*> date_field "endDate" (prop "endDate" body)
      <*> date_field "assignedAt" (prop "assignedAt" body)
      <*> optional (z_date ["updatedAt"]) (prop "updatedAt" body)
  | _ => not_an_object
  end.

(** *** Cases *)

Definition generated_ref (k : string) (v : option json)
  : Res (option (option string)) :=
  optional (nullable (z_string_format [k] (zod_uuid env) default_message)) v.

(** [insertCaseStatusSchema.partial().omit({ id: true })] *)
Definition updateCaseStatusSchema (body : json) : Res CaseSet.t :=
  match body with
  | JObj _ =>
      Valid CaseSet.Build_t
      <*> optional (z_string_min1_trim ["rtc"] "RTC is required")
            (prop "rtc" body)
      <*> optional (z_string_min1_trim ["case_no"] "Case number is required")
            (prop "case_no" body)
      <*> optional (coerceTimestamp ["lastUpdatedAt"])
            (prop "lastUpdatedAt" body)
      <*> optional (z_string ["details"]) (prop "details" body)
      <*> optional (z_string ["judge"]) (prop "judge" body)
      <*> generated_ref "assetId" (prop "assetId" body)
      <*> generated_ref "projectId" (prop "projectId" body)
  | _ => not_an_object
  end.

(** *** Notes *)

(** [z.string().uuid(msg).optional().nullable()] *)
Definition note_ref (k msg : string) (v : option json)
  : Res (option (option string)) :=
  optional (nullable (z_string_format [k] (zod_uuid env) msg)) v.

Definition baseInsertNoteSchema (body : json) : Res NoteInput.t :=
  match body with
  | JObj _ =>
      Valid NoteInput.Build_t
      <*> optional (z_string_format ["id"] (zod_uuid env) default_message)
            (prop "id" body)
      <*> z_string_min1_trim ["content"] "Note content is required"
            (prop "content" body)
      <*> note_ref "assetId" "Invalid asset ID" (prop "assetId" body)
      <*> note_ref "projectId" "Invalid project ID" (prop "projectId" body)
      <*> note_ref "caseId" "Invalid case ID" (prop "caseId" body)
      <*> optional (z_date ["createdAt"]) (prop "createdAt" body)
      <*> optional (z_date ["updatedAt"]) (prop "updatedAt" body)
  | _ => not_an_object
  end.

Definition link_message : string :=
  "A note must be linked to an asset, project, or case".

(** [baseInsertNoteSchema.refine(data => data.assetId || data.projectId ||
    data.caseId, { message, path: ["assetId"] })]. The refinement runs
    unless the object aborted; the schema leaves the three references as
    they are in the payload, so [data.assetId] is the payload's. *)
Definition linked (body : json) : bool :=
  truthy (prop "assetId" body) || truthy (prop "projectId" body)
  || truthy (prop "caseId" body).

Definition insertNoteSchema (body : json) : Res NoteInput.t :=
  let base := baseInsertNoteSchema body in
  if is_aborted base || linked body then base
  else Dirty (issues base ++ [issue custom ["assetId"] link_message]).

End WithEnv.
End Schema.

(* ===================================================================== *)
(** ** Responses *)
(* ===================================================================== *)

(** The [{ id, name, status }] (or [{ id, caseNo, rtc }]) of a linked row. *)
Definition Summary : Type := (string * string * string)%type.

Inductive Data :=
| no_data
| asset_row (a : Asset.t)
| asset_rows (rows : list Asset.t)
| asset_with_projects (a : Asset.t) (related : list Project.t)
| assets_with_projects (rows : list (Asset.t * list Project.t))
| projects_of_asset (rows : list Project.t) (assetId assetName : string)
    (totalProjects : nat)
| project_row (p : Project.t)
| project_rows (rows : list Project.t)
| project_with_asset (p : Project.t) (a : option Asset.t)
| projects_with_assets (rows : list (Project.t * option Asset.t))
| case_with_links (c : CaseStatus.t) (a : option Asset.t) (p : option Project.t)
| cases_with_links (rows : list (CaseStatus.t * option Asset.t
                                 * option Project.t))
| note_with_links (n : Note.t) (a p c : option Summary)
| notes_with_links (rows : list (Note.t * option Summary * option Summary
                                 * option Summary)).

Inductive Details :=
| no_details
| detail_lines (lines : list string)
| detail_fields (fields : list (string * string)).

(** A number that is NaN or infinite is [None] (and is sent as [null]). *)
Record Pagination := {
  page : option Z;
  limit : option Z;
  total : Z;
  pages : option Z
}.

Module Response.
Record t := {
  status : Z;
  success : bool;
  error : option string;
  details : Details;
  data : Data;
  pagination : option Pagination;
  message : option string
}.
End Response.

Definition failure (st : Z) (err : string) : Response.t :=
  {| Response.status := st; Response.success := false;
     Response.error := Some err; Response.details := no_details;
     Response.data := no_data; Response.pagination := None;
     Response.message := None |}.

Definition failure_with (st : Z) (err : string) (det : Details) : Response.t :=
  {| Response.status := st; Response.success := false;
     Response.error := Some err; Response.details := det;
     Response.data := no_data; Response.pagination := None;
     Response.message := None |}.

Definition respond (st : Z) (d : Data) (msg : option string) : Response.t :=
  {| Response.status := st; Response.success := true;
     Response.error := None; Response.details := no_details;
     Response.data := d; Response.pagination := None;
     Response.message := msg |}.

Definition respond_page (d : Data) (pg : Pagination) : Response.t :=
  {| Response.status := 200; Response.success := true;
     Response.error := None; Response.details := no_details;
     Response.data := d; Response.pagination := Some pg;
     Response.message := None |}.

(** [`${err.path.join(".")}: ${err.message}`] *)
Definition issue_line (i : Issue) : string :=
  String.concat "." (path i) ++ ": " ++ message i.

(** [{ path: issue.path.join("."), message: issue.message }] *)
Definition issue_field (i : Issue) : string * string :=
  (String.concat "." (path i), message i).

(** The [catch] block of a handler that validates a body. *)
Definition on_error_lines (fallback : string) (e : Exn) : Response.t :=
  match e with
  | ZodError errs =>
      failure_with 400 "Validation failed" (detail_lines (map issue_line errs))
  | Error _ => failure 500 fallback
  end.

Definition on_error_fields (fallback : string) (e : Exn) : Response.t :=
  match e with
  | ZodError errs =>
      failure_with 400 "Validation failed" (detail_fields (map issue_field errs))
  | Error _ => failure 500 fallback
  end.

Definition count_message (n : nat) (what : string) : string :=
  NilZero.string_of_uint (Nat.to_uint n) ++ what.

Definition Handler : Type := Env -> World -> Response.t * World.

(** Shorthands for the statements of the handlers. *)
Definition q_ (v : Verb) (t : Table) (vals : list string) : Query :=
  {| verb := v; table := t; bound := vals |}.

(** [eq(table.id, i)], on texts (see [canonical]). *)
Definition id_is {R} (id : R -> string) (i : string) (r : R) : bool :=
  String.eqb (id r) i.

Definition select_asset (i : string) : M (list Asset.t) :=
  query (q_ SELECT assets_table [i])
        (fun d => filter (id_is Asset.id i) (assets d)).

Definition select_project (i : string) : M (list Project.t) :=
  query (q_ SELECT projects_table [i])
        (fun d => filter (id_is Project.id i) (projects d)).

Definition assigned_to (i : string) (p : Project.t) : bool :=
  eq_col (Project.assetId p) i.

Definition select_projects_of (i : string) : M (list Project.t) :=
  query (q_ SELECT projects_table [i])
        (fun d => filter (assigned_to i) (projects d)).

(** [or(...ids.map(id => eq(col, id)))] *)
Definition any_of (ids : list string) (col : option string) : bool :=
  existsb (eq_col col) ids.

(* ===================================================================== *)
(** ** /api/assets/[id] *)
(* ===================================================================== *)

Module AssetIdRoute.

Definition GET (id : string) : Handler :=
  try_catch
    (if negb (uuidRegex_test id)
     then ret (failure 400 "Invalid asset ID format")
     else
       found <- select_asset id ;;
       match found with
       | [] => ret (failure 404 "Asset not found")
       | asset :: _ =>
           relatedProjects <- select_projects_of id ;;
           ret (respond 200 (asset_with_projects asset relatedProjects) None)
       end)
    (fun _ => failure 500 "Failed to fetch asset").

Definition with_updatedAt (now : Date) (s : AssetSet.t) : AssetSet.t :=
  {| AssetSet.id := AssetSet.id s;
     AssetSet.name := AssetSet.name s;
     AssetSet.description := AssetSet.description s;
     AssetSet.taxDecNo := AssetSet.taxDecNo s;
     AssetSet.declaredOwner := AssetSet.declaredOwner s;
     AssetSet.marketValue := AssetSet.marketValue s;
     AssetSet.assessedValue := AssetSet.assessedValue s;
     AssetSet.carStatus := AssetSet.carStatus s;
     AssetSet.location := AssetSet.location s;
     AssetSet.status := AssetSet.status s;
     AssetSet.address := AssetSet.address s;
     AssetSet.taxDeclarationNo := AssetSet.taxDeclarationNo s;
     AssetSet.tctNo := AssetSet.tctNo s;
     AssetSet.areaPerSqM := AssetSet.areaPerSqM s;
     AssetSet.locationOfPropery := AssetSet.locationOfPropery s;
     AssetSet.barangay := AssetSet.barangay s;
     AssetSet.bidder := AssetSet.bidder s;
     AssetSet.auctionDate := AssetSet.auctionDate s;
     AssetSet.dateOfCertificationOfSale := AssetSet.dateOfCertificationOfSale s;
     AssetSet.entryNo := AssetSet.entryNo s;
     AssetSet.detailsShortUpdateLog := AssetSet.detailsShortUpdateLog s;
     AssetSet.createdAt := AssetSet.createdAt s;
     AssetSet.updatedAt := Some now |}.

Definition PUT (id : string) (body : json) : Handler :=
  try_catch
    (if negb (uuidRegex_test id)
     then ret (failure 400 "Invalid asset ID format")
     else
       env <- ask ;;
       validatedData <- parse (Schema.updateAssetSchema env body) ;;
       now <- new_Date ;;
       updated <- statement (q_ UPDATE assets_table [id])
                    (Store.update_assets (id_is Asset.id id)
                       (with_updatedAt now validatedData)) ;;
       match updated with
       | [] => ret (failure 404 "Asset not found")
       | updatedAsset :: _ =>
           relatedProjects <- select_projects_of id ;;
           ret (respond 200 (asset_with_projects updatedAsset relatedProjects)
                  (Some "Asset updated successfully"))
       end)
    (on_error_lines "Failed to update asset").

(** The two statements of the deletion: the projects of the asset are
    unlinked, then the asset row is deleted. *)
Definition unlink_all : ProjectSet.t := Store.set_assignment None None None.

Definition DELETE (id : string) : Handler :=
  try_catch
    (if negb (uuidRegex_test id)
     then ret (failure 400 "Invalid asset ID format")
     else
       statement (q_ UPDATE projects_table [id])
         (Store.update_projects (assigned_to id) unlink_all) ;;;
       deleted <- statement (q_ DELETE assets_table [id])
                    (fun d => Some (Store.delete_assets (id_is Asset.id id) d)) ;;
       match deleted with
       | [] => ret (failure 404 "Asset not found")
       | deletedAsset :: _ =>
           ret (respond 200 (asset_row deletedAsset)
                  (Some "Asset deleted successfully"))
       end)
    (fun _ => failure 500 "Failed to delete asset").

End AssetIdRoute.

(* ===================================================================== *)
(** ** /api/projects and /api/projects/[id] *)
(* ===================================================================== *)

(** [searchParams] of a list request; [None] is an absent parameter. *)
Record ListParams := {
  status_param : option string;
  search_param : option string;
  assetId_param : option string;
  page_param : option string;
  limit_param : option string
}.

Definition param_truthy (x : option string) : bool :=
  match x with Some s => Js.truthy s | None => false end.

(** [(page - 1) * limit] on numbers that may be NaN. *)
Definition offset_of (page limit : option Z) : option Z :=
  match page, limit with
  | Some p, Some l => Some ((p - 1) * l)
  | _, _ => None
  end.

(** [Math.ceil(total / limit)], which no finite number is for [limit = 0]. *)
Definition pages_of (total : Z) (limit : option Z) : option Z :=
  match limit with
  | Some l => if l =? 0 then None else Some (Js.ceil_div total l)
  | None => None
  end.

Definition contains (s : string) : string := "%" ++ s ++ "%".

(** [validatedData.assetId ? ... : ...] *)
Definition ref_truthy (ref : option (option string)) : bool :=
  match ref with Some (Some s) => Js.truthy s | _ => false end.

Definition col_truthy (ref : option string) : bool :=
  match ref with Some s => Js.truthy s | None => false end.

(** [{ ...validatedData, assignedAt, updatedAt }] *)
Definition with_assignedAt (s : ProjectSet.t) (at_ : option Date)
  (updated : Date) : ProjectSet.t :=
  {| ProjectSet.name := ProjectSet.name s;
     ProjectSet.description := ProjectSet.description s;
     ProjectSet.status := ProjectSet.status s;
     ProjectSet.assetId := ProjectSet.assetId s;
     ProjectSet.startDate := ProjectSet.startDate s;
     ProjectSet.endDate := ProjectSet.endDate s;
     ProjectSet.assignedAt := Some at_;
     ProjectSet.updatedAt := Some updated |}.

(** [validatedData.assetId ? new Date() : null] *)
Definition assignedAt_for (ref : option (option string)) : M (option Date) :=
  if ref_truthy ref then (now <- new_Date ;; ret (Some now)) else ret None.

(** The asset of a written project, read back for the response. *)
Definition associated_asset (ref : option string) : M (option Asset.t) :=
  match ref with
  | Some i =>
      if Js.truthy i
      then (found <- select_asset i ;; ret (hd_error found))
      else ret None
  | None => ret None
  end.

Definition flatten {A} (x : option (option A)) : option A :=
  match x with Some y => y | None => None end.

(** The [ids] parameter of a bulk deletion: the identifiers, or the
    response that refuses them. *)
Definition ids_or_refusal (idsParam : option string) (required invalid : string)
  : Response.t + list string :=
  match idsParam with
  | Some raw =>
      if Js.truthy raw then
        let ids := map Js.trim (Js.split_comma raw) in
        match filter (fun i => negb (uuidRegex_test i)) ids with
        | [] => inr ids
        | invalidIds => inl (failure_with 400 invalid (detail_lines invalidIds))
        end
      else inl (failure 400 required)
  | None => inl (failure 400 required)
  end.

Module ProjectsRoute.

Definition Row : Type := (Project.t * option Asset.t)%type.

(** [.from(projects).leftJoin(assets, eq(projects.assetId, assets.id))] *)
Definition joined (d : DB) : list Row :=
  map (fun p => (p, Store.join_asset d (Project.assetId p))) (projects d).

(** The condition pushed for the [assetId] parameter, if any. *)
Definition asset_condition (assetId : option string) : list (Row -> bool) :=
  match assetId with
  | Some raw =>
      if Js.truthy raw then
        let normalizedAssetFilter := Js.trim raw in
        if Js.truthy normalizedAssetFilter then
          let normalizedLower := Js.toLowerCase normalizedAssetFilter in
          if String.eqb normalizedLower "unassigned" then
            [fun r => isNull (Project.assetId (fst r))]
          else if String.eqb normalizedLower "assigned" then
            [fun r => isNotNull (Project.assetId (fst r))]
          else
            [fun r =>
               eq_col (Project.assetId (fst r)) normalizedAssetFilter
               || Store.ilike_null (option_map Asset.name (snd r))
                    (contains normalizedAssetFilter)]
        else []
      else []
  | None => []
  end.

Definition conditions (rq : ListParams) : list (Row -> bool) :=
  (match status_param rq with
   | Some status =>
       if Js.truthy status
       then [fun r => String.eqb (Project.status (fst r)) status]
       else []
   | None => []
   end)
  ++ asset_condition (assetId_param rq)
  ++ (match search_param rq with
      | Some search =>
          if Js.truthy search
          then [fun r =>
                  Store.ilike (Project.name (fst r)) (contains search)
                  || Store.ilike_null (Project.description (fst r))
                       (contains search)]
          else []
      | None => []
      end).

(** [conditions.length === 1 ? conditions[0] : and(...conditions)] *)
Definition where_ (conds : list (Row -> bool)) (r : Row) : bool :=
  forallb (fun c => c r) conds.

Definition bound_values (rq : ListParams) : list string :=
  (if param_truthy (status_param rq)
   then [Js.or_default (status_param rq) ""] else [])
  ++ (match asset_condition (assetId_param rq), assetId_param rq with
      | _ :: _, Some raw =>
          let f := Js.trim raw in
          let l := Js.toLowerCase f in
          if String.eqb l "unassigned" || String.eqb l "assigned" then []
          else [f; contains f]
      | _, _ => []
      end)
  ++ (if param_truthy (search_param rq)
      then [contains (Js.or_default (search_param rq) "");
            contains (Js.or_default (search_param rq) "")]
      else []).

(** The text compared with the uuid column [projects.assetId], if any. *)
Definition uuid_values (rq : ListParams) : list string :=
  match asset_condition (assetId_param rq), assetId_param rq with
  | _ :: _, Some raw =>
      let f := Js.trim raw in
      let l := Js.toLowerCase f in
      if String.eqb l "unassigned" || String.eqb l "assigned" then []
      else [f]
  | _, _ => []
  end.

Definition matching (rq : ListParams) (d : DB) : list Row :=
  filter (where_ (conditions rq)) (joined d).

Definition GET (rq : ListParams) : Handler :=
  try_catch
    (let page := Js.parseInt (Js.or_default (page_param rq) "1") in
     let limit := Js.parseInt (Js.or_default (limit_param rq) "10") in
     let offset := offset_of page limit in
     projectsResult <-
       statement (q_ SELECT projects_table (bound_values rq))
         (fun d =>
            Store.comparing (uuid_values rq)
              (option_map (fun rows => (rows, d))
                 (Store.limit_offset limit offset
                    (Store.order_desc (fun r => Project.createdAt (fst r))
                       (matching rq d))))) ;;
     total <- query (q_ SELECT projects_table (bound_values rq))
                (fun d => Z.of_nat (List.length (matching rq d))) ;;
     ret (respond_page (projects_with_assets projectsResult)
            {| page := page; limit := limit; total := total;
               pages := pages_of total limit |}))
    (fun _ => failure 500 "Failed to fetch projects").

(** The row inserted for a validated payload. *)
Definition new_row (v : ProjectInput.t) (id : string) (assignedAt : option Date)
  (createdAt updatedAt : Date) : Project.t :=
  {| Project.id := id;
     Project.name := ProjectInput.name v;
     Project.description := ProjectInput.description v;
     Project.status := ProjectInput.status v;
     Project.assetId := flatten (ProjectInput.assetId v);
     Project.startDate := flatten (ProjectInput.startDate v);
     Project.endDate := flatten (ProjectInput.endDate v);
     Project.assignedAt := assignedAt;
     Project.createdAt := createdAt;
     Project.updatedAt := updatedAt |}.

(** [db.insert(projects).values(..).returning()]: the store fills the
    key ([defaultRandom()]) and the creation date ([defaultNow()]) that
    the payload leaves out. *)
Definition insert (v : ProjectInput.t) (assignedAt : option Date)
  (updatedAt : Date) : M (list Project.t) :=
  id <- match ProjectInput.id v with
        | Some i => ret i
        | None => draw_uuid
        end ;;
  createdAt <- match ProjectInput.createdAt v with
               | Some c => ret c
               | None => new_Date
               end ;;
  statement (q_ INSERT projects_table
               (match flatten (ProjectInput.assetId v) with
                | Some a => [id; a]
                | None => [id]
                end))
    (Store.insert_project (new_row v id assignedAt createdAt updatedAt)).

Definition POST (body : json) : Handler :=
  try_catch
    (env <- ask ;;
     validatedData <- parse (Schema.insertProjectSchema env body) ;;
     assignedAt <- assignedAt_for (ProjectInput.assetId validatedData) ;;
     updatedAt <- new_Date ;;
     inserted <- insert validatedData assignedAt updatedAt ;;
     match inserted with
     | [] => throw (Error "no row returned")
     | newProject :: _ =>
         associatedAsset <- associated_asset (Project.assetId newProject) ;;
         ret (respond 201 (project_with_asset newProject associatedAsset)
                (Some "Project created successfully"))
     end)
    (on_error_lines "Failed to create project").

(** The part of a bulk-update callback before its first [await]. *)
Definition before_update (projectData : json)
  : M (json * ProjectSet.t) :=
  match projectData with
  | JNull => throw (Error "Cannot destructure")
  | _ =>
      match prop "id" projectData with
      | Some id =>
          if truthy (Some id) then
            env <- ask ;;
            validatedData <-
              parse (Schema.updateProjectSchema env
                       (match projectData with
                        | JObj fields => JObj (assoc_remove "id" fields)
                        | other => other
                        end)) ;;
            assignedAt <- assignedAt_for (ProjectSet.assetId validatedData) ;;
            updatedAt <- new_Date ;;
            ret (id, with_assignedAt validatedData assignedAt updatedAt)
          else throw (Error "Project ID is required for update")
      | None => throw (Error "Project ID is required for update")
      end
  end.

(** The statements of a bulk-update callback. A key that is no string
    is refused by the store; a key that designates no row leaves
    [updatedProject] undefined, and reading its [assetId] throws. *)
Definition after_update (c : json * ProjectSet.t) : M Row :=
  match fst c with
  | JStr id =>
      updated <- statement (q_ UPDATE projects_table [id])
                   (Store.update_projects (id_is Project.id id) (snd c)) ;;
      match updated with
      | [] => throw (Error "Cannot read properties of undefined")
      | updatedProject :: _ =>
          associatedAsset <- associated_asset (Project.assetId updatedProject) ;;
          ret (updatedProject, associatedAsset)
      end
  | _ => statement (q_ UPDATE projects_table []) (fun _ => None)
  end.

Definition PUT (body : json) : Handler :=
  try_catch
    (match body with
     | JNull => throw (Error "Cannot destructure")
     | _ =>
         match prop "projects" body with
         | Some (JArr projectsToUpdate) =>
             results <- Promise_all before_update after_update
                          projectsToUpdate ;;
             ret (respond 200 (projects_with_assets results)
                    (Some (count_message (List.length results)
                             " projects updated successfully")))
         | _ => ret (failure 400 "Expected an array of projects")
         end
     end)
    (on_error_lines "Failed to update projects").

Definition DELETE (idsParam : option string) : Handler :=
  try_catch
    (match ids_or_refusal idsParam "Project IDs are required"
             "Invalid project IDs provided" with
     | inl refusal => ret refusal
     | inr ids =>
         deletedProjects <-
           statement (q_ DELETE projects_table ids)
             (fun d =>
                Some (Store.delete_projects
                        (fun p => existsb (String.eqb (Project.id p)) ids)
                        d)) ;;
         ret (respond 200 (project_rows deletedProjects)
                (Some (count_message (List.length deletedProjects)
                         " projects deleted successfully")))
     end)
    (fun _ => failure 500 "Failed to delete projects").

End ProjectsRoute.

Module ProjectIdRoute.

Definition GET (id : string) : Handler :=
  try_catch
    (if negb (uuidRegex_test id)
     then ret (failure 400 "Invalid project ID format")
     else
       result <- query (q_ SELECT projects_table [id])
                   (fun d => filter (fun r => id_is Project.id id (fst r))
                               (ProjectsRoute.joined d)) ;;
       match result with
       | [] => ret (failure 404 "Project not found")
       | (project, asset) :: _ =>
           ret (respond 200 (project_with_asset project asset) None)
       end)
    (fun _ => failure 500 "Failed to fetch project").

Definition PUT (id : string) (body : json) : Handler :=
  try_catch
    (if negb (uuidRegex_test id)
     then ret (failure 400 "Invalid project ID format")
     else
       env <- ask ;;
       validatedData <- parse (Schema.updateProjectSchema env body) ;;
       assignedAt <- assignedAt_for (ProjectSet.assetId validatedData) ;;
       updatedAt <- new_Date ;;
       updated <- statement (q_ UPDATE projects_table [id])
                    (Store.update_projects (id_is Project.id id)
                       (with_assignedAt validatedData assignedAt updatedAt)) ;;
       match updated with
       | [] => ret (failure 404 "Project not found")
       | updatedProject :: _ =>
           associatedAsset <- associated_asset (Project.assetId updatedProject) ;;
           ret (respond 200 (project_with_asset updatedProject associatedAsset)
                  (Some "Project updated successfully"))
       end)
    (on_error_lines "Failed to update project").

Definition DELETE (id : string) : Handler :=
  try_catch
    (if negb (uuidRegex_test id)
     then ret (failure 400 "Invalid project ID format")
     else
       deleted <- statement (q_ DELETE projects_table [id])
                    (fun d => Some (Store.delete_projects (id_is Project.id id) d)) ;;
       match deleted with
       | [] => ret (failure 404 "Project not found")
       | deletedProject :: _ =>
           ret (respond 200 (project_row deletedProject)
                  (Some "Project deleted successfully"))
       end)
    (fun _ => failure 500 "Failed to delete project").

End ProjectIdRoute.

(* ===================================================================== *)
(** ** /api/assets/[id]/projects and /api/assets/[id]/projects/[projectId] *)
(* ===================================================================== *)

Module AssetProjectsRoute.

Definition GET (id : string) : Handler :=
  try_catch
    (if negb (uuidRegex_test id)
     then ret (failure 400 "Invalid asset ID format")
     else
       found <- select_asset id ;;
       match found with
       | [] => ret (failure 404 "Asset not found")
       | asset :: _ =>
           relatedProjects <- select_projects_of id ;;
           ret (respond 200
                  (projects_of_asset relatedProjects id (Asset.name asset)
                     (List.length relatedProjects))
                  None)
       end)
    (fun _ => failure 500 "Failed to fetch asset projects").

(** The schema the handler builds for the body: name, description,
    status and the two dates. *)
Definition projectSchema (env : Env) (body : json) : Res ProjectInput.t :=
  match body with
  | JObj _ =>
      Valid (fun name description status startDate endDate =>
               {| ProjectInput.id := None;
                  ProjectInput.name := name;
                  ProjectInput.description := description;
                  ProjectInput.status := status;
                  ProjectInput.assetId := None;
                  ProjectInput.startDate := startDate;
                  ProjectInput.endDate := endDate;
                  ProjectInput.assignedAt := None;
                  ProjectInput.createdAt := None;
                  ProjectInput.updatedAt := None |})
      <*> z_string_min1_trim ["name"] "Project name is required"
            (prop "name" body)
      <*> optional (z_string ["description"]) (prop "description" body)
      <*> with_default "planning"
            (z_enum ["status"] Schema.project_statuses) (prop "status" body)
      <*> Schema.date_field env "startDate" (prop "startDate" body)
      <*> Schema.date_field env "endDate" (prop "endDate" body)
  | _ => Schema.not_an_object
  end.

(** [{ ...validatedData, assetId: id, ... }] *)
Definition assigned_to_asset (id : string) (v : ProjectInput.t)
  : ProjectInput.t :=
  {| ProjectInput.id := ProjectInput.id v;
     ProjectInput.name := ProjectInput.name v;
     ProjectInput.description := ProjectInput.description v;
     ProjectInput.status := ProjectInput.status v;
     ProjectInput.assetId := Some (Some id);
     ProjectInput.startDate := ProjectInput.startDate v;
     ProjectInput.endDate := ProjectInput.endDate v;
     ProjectInput.assignedAt := ProjectInput.assignedAt v;
     ProjectInput.createdAt := ProjectInput.createdAt v;
     ProjectInput.updatedAt := ProjectInput.updatedAt v |}.

Definition POST (id : string) (body : json) : Handler :=
  try_catch
    (if negb (uuidRegex_test id)
     then ret (failure 400 "Invalid asset ID format")
     else
       found <- select_asset id ;;
       match found with
       | [] => ret (failure 404 "Asset not found")
       | asset :: _ =>
           env <- ask ;;
           validatedData <- parse (projectSchema env body) ;;
           assignedAt <- new_Date ;;
           updatedAt <- new_Date ;;
           inserted <- ProjectsRoute.insert
                         (assigned_to_asset id validatedData)
                         (Some assignedAt) updatedAt ;;
           match inserted with
           | [] => throw (Error "no row returned")
           | newProject :: _ =>
               ret (respond 201 (project_with_asset newProject (Some asset))
                      (Some "Project created and assigned to asset successfully"))
           end
       end)
    (on_error_lines "Failed to create project for asset").

End AssetProjectsRoute.

Module AssetProjectRoute.

Definition bad_ids (assetId projectId : string) : bool :=
  negb (uuidRegex_test assetId) || negb (uuidRegex_test projectId).

(** [and(eq(projects.id, projectId), eq(projects.assetId, assetId))] *)
Definition is_assignment (assetId projectId : string) (p : Project.t) : bool :=
  id_is Project.id projectId p && assigned_to assetId p.

Definition GET (assetId projectId : string) : Handler :=
  try_catch
    (if bad_ids assetId projectId
     then ret (failure 400 "Invalid ID format")
     else
       result <- query (q_ SELECT projects_table [projectId; assetId])
                   (fun d => filter
                               (fun r => is_assignment assetId projectId (fst r))
                               (ProjectsRoute.joined d)) ;;
       match result with
       | [] => ret (failure 404 "Project not found or not assigned to this asset")
       | (project, asset) :: _ =>
           ret (respond 200 (project_with_asset project asset) None)
       end)
    (fun _ => failure 500 "Failed to fetch project assignment").

(** Assign an existing project to an asset. *)
Definition PUT (assetId projectId : string) : Handler :=
  try_catch
    (if bad_ids assetId projectId
     then ret (failure 400 "Invalid ID format")
     else
       foundAsset <- select_asset assetId ;;
       match foundAsset with
       | [] => ret (failure 404 "Asset not found")
       | asset :: _ =>
           foundProject <- select_project projectId ;;
           match foundProject with
           | [] => ret (failure 404 "Project not found")
           | _ :: _ =>
               assignedAt <- new_Date ;;
               updatedAt <- new_Date ;;
               updated <-
                 statement (q_ UPDATE projects_table [assetId; projectId])
                   (Store.update_projects (id_is Project.id projectId)
                      (Store.set_assignment (Some assetId) (Some assignedAt)
                         (Some updatedAt))) ;;
               match updated with
               | [] => throw (Error "no row returned")
               | updatedProject :: _ =>
                   ret (respond 200
                          (project_with_asset updatedProject (Some asset))
                          (Some "Project assigned to asset successfully"))
               end
           end
       end)
    (fun _ => failure 500 "Failed to assign project to asset").

(** Unassign a project from an asset. *)
Definition DELETE (assetId projectId : string) : Handler :=
  try_catch
    (if bad_ids assetId projectId
     then ret (failure 400 "Invalid ID format")
     else
       found <- query (q_ SELECT projects_table [projectId; assetId])
                  (fun d => filter (is_assignment assetId projectId)
                              (projects d)) ;;
       match found with
       | [] => ret (failure 404 "Project not found or not assigned to this asset")
       | _ :: _ =>
           updatedAt <- new_Date ;;
           updated <-
             statement (q_ UPDATE projects_table [projectId])
               (Store.update_projects (id_is Project.id projectId)
                  (Store.set_assignment None None (Some updatedAt))) ;;
           match updated with
           | [] => throw (Error "no row returned")
           | updatedProject :: _ =>
               ret (respond 200 (project_with_asset updatedProject None)
                      (Some "Project unassigned from asset successfully"))
           end
       end)
    (fun _ => failure 500 "Failed to unassign project from asset").

End AssetProjectRoute.

(* ===================================================================== *)
(** ** /api/assets and /api/assets/bulk *)
(* ===================================================================== *)

Definition unlink_where (where_ : Project.t -> bool) (vals : list string)
  : M (list Project.t) :=
  statement (q_ UPDATE projects_table vals)
    (Store.update_projects where_ AssetIdRoute.unlink_all).

Definition delete_assets_in (ids : list string) : M (list Asset.t) :=
  statement (q_ DELETE assets_table ids)
    (fun d => Some (Store.delete_assets
                      (fun a => existsb (String.eqb (Asset.id a)) ids) d)).

Module AssetsRoute.

Definition conditions (rq : ListParams) : list (Asset.t -> bool) :=
  (match status_param rq with
   | Some status =>
       if Js.truthy status
       then [fun a => String.eqb (Asset.status a) status]
       else []
   | None => []
   end)
  ++ (match search_param rq with
      | Some search =>
          if Js.truthy search
          then [fun a =>
                  Store.ilike (Asset.name a) (contains search)
                  || Store.ilike (Asset.description a) (contains search)]
          else []
      | None => []
      end).

Definition bound_values (rq : ListParams) : list string :=
  (if param_truthy (status_param rq)
   then [Js.or_default (status_param rq) ""] else [])
  ++ (if param_truthy (search_param rq)
      then [contains (Js.or_default (search_param rq) "");
            contains (Js.or_default (search_param rq) "")]
      else []).

Definition matching (rq : ListParams) (d : DB) : list Asset.t :=
  filter (fun a => forallb (fun c => c a) (conditions rq)) (assets d).

Definition GET (rq : ListParams) : Handler :=
  try_catch
    (let page := Js.parseInt (Js.or_default (page_param rq) "1") in
     let limit := Js.parseInt (Js.or_default (limit_param rq) "10") in
     let offset := offset_of page limit in
     assetsResult <-
       statement (q_ SELECT assets_table (bound_values rq))
         (fun d =>
            option_map (fun rows => (rows, d))
              (Store.limit_offset limit offset
                 (Store.order_desc Asset.createdAt (matching rq d)))) ;;
     assetsWithProjects <-
       Promise_all (fun asset => ret asset)
         (fun asset =>
            relatedProjects <- select_projects_of (Asset.id asset) ;;
            ret (asset, relatedProjects))
         assetsResult ;;
     total <- query (q_ SELECT assets_table (bound_values rq))
                (fun d => Z.of_nat (List.length (matching rq d))) ;;
     ret (respond_page (assets_with_projects assetsWithProjects)
            {| page := page; limit := limit; total := total;
               pages := pages_of total limit |}))
    (fun _ => failure 500 "Failed to fetch assets").

(** Bulk deletion: the projects of the first identifier are unlinked,
    then (for several identifiers) those of all of them, then the assets
    are deleted. *)
Definition DELETE (idsParam : option string) : Handler :=
  try_catch
    (match ids_or_refusal idsParam "Asset IDs are required"
             "Invalid asset IDs provided" with
     | inl refusal => ret refusal
     | inr ids =>
         unlink_where (assigned_to (hd "" ids)) [hd "" ids] ;;;
         (if (1 <? Z.of_nat (List.length ids))
          then unlink_where (fun p => any_of ids (Project.assetId p)) ids
          else ret []) ;;;
         deletedAssets <- delete_assets_in ids ;;
         ret (respond 200 (asset_rows deletedAssets)
                (Some (count_message (List.length deletedAssets)
                         " assets deleted successfully")))
     end)
    (fun _ => failure 500 "Failed to delete assets").

End AssetsRoute.

Module AssetsBulkRoute.

Definition DELETE (idsParam : option string) : Handler :=
  try_catch
    (match ids_or_refusal idsParam "Asset IDs are required"
             "Invalid asset IDs provided" with
     | inl refusal => ret refusal
     | inr ids =>
         unlink_where (fun p => any_of ids (Project.assetId p)) ids ;;;
         deletedAssets <- delete_assets_in ids ;;
         ret (respond 200 (asset_rows deletedAssets)
                (Some (count_message (List.length deletedAssets)
                         " assets deleted successfully")))
     end)
    (fun _ => failure 500 "Failed to delete assets").

End AssetsBulkRoute.

(* ===================================================================== *)
(** ** /api/cases/[id] *)
(* ===================================================================== *)

(** [sanitizeNullableId(value)]: a string is trimmed, and is [null] when
    nothing is left; [undefined] is [null]; another value is kept. *)
Definition sanitizeNullableId (value : option json) : json :=
  match value with
  | Some (JStr s) =>
      let trimmed := Js.trim s in
      if Js.truthy trimmed then JStr trimmed else JNull
  | Some other => other
  | None => JNull
  end.

(** [{ ...body }] *)
Definition spread (body : json) : list (string * json) :=
  match body with JObj fields => fields | _ => [] end.

(** [if (payload.k && typeof payload.k === "string") payload.k = payload.k.trim()] *)
Definition trim_key (k : string) (payload : list (string * json))
  : list (string * json) :=
  match assoc k payload with
  | Some (JStr s) =>
      if Js.truthy s then assoc_set k (JStr (Js.trim s)) payload else payload
  | _ => payload
  end.

(** [if (payload.k) payload.k = sanitizeNullableId(payload.k)] *)
Definition sanitize_key (k : string) (payload : list (string * json))
  : list (string * json) :=
  if truthy (assoc k payload)
  then assoc_set k (sanitizeNullableId (assoc k payload)) payload
  else payload.

Module CaseIdRoute.

Definition normalizeCasePayload (body : json) : list (string * json) :=
  let payload := spread body in
  let payload :=
    match assoc "caseNo" payload with
    | Some caseNo =>
        if truthy (Some caseNo) && negb (truthy (assoc "case_no" payload))
        then assoc_set "case_no" caseNo payload
        else payload
    | None => payload
    end in
  trim_key "judge" (trim_key "rtc" (trim_key "case_no" payload)).

Definition Row : Type :=
  (CaseStatus.t * option Asset.t * option Project.t)%type.

Definition joined (d : DB) : list Row :=
  map (fun c => (c, Store.join_asset d (CaseStatus.assetId c),
                 Store.join_project d (CaseStatus.projectId c)))
      (case_status d).

Definition GET (id : string) : Handler :=
  try_catch
    (if negb (uuidRegex_test id)
     then ret (failure 400 "Invalid case ID format")
     else
       results <- query (q_ SELECT cases_table [id])
                    (fun d => filter
                                (fun r => id_is CaseStatus.id id (fst (fst r)))
                                (joined d)) ;;
       match results with
       | [] => ret (failure 404 "Case not found")
       | (caseRecord, asset, project) :: _ =>
           ret (respond 200 (case_with_links caseRecord asset project) None)
       end)
    (fun _ => failure 500 "Failed to fetch case").

Definition associated_project (ref : option string) : M (option Project.t) :=
  match ref with
  | Some i =>
      if Js.truthy i
      then (found <- select_project i ;; ret (hd_error found))
      else ret None
  | None => ret None
  end.

Definition PUT (id : string) (body : json) : Handler :=
  try_catch
    (if negb (uuidRegex_test id)
     then ret (failure 400 "Invalid case ID format")
     else
       match body with
       | JNull => throw (Error "Cannot read properties of null")
       | _ =>
           let normalized := normalizeCasePayload body in
           let payload :=
             assoc_set "projectId" (sanitizeNullableId (prop "projectId" body))
               (assoc_set "assetId" (sanitizeNullableId (prop "assetId" body))
                  normalized) in
           env <- ask ;;
           validatedData <-
             parse (Schema.updateCaseStatusSchema env (JObj payload)) ;;
           updated <- statement (q_ UPDATE cases_table [id])
                        (Store.update_cases (id_is CaseStatus.id id)
                           validatedData) ;;
           match updated with
           | [] => ret (failure 404 "Case not found")
           | updatedCase :: _ =>
               associatedAsset <-
                 associated_asset (CaseStatus.assetId updatedCase) ;;
               associatedProject <-
                 associated_project (CaseStatus.projectId updatedCase) ;;
               ret (respond 200
                      (case_with_links updatedCase associatedAsset
                         associatedProject)
                      (Some "Case updated successfully"))
           end
       end)
    (on_error_fields "Failed to update case").

Definition DELETE (id : string) : Handler :=
  try_catch
    (if negb (uuidRegex_test id)
     then ret (failure 400 "Invalid case ID format")
     else
       deleted <- statement (q_ DELETE cases_table [id])
                    (fun d => Some (Store.delete_cases
                                      (id_is CaseStatus.id id) d)) ;;
       match deleted with
       | [] => ret (failure 404 "Case not found")
       | _ :: _ =>
           ret (respond 200 no_data (Some "Case deleted successfully"))
       end)
    (fun _ => failure 500 "Failed to delete case").

End CaseIdRoute.

(* ===================================================================== *)
(** ** /api/notes and /api/notes/[id] *)
(* ===================================================================== *)

Record NoteListParams := {
  note_search : option string;
  note_assetId : option string;
  note_projectId : option string;
  note_caseId : option string;
  note_page : option string;
  note_limit : option string
}.

Module NotesRoute.

Definition normalizeBody (body : json) : list (string * json) :=
  sanitize_key "caseId"
    (sanitize_key "projectId"
       (sanitize_key "assetId" (trim_key "content" (spread body)))).

Definition Row : Type :=
  (Note.t * option Asset.t * option Project.t * option CaseStatus.t)%type.

Definition joined (d : DB) : list Row :=
  map (fun n => (n, Store.join_asset d (Note.assetId n),
                 Store.join_project d (Note.projectId n),
                 Store.join_case d (Note.caseId n)))
      (notes d).

Definition toCamelCaseNote (r : Row)
  : Note.t * option Summary * option Summary * option Summary :=
  let '(note, asset, project, caseRecord) := r in
  (note,
   option_map (fun a => (Asset.id a, Asset.name a, Asset.status a)) asset,
   option_map (fun p => (Project.id p, Project.name p, Project.status p))
     project,
   option_map (fun c => (CaseStatus.id c, CaseStatus.case_no c,
                         CaseStatus.rtc c)) caseRecord).

(** The condition pushed for a reference parameter: ["unassigned"] for
    the notes without the reference, another value for an equal one. *)
Definition ref_condition (col : Note.t -> option string)
  (param : option string) : list (Note.t -> bool) :=
  match param with
  | Some raw =>
      if Js.truthy raw && Js.truthy (Js.trim raw) then
        let trimmed := Js.trim raw in
        if String.eqb (Js.toLowerCase trimmed) "unassigned"
        then [fun n => isNull (col n)]
        else [fun n => eq_col (col n) trimmed]
      else []
  | None => []
  end.

Definition ref_bound (param : option string) : list string :=
  match param with
  | Some raw =>
      if Js.truthy raw && Js.truthy (Js.trim raw) then
        if String.eqb (Js.toLowerCase (Js.trim raw)) "unassigned"
        then [] else [Js.trim raw]
      else []
  | None => []
  end.

Definition search_term (rq : NoteListParams) : option string :=
  match note_search rq with
  | Some search =>
      if Js.truthy search && Js.truthy (Js.trim search)
      then Some (contains (Js.trim search)) else None
  | None => None
  end.

Definition conditions (rq : NoteListParams) : list (Note.t -> bool) :=
  (match search_term rq with
   | Some term => [fun n => Store.ilike (Note.content n) term]
   | None => []
   end)
  ++ ref_condition Note.assetId (note_assetId rq)
  ++ ref_condition Note.projectId (note_projectId rq)
  ++ ref_condition Note.caseId (note_caseId rq).

Definition bound_values (rq : NoteListParams) : list string :=
  (match search_term rq with Some term => [term] | None => [] end)
  ++ ref_bound (note_assetId rq) ++ ref_bound (note_projectId rq)
  ++ ref_bound (note_caseId rq).

(** The texts compared with the uuid columns of a note. *)
Definition uuid_values (rq : NoteListParams) : list string :=
  ref_bound (note_assetId rq) ++ ref_bound (note_projectId rq)
  ++ ref_bound (note_caseId rq).

Definition matching (rq : NoteListParams) (d : DB) : list Row :=
  filter (fun r => forallb (fun c => c (fst (fst (fst r)))) (conditions rq))
    (joined d).

(** [Math.max(parseInt(x || d, 10), 1)]; NaN stays NaN. *)
Definition at_least_one (x : option string) (d : string) : option Z :=
  option_map (fun n => Z.max n 1) (Js.parseInt10 (Js.or_default x d)).

Definition GET (rq : NoteListParams) : Handler :=
  try_catch
    (let page := at_least_one (note_page rq) "1" in
     let limit := at_least_one (note_limit rq) "10" in
     let offset := offset_of page limit in
     notesResult <-
       statement (q_ SELECT notes_table (bound_values rq))
         (fun d =>
            Store.comparing (uuid_values rq)
              (option_map (fun rows => (rows, d))
                 (Store.limit_offset limit offset
                    (Store.order_desc
                       (fun r => Note.createdAt (fst (fst (fst r))))
                       (matching rq d))))) ;;
     total <- query (q_ SELECT notes_table (bound_values rq))
                (fun d => Z.of_nat (List.length (matching rq d))) ;;
     ret (respond_page (notes_with_links (map toCamelCaseNote notesResult))
            {| page := page; limit := limit; total := total;
               pages := pages_of total limit |}))
    (fun _ => failure 500 "Failed to fetch notes").

Definition new_row (v : NoteInput.t) (id : string) (now : Date) : Note.t :=
  {| Note.id := id;
     Note.content := NoteInput.content v;
     Note.assetId := flatten (NoteInput.assetId v);
     Note.projectId := flatten (NoteInput.projectId v);
     Note.caseId := flatten (NoteInput.caseId v);
     Note.createdAt := Store.over (NoteInput.createdAt v) now;
     Note.updatedAt := Store.over (NoteInput.updatedAt v) now |}.

Definition refs_of (n : Note.t) : list string :=
  (match Note.assetId n with Some i => [i] | None => [] end)
  ++ (match Note.projectId n with Some i => [i] | None => [] end)
  ++ (match Note.caseId n with Some i => [i] | None => [] end).

(** [db.insert(notes).values(validatedData).returning()]: the store
    fills the key and the two dates. *)
Definition insert (v : NoteInput.t) : M (list Note.t) :=
  id <- match NoteInput.id v with
        | Some i => ret i
        | None => draw_uuid
        end ;;
  now <- new_Date ;;
  statement (q_ INSERT notes_table (id :: refs_of (new_row v id now)))
    (Store.insert_note (new_row v id now)).

Definition POST (body : json) : Handler :=
  try_catch
    (let payload := normalizeBody body in
     env <- ask ;;
     validatedData <- parse (Schema.insertNoteSchema env (JObj payload)) ;;
     inserted <- insert validatedData ;;
     match inserted with
     | [] => throw (Error "no row returned")
     | newNote :: _ =>
         full <- query (q_ SELECT notes_table [Note.id newNote])
                   (fun d => filter
                               (fun r => id_is Note.id (Note.id newNote)
                                           (fst (fst (fst r))))
                               (joined d)) ;;
         match full with
         | [] => throw (Error "Cannot destructure")
         | fullNote :: _ =>
             let '(n, a, p, c) := toCamelCaseNote fullNote in
             ret (respond 201 (note_with_links n a p c)
                    (Some "Note created successfully"))
         end
     end)
    (on_error_fields "Failed to create note").

End NotesRoute.

Module NoteIdRoute.

Definition DELETE (id : string) : Handler :=
  try_catch
    (if negb (uuidRegex_test id)
     then ret (failure 400 "Invalid note ID format")
     else
       deleted <- statement (q_ DELETE notes_table [id])
                    (fun d => Some (Store.delete_notes (id_is Note.id id) d)) ;;
       match deleted with
       | [] => ret (failure 404 "Note not found")
       | _ :: _ =>
           ret (respond 200 no_data (Some "Note deleted successfully"))
       end)
    (fun _ => failure 500 "Failed to delete note").

End NoteIdRoute.

(* ===================================================================== *)
(** ** The operations addressed by identifiers *)
(* ===================================================================== *)

(** The operations whose request carries identifiers in the path, or as the
    [ids] list of a bulk deletion. A body is the body once read as JSON;
    the requests whose body is not JSON are those of [Arriving] below. *)
Inductive Operation :=
| GetAsset (id : string)
| UpdateAsset (id : string) (body : json)
| DeleteAsset (id : string)
| GetProject (id : string)
| UpdateProject (id : string) (body : json)
| DeleteProject (id : string)
| ListAssetProjects (id : string)
| CreateAssetProject (id : string) (body : json)
| GetAssignment (assetId projectId : string)
| Assign (assetId projectId : string)
| Unassign (assetId projectId : string)
| GetCase (id : string)
| UpdateCase (id : string) (body : json)
| DeleteCase (id : string)
| DeleteNote (id : string)
| DeleteAssets (ids : string)
| BulkDeleteAssets (ids : string)
| DeleteProjects (ids : string).

Definition handler (op : Operation) : Handler :=
  match op with
  | GetAsset id => AssetIdRoute.GET id
  | UpdateAsset id body => AssetIdRoute.PUT id body
  | DeleteAsset id => AssetIdRoute.DELETE id
  | GetProject id => ProjectIdRoute.GET id
  | UpdateProject id body => ProjectIdRoute.PUT id body
  | DeleteProject id => ProjectIdRoute.DELETE id
  | ListAssetProjects id => AssetProjectsRoute.GET id
  | CreateAssetProject id body => AssetProjectsRoute.POST id body
  | GetAssignment a p => AssetProjectRoute.GET a p
  | Assign a p => AssetProjectRoute.PUT a p
  | Unassign a p => AssetProjectRoute.DELETE a p
  | GetCase id => CaseIdRoute.GET id
  | UpdateCase id body => CaseIdRoute.PUT id body
  | DeleteCase id => CaseIdRoute.DELETE id
  | DeleteNote id => NoteIdRoute.DELETE id
  | DeleteAssets ids => AssetsRoute.DELETE (Some ids)
  | BulkDeleteAssets ids => AssetsBulkRoute.DELETE (Some ids)
  | DeleteProjects ids => ProjectsRoute.DELETE (Some ids)
  end.

(** The identifiers of a request: those of the path, or the members of a
    non-empty [ids] parameter, split at commas and trimmed. *)
Definition ids_of_param (raw : string) : list string :=
  if Js.truthy raw then map Js.trim (Js.split_comma raw) else [].

Definition identifiers (op : Operation) : list string :=
  match op with
  | GetAsset id | UpdateAsset id _ | DeleteAsset id
  | GetProject id | UpdateProject id _ | DeleteProject id
  | ListAssetProjects id | CreateAssetProject id _
  | GetCase id | UpdateCase id _ | DeleteCase id | DeleteNote id => [id]
  | GetAssignment a p | Assign a p | Unassign a p => [a; p]
  | DeleteAssets ids | BulkDeleteAssets ids | DeleteProjects ids =>
      ids_of_param ids
  end.

Definition malformed (i : string) : bool := negb (uuidRegex_test i).

(* ===================================================================== *)
(** ** The payloads of a note that creation accepts *)
(* ===================================================================== *)

(** What [trim_key] and [sanitize_key] do to the key they treat. *)
Definition trimmed_value (v : option json) : option json :=
  match v with
  | Some (JStr s) => if Js.truthy s then Some (JStr (Js.trim s)) else v
  | _ => v
  end.

Definition sanitized_value (v : option json) : option json :=
  if truthy v then Some (sanitizeNullableId v) else v.

(** [payload] holds the keys of [fields] as [normalizeBody] leaves them. *)
Definition normalized (fields payload : list (string * json)) : Prop :=
  assoc "id" payload = assoc "id" fields
  /\ assoc "content" payload = trimmed_value (assoc "content" fields)
  /\ assoc "assetId" payload = sanitized_value (assoc "assetId" fields)
  /\ assoc "projectId" payload = sanitized_value (assoc "projectId" fields)
  /\ assoc "caseId" payload = sanitized_value (assoc "caseId" fields)
  /\ assoc "createdAt" payload = assoc "createdAt" fields
  /\ assoc "updatedAt" payload = assoc "updatedAt" fields.

(** The content is a string that is not empty once trimmed. *)
Definition content_given (v : option json) : bool :=
  match v with
  | Some (JStr s) => Js.truthy (Js.trim s)
  | _ => false
  end.

(** A reference is acceptable when it is absent, null, a blank string that
    is not empty, or a string that is, trimmed, a well-formed identifier. *)
Definition ref_acceptable (env : Env) (v : option json) : bool :=
  match v with
  | None | Some JNull => true
  | Some (JStr s) =>
      if Js.truthy (Js.trim s) then zod_uuid env (Js.trim s) else Js.truthy s
  | Some _ => false
  end.

(** The identifier a reference designates, if any. *)
Definition ref_value (v : option json) : option string :=
  match v with
  | Some (JStr s) => if Js.truthy (Js.trim s) then Some (Js.trim s) else None
  | _ => None
  end.

(** The payloads that pass: acceptable content and references, and at
    least one reference that designates a row. *)
Definition note_acceptable (env : Env) (fields : list (string * json)) : bool :=
  content_given (assoc "content" fields)
  && ref_acceptable env (assoc "assetId" fields)
  && ref_acceptable env (assoc "projectId" fields)
  && ref_acceptable env (assoc "caseId" fields)
  && (isNotNull (ref_value (assoc "assetId" fields))
      || isNotNull (ref_value (assoc "projectId" fields))
      || isNotNull (ref_value (assoc "caseId" fields))).

(** The note stored for an accepted payload. *)
Definition note_of (fields : list (string * json)) (id : string) (now : Date)
  : Note.t :=
  {| Note.id := id;
     Note.content :=
       match assoc "content" fields with
       | Some (JStr s) => Js.trim s
       | _ => ""
       end;
     Note.assetId := ref_value (assoc "assetId" fields);
     Note.projectId := ref_value (assoc "projectId" fields);
     Note.caseId := ref_value (assoc "caseId" fields);
     Note.createdAt := now;
     Note.updatedAt := now |}.

(* ===================================================================== *)
(** ** Intermediate states of a request *)
(* ===================================================================== *)

(** The store after the first statement of the deletion of an asset: the
    projects of the asset are unlinked, nothing else is touched. *)
Definition unlinked (id : string) (d : DB) : DB :=
  {| assets := assets d;
     projects := Store.update_rows (assigned_to id)
                   (Store.set_project AssetIdRoute.unlink_all) (projects d);
     case_status := case_status d;
     notes := notes d |}.

(** The projects (with their joined assets) a list response carries. *)
Definition listed (r : Response.t) : list (Project.t * option Asset.t) :=
  match Response.data r with
  | projects_with_assets rows => rows
  | _ => []
  end.

(** The assets a list response carries. *)
Definition listed_assets (r : Response.t) : list Asset.t :=
  match Response.data r with
  | assets_with_projects rows => map fst rows
  | _ => []
  end.

(** A stored project that is assigned to [a] and has no assignment date. *)
Definition broken_row (id a : string) (d : DB) (p : Project.t) : Prop :=
  Project.id p = id
  /\ Project.assetId p = Some a
  /\ Project.assignedAt p = None
  /\ assignment_consistent p = false
  /\ In p (projects d).

(** The world after the statements [qs] have been sent and the store has
    become [d]. *)
Definition logged (w : World) (qs : list Query) (d : DB) : World :=
  {| db := d; log := log w ++ qs; ticks := ticks w; draws := draws w |}.

(** A string that does not begin with white space. *)
Definition no_leading_space (t : string) : Prop :=
  match t with
  | EmptyString => True
  | String c _ => Js.is_space c = false
  end.

(* ===================================================================== *)
(** ** A sample platform and sample rows *)
(* ===================================================================== *)

Module Sample.

Definition idA : string := "3f2b8c1e-4a5d-4e6f-8a9b-0c1d2e3f4a5b".
Definition idB : string := "7c9e6679-7425-40de-944b-e07fc1f90ae7".
Definition idP : string := "16fd2706-8baf-433b-82eb-8c7fada847da".
Definition idQ : string := "886313e1-3b8a-5372-9b90-0c9aee199e5d".
Definition idC : string := "6ba7b810-9dad-41d1-80b4-00c04fd430c8".
Definition idN : string := "a8098c1a-f86e-41da-bd1a-00112444be1e".
Definition idNew : string := "f47ac10b-58cc-4372-a567-0e02b2c3d479".

(** No statement fails; the clock advances by one at each reading. *)
Definition env : Env :=
  {| clock := fun n => 1000 + Z.of_nat n;
     faults := fun _ => false;
     gen_random_uuid := fun _ => idNew;
     zod_uuid := uuidRegex_test;
     iso_datetime := fun _ => None;
     Date_parse := fun _ => None;
     default_in_optional := true |}.

(** The same platform, on which the second statement fails. *)
Definition env_second_fails : Env :=
  {| clock := clock env;
     faults := fun k => Nat.eqb k 1;
     gen_random_uuid := gen_random_uuid env;
     zod_uuid := zod_uuid env;
     iso_datetime := iso_datetime env;
     Date_parse := Date_parse env;
     default_in_optional := default_in_optional env |}.

Definition asset (id name : string) (created : Date) : Asset.t :=
  {| Asset.id := id; Asset.name := name; Asset.description := "lot";
     Asset.taxDecNo := "TD-1"; Asset.declaredOwner := "owner";
     Asset.marketValue := "100"; Asset.assessedValue := "80";
     Asset.carStatus := None;
     Asset.location := {| lat := 14 # 1; lng := 121 # 1 |};
     Asset.status := "active"; Asset.address := "address";
     Asset.taxDeclarationNo := "TDN-1"; Asset.tctNo := "TCT-1";
     Asset.areaPerSqM := "120"; Asset.locationOfPropery := "city";
     Asset.barangay := "barangay"; Asset.bidder := "bidder";
     Asset.auctionDate := 10; Asset.dateOfCertificationOfSale := 20;
     Asset.entryNo := "E-1"; Asset.detailsShortUpdateLog := "log";
     Asset.createdAt := created; Asset.updatedAt := created |}.

Definition project (id name : string) (ref : option string)
  (at_ : option Date) (created : Date) : Project.t :=
  {| Project.id := id; Project.name := name;
     Project.description := Some "work"; Project.status := "active";
     Project.assetId := ref; Project.startDate := None;
     Project.endDate := None; Project.assignedAt := at_;
     Project.createdAt := created; Project.updatedAt := created |}.

Definition case_ (id : string) (a p : option string) : CaseStatus.t :=
  {| CaseStatus.id := id; CaseStatus.rtc := "RTC 12";
     CaseStatus.case_no := "CV-001"; CaseStatus.lastUpdatedAt := 30;
     CaseStatus.details := None; CaseStatus.judge := None;
     CaseStatus.assetId := a; CaseStatus.projectId := p |}.

Definition note (id : string) (a p c : option string) : Note.t :=
  {| Note.id := id; Note.content := "remark";
     Note.assetId := a; Note.projectId := p; Note.caseId := c;
     Note.createdAt := 40; Note.updatedAt := 40 |}.

(** Asset A with project P assigned to it, a case and a note on A, and
    an unassigned project Q. *)
Definition store : DB :=
  {| assets := [asset idA "Lot 7" 1];
     projects := [project idP "Survey" (Some idA) (Some 5) 2;
                  project idQ "Fencing" None None 3];
     case_status := [case_ idC (Some idA) (Some idP)];
     notes := [note idN (Some idA) None None] |}.

Definition world (d : DB) : World :=
  {| db := d; log := []; ticks := 0; draws := 0 |}.

(** Asset B carries the identifier of A in its name. *)
Definition store_named : DB :=
  {| assets := [asset idA "Lot 7" 1;
                asset idB ("Annex of " ++ idA) 2];
     projects := [project idP "Survey" (Some idA) (Some 5) 3;
                  project idQ "Fencing" (Some idB) (Some 6) 4];
     case_status := [];
     notes := [] |}.

(** [n] assets with distinct identifiers, the first created last. *)
Fixpoint many_assets (n : nat) : list Asset.t :=
  match n with
  | O => []
  | S k =>
      asset ("00000000-0000-4000-8000-0000000000"
             ++ NilZero.string_of_uint (Nat.to_uint (10 + n)))
        "Lot" (Z.of_nat n)
      :: many_assets k
  end.

Definition store_of_assets (n : nat) : DB :=
  {| assets := many_assets n; projects := []; case_status := [];
     notes := [] |}.

(** A payload that renames a project and says nothing of its asset. *)
Definition rename : list (string * json) := [("name", JStr "Renamed")].

(** The [SET] clause the sample platform validates it to. *)
Definition rename_set : ProjectSet.t :=
  {| ProjectSet.name := Some "Renamed"; ProjectSet.description := None;
     ProjectSet.status := Some "planning"; ProjectSet.assetId := None;
     ProjectSet.startDate := None; ProjectSet.endDate := None;
     ProjectSet.assignedAt := None; ProjectSet.updatedAt := None |}.

(** Note payloads: linked to asset A; linked to A with a malformed
    project reference; linked to nothing. *)
Definition note_on_asset : list (string * json) :=
  [("content", JStr " first visit "); ("assetId", JStr idA)].

Definition note_with_bad_project : list (string * json) :=
  [("content", JStr "hello"); ("assetId", JStr idA);
   ("projectId", JStr "not-a-uuid")].

Definition note_unlinked : list (string * json) :=
  [("content", JStr "hello"); ("assetId", JNull); ("projectId", JNull);
   ("caseId", JNull)].

(** An asset payload whose latitude is 90.0001. *)
Definition too_far_north : list (string * json) :=
  [("name", JStr "Lot 7");
   ("location", JObj [("lat", JNum (900001 # 10000)); ("lng", JNum (0 # 1))])].

Definition no_params : ListParams :=
  {| status_param := None; search_param := None; assetId_param := None;
     page_param := None; limit_param := None |}.

Definition by_asset (v : string) : ListParams :=
  {| status_param := None; search_param := None; assetId_param := Some v;
     page_param := None; limit_param := None |}.

Definition paged (page limit : string) : ListParams :=
  {| status_param := None; search_param := None; assetId_param := None;
     page_param := Some page; limit_param := Some limit |}.

End Sample.

(** No statement of the request fails in the store. *)
Definition no_faults (env : Env) : Prop := forall k, faults env k = false.

(** The issues of a validation that lie at the [location] of an asset. *)
Definition at_location (i : Issue) : bool :=
  match path i with
  | k :: _ => String.eqb k "location"
  | [] => false
  end.

(* ===================================================================== *)
(** * Further definitions *)
(* ===================================================================== *)

Unset Implicit Arguments.

(* ===================================================================== *)
(** ** PUT /api/assets/bulk: assigning projects in bulk *)
(* ===================================================================== *)

(** The answer of a handler whose data are of type [D]. *)
Record Answer (D : Type) := {
  answer_status : Z;
  answer_error : option string;
  answer_details : Details;
  answer_data : option D;
  answer_message : option string
}.
Arguments Build_Answer {D}.
Arguments answer_status {D}.
Arguments answer_error {D}.
Arguments answer_details {D}.
Arguments answer_data {D}.
Arguments answer_message {D}.

Module AssetsBulkAssign.

(** A validated [{ projectId, assetId }]. *)
Record Assignment := { projectId : string; assetId : option string }.

(** [z.object({ projectId: z.string().uuid(..),
                assetId: z.string().uuid(..).nullable() })] *)
Definition assignmentSchema (env : Env) (assignment : json)
  : Res Assignment :=
  match assignment with
  | JObj _ =>
      Valid Build_Assignment
      <*> z_string_format ["projectId"] (zod_uuid env) "Invalid project ID"
            (prop "projectId" assignment)
      <*> nullable
            (z_string_format ["assetId"] (zod_uuid env) "Invalid asset ID")
            (prop "assetId" assignment)
  | _ => Schema.not_an_object
  end.

(** [assignments.map(assignment => assignmentSchema.parse(assignment))] *)
Fixpoint parse_each (env : Env) (assignments : list json)
  : M (list Assignment) :=
  match assignments with
  | [] => ret []
  | assignment :: rest =>
      v <- parse (assignmentSchema env assignment) ;;
      vs <- parse_each env rest ;;
      ret (v :: vs)
  end.

(** The part of a callback before its [await]: the [SET] clause is built,
    with its clock readings. *)
Definition before_assign (a : Assignment) : M (string * ProjectSet.t) :=
  assignedAt <- (if col_truthy (assetId a)
                 then (now <- new_Date ;; ret (Some now))
                 else ret None) ;;
  updatedAt <- new_Date ;;
  ret (projectId a,
       Store.set_assignment (assetId a) assignedAt (Some updatedAt)).

(** The statement of a callback; [updatedProject] is [undefined] when no
    row has the key. *)
Definition after_assign (c : string * ProjectSet.t)
  : M (option Project.t) :=
  updated <- statement
               (q_ UPDATE projects_table
                  (match ProjectSet.assetId (snd c) with
                   | Some (Some assetId) => [assetId; fst c]
                   | _ => [fst c]
                   end))
               (Store.update_projects (id_is Project.id (fst c)) (snd c)) ;;
  ret (hd_error updated).

Definition refusal (st : Z) (err : string) (det : Details)
  : Answer (list (option Project.t)) :=
  {| answer_status := st; answer_error := Some err; answer_details := det;
     answer_data := None; answer_message := None |}.

Definition PUT (body : json)
  : Env -> World -> Answer (list (option Project.t)) * World :=
  try_catch
    (match body with
     | JNull => throw (Error "Cannot destructure")
     | _ =>
         match prop "assignments" body with
         | Some (JArr assignments) =>
             env <- ask ;;
             validatedAssignments <- parse_each env assignments ;;
             results <- Promise_all before_assign after_assign
                          validatedAssignments ;;
             ret {| answer_status := 200; answer_error := None;
                    answer_details := no_details;
                    answer_data := Some results;
                    answer_message :=
                      Some (count_message (List.length results)
                              " project assignments updated successfully") |}
         | _ => ret (refusal 400 "Expected an array of assignment objects"
                       no_details)
         end
     end)
    (fun e =>
       match e with
       | ZodError errs =>
           refusal 400 "Validation failed"
             (detail_lines (map issue_line errs))
       | Error _ =>
           refusal 500 "Failed to update project assignments" no_details
       end).

End AssetsBulkAssign.

(** From [d] to [d'], every project row is either a row of [d] or a row
    with an assignment date exactly when it has an asset. *)
Definition rule_kept (d d' : DB) : Prop :=
  forall p, In p (projects d') ->
            In p (projects d) \/ assignment_consistent p = true.

Definition keeps {A} (env : Env) (m : M A) : Prop :=
  forall w, rule_kept (db w) (db (snd (m env w))).

(** The store after the assets of [ids] have been deleted in bulk. *)
Definition assets_deleted (ids : list string) (d : DB) : DB :=
  snd (Store.delete_assets (fun a => existsb (String.eqb (Asset.id a)) ids)
         {| assets := assets d;
            projects := Store.update_rows
                          (fun p => any_of ids (Project.assetId p))
                          (Store.set_project AssetIdRoute.unlink_all)
                          (projects d);
            case_status := case_status d;
            notes := notes d |}).

(** Every character of [s] satisfies [f]. *)
Fixpoint all_chars (f : ascii -> bool) (s : string) : bool :=
  match s with
  | EmptyString => true
  | String c s' => f c && all_chars f s'
  end.

Definition hex_or_dash (c : ascii) : bool :=
  Js.is_hex c || Ascii.eqb c "-".

(** From [w] to [w'] the store is unchanged and only [SELECT] statements
    have been sent. *)
Definition selects_only (w w' : World) : Prop :=
  db w' = db w
  /\ exists qs, log w' = (log w ++ qs)%list
                /\ Forall (fun q => verb q = SELECT) qs.

Definition read_only {A} (m : M A) : Prop :=
  forall env w, selects_only w (snd (m env w)).

(** The computation [m] leaves the store as it is, and a value it returns
    satisfies [P]. *)
Definition quiet {A} (env : Env) (P : A -> Prop) (m : M A) : Prop :=
  forall w,
    db (snd (m env w)) = db w
    /\ forall a, fst (m env w) = inr a -> P a.

(** A computation that sends no statement. *)
Definition silent {A} (env : Env) (m : M A) : Prop :=
  forall w, db (snd (m env w)) = db w.

(** A validated assignment refers to an asset by an identifier of the
    validation library, or to none. *)
Definition wellformed_assignment (env : Env)
  (a : AssetsBulkAssign.Assignment) : Prop :=
  forall s, AssetsBulkAssign.assetId a = Some s -> zod_uuid env s = true.

(* ===================================================================== *)
(** ** /api/cases: the list of cases *)
(* ===================================================================== *)

Record CaseListParams := {
  case_search : option string;
  case_assetId : option string;
  case_projectId : option string;
  case_page : option string;
  case_limit : option string
}.

Module CasesRoute.

(** The condition pushed for a reference parameter: ["unassigned"] for
    the cases without the reference, ["assigned"] for those with one,
    another value for an equal one. *)
Definition ref_condition (col : CaseStatus.t -> option string)
  (param : option string) : list (CaseStatus.t -> bool) :=
  match param with
  | Some raw =>
      if Js.truthy raw && Js.truthy (Js.trim raw) then
        let trimmed := Js.toLowerCase (Js.trim raw) in
        if String.eqb trimmed "unassigned" then [fun c => isNull (col c)]
        else if String.eqb trimmed "assigned"
        then [fun c => isNotNull (col c)]
        else [fun c => eq_col (col c) (Js.trim raw)]
      else []
  | None => []
  end.

Definition ref_bound (param : option string) : list string :=
  match param with
  | Some raw =>
      if Js.truthy raw && Js.truthy (Js.trim raw) then
        let trimmed := Js.toLowerCase (Js.trim raw) in
        if String.eqb trimmed "unassigned" || String.eqb trimmed "assigned"
        then [] else [Js.trim raw]
      else []
  | None => []
  end.

Definition search_term (rq : CaseListParams) : option string :=
  match case_search rq with
  | Some search =>
      if Js.truthy search && Js.truthy (Js.trim search)
      then Some (contains (Js.trim search)) else None
  | None => None
  end.

Definition conditions (rq : CaseListParams) : list (CaseStatus.t -> bool) :=
  (match search_term rq with
   | Some term =>
       [fun c => Store.ilike (CaseStatus.case_no c) term
                 || Store.ilike (CaseStatus.rtc c) term
                 || Store.ilike_null (CaseStatus.judge c) term
                 || Store.ilike_null (CaseStatus.details c) term]
   | None => []
   end)
  ++ ref_condition CaseStatus.assetId (case_assetId rq)
  ++ ref_condition CaseStatus.projectId (case_projectId rq).

Definition bound_values (rq : CaseListParams) : list string :=
  (match search_term rq with
   | Some term => [term; term; term; term]
   | None => []
   end)
  ++ ref_bound (case_assetId rq) ++ ref_bound (case_projectId rq).

(** The texts compared with the uuid columns of a case. *)
Definition uuid_values (rq : CaseListParams) : list string :=
  ref_bound (case_assetId rq) ++ ref_bound (case_projectId rq).

Definition matching (rq : CaseListParams) (d : DB) : list CaseIdRoute.Row :=
  filter (fun r => forallb (fun c => c (fst (fst r))) (conditions rq))
    (CaseIdRoute.joined d).

Definition GET (rq : CaseListParams) : Handler :=
  try_catch
    (let page := NotesRoute.at_least_one (case_page rq) "1" in
     let limit := NotesRoute.at_least_one (case_limit rq) "10" in
     let offset := offset_of page limit in
     casesResult <-
       statement (q_ SELECT cases_table (bound_values rq))
         (fun d =>
            Store.comparing (uuid_values rq)
              (option_map (fun rows => (rows, d))
                 (Store.limit_offset limit offset
                    (Store.order_desc
                       (fun r => CaseStatus.lastUpdatedAt (fst (fst r)))
                       (matching rq d))))) ;;
     total <- query (q_ SELECT cases_table (bound_values rq))
                (fun d => Z.of_nat (List.length (matching rq d))) ;;
     ret (respond_page (cases_with_links casesResult)
            {| page := page; limit := limit; total := total;
               pages := pages_of total limit |}))
    (fun _ => failure 500 "Failed to fetch cases").

End CasesRoute.

(** The notes and the cases a list response carries. *)
Definition listed_notes (r : Response.t)
  : list (Note.t * option Summary * option Summary * option Summary) :=
  match Response.data r with
  | notes_with_links rows => rows
  | _ => []
  end.

Definition listed_cases (r : Response.t) : list CaseIdRoute.Row :=
  match Response.data r with
  | cases_with_links rows => rows
  | _ => []
  end.

(** A reference filter for which the comparison of texts is the
    comparison of the store: none, a blank one, one of the keywords of
    the list, or an identifier in the spelling of the store. *)
Definition plain_filter (keywords : list string) (param : option string)
  : bool :=
  match param with
  | Some raw =>
      let f := Js.trim raw in
      negb (Js.truthy f)
      || existsb (String.eqb (Js.toLowerCase f)) keywords
      || (uuidRegex_test f && canonical f)
  | None => true
  end.

(** The response [r], which carries the rows [shown], is page [p] of the
    list [sorted] at [l] rows per page: the rows from offset
    [(p - 1) * l] on, at most [l] of them, with the total number of rows
    and the number [k] of pages, [(k - 1) * l < n <= k * l]. *)
Definition is_page {R} (r : Response.t) (shown sorted : list R) (p l : Z)
  : Prop :=
  let n := Z.of_nat (List.length sorted) in
  let offset := (p - 1) * l in
  Response.status r = 200
  /\ shown = firstn (Z.to_nat l) (skipn (Z.to_nat offset) sorted)
  /\ Z.of_nat (List.length shown) = Z.min l (Z.max 0 (n - offset))
  /\ exists k,
       Response.pagination r
       = Some {| page := Some p; limit := Some l; total := n;
                 pages := Some k |}
       /\ (k - 1) * l < n <= k * l.

(** A page and a limit whose offset [(page - 1) * limit] JavaScript
    computes exactly. *)
Definition exact_paging (p l : Z) : Prop :=
  p <= MAX_SAFE_INTEGER /\ l <= MAX_SAFE_INTEGER
  /\ (p - 1) * l <= MAX_SAFE_INTEGER.

(* ===================================================================== *)
(** ** Requests whose body is not JSON *)
(* ===================================================================== *)

(** [await request.json()] rejects when the body of the request is not
    JSON, and the rejection is caught by the [catch] of the handler;
    [None] is such a body. *)
Definition not_json : Exn := Error "Unexpected token in JSON".

(** The handlers that read a body, on a request as it arrives. The update
    of an asset, the update of a project and the creation of a project
    under an asset await the body before they check the identifier of the
    path; the update of a case checks the identifier first. *)
Module Arriving.

Definition update_asset (id : string) (body : option json) : Handler :=
  match body with
  | Some parsed => AssetIdRoute.PUT id parsed
  | None => try_catch (throw not_json)
              (on_error_lines "Failed to update asset")
  end.

Definition update_project (id : string) (body : option json) : Handler :=
  match body with
  | Some parsed => ProjectIdRoute.PUT id parsed
  | None => try_catch (throw not_json)
              (on_error_lines "Failed to update project")
  end.

Definition create_project (id : string) (body : option json) : Handler :=
  match body with
  | Some parsed => AssetProjectsRoute.POST id parsed
  | None => try_catch (throw not_json)
              (on_error_lines "Failed to create project for asset")
  end.

Definition update_case (id : string) (body : option json) : Handler :=
  match body with
  | Some parsed => CaseIdRoute.PUT id parsed
  | None =>
      try_catch
        (if negb (uuidRegex_test id)
         then ret (failure 400 "Invalid case ID format")
         else throw not_json)
        (on_error_fields "Failed to update case")
  end.

End Arriving.

(* ===================================================================== *)
(** ** Further sample rows and requests *)
(* ===================================================================== *)

Module Scenario.

Import Sample.

(** The platform on which every statement fails. *)
Definition env_down : Env :=
  {| clock := clock env;
     faults := fun _ => true;
     gen_random_uuid := gen_random_uuid env;
     zod_uuid := zod_uuid env;
     iso_datetime := iso_datetime env;
     Date_parse := Date_parse env;
     default_in_optional := default_in_optional env |}.

(** Asset A with project P assigned to it, an unassigned project Q, a
    case on A and P, and a note on A, P and that case. *)
Definition store_linked : DB :=
  {| assets := [asset idA "Lot 7" 1];
     projects := [project idP "Survey" (Some idA) (Some 5) 2;
                  project idQ "Fencing" None None 3];
     case_status := [case_ idC (Some idA) (Some idP)];
     notes := [note idN (Some idA) (Some idP) (Some idC)] |}.

(** A project payload that refers to asset A and brings no date. *)
Definition drainage : list (string * json) :=
  [("name", JStr "Drainage"); ("assetId", JStr idA)].

(** A payload that moves a project to asset A. *)
Definition move_to_A : list (string * json) := [("assetId", JStr idA)].

(** A case payload that names the case number [caseNo] and links the
    case to project Q only. *)
Definition case_on_Q : list (string * json) :=
  [("rtc", JStr " RTC 14 "); ("caseNo", JStr "CV-002");
   ("projectId", JStr (" " ++ idQ ++ " "))].

(** An asset payload that brings an identifier and a creation date. *)
Definition renamed_lot : list (string * json) :=
  [("id", JStr idB); ("name", JStr "Lot 8"); ("createdAt", JNum (99 # 1))].

(** The notes of asset A, of the unassigned, by page and limit. *)
Definition notes_params (assetId page limit : option string) : NoteListParams :=
  {| note_search := None; note_assetId := assetId;
     note_projectId := None; note_caseId := None;
     note_page := page; note_limit := limit |}.

(** One assignment, of project Q to asset A; and one that is malformed. *)
Definition assign_Q_to_A : json :=
  JObj [("projectId", JStr idQ); ("assetId", JStr idA)].

Definition assign_malformed : json :=
  JObj [("projectId", JStr "42"); ("assetId", JStr idA)].

End Scenario.

Set Implicit Arguments.


(* ===================================================================== *)
(** * Properties *)
(* ===================================================================== *)

(** ** Running the statements of a handler *)

Lemma statement_run {A} (q : Query) (run : DB -> option (A * DB)) env w a d :
  faults env (List.length (log w)) = false ->
  run (db w) = Some (a, d) ->
  statement q run env w
  = (inr a, {| db := d; log := log w ++ [q];
               ticks := ticks w; draws := draws w |}).
Proof.
  intros Hf Hr. unfold statement. rewrite Hf, Hr. reflexivity.
Qed.

Lemma statement_fault {A} (q : Query) (run : DB -> option (A * DB)) env w :
  faults env (List.length (log w)) = true ->
  statement q run env w
  = (inl (Error "storage failure"),
     {| db := db w; log := log w ++ [q];
        ticks := ticks w; draws := draws w |}).
Proof.
  intros Hf. unfold statement. rewrite Hf. reflexivity.
Qed.

Lemma query_run {A} (q : Query) (rows : DB -> A) env w :
  faults env (List.length (log w)) = false ->
  query q rows env w
  = (inr (rows (db w)), {| db := db w; log := log w ++ [q];
                           ticks := ticks w; draws := draws w |}).
Proof.
  intros Hf. unfold query. now rewrite (statement_run _ _ _ _ Hf eq_refl).
Qed.

Unset Implicit Arguments.

(** ** What the store takes: numbers and identifiers *)

Lemma limit_offset_run {R} (l o : Z) (rows : list R) :
  0 <= l <= Store.bigint_max -> 0 <= o <= Store.bigint_max ->
  Store.limit_offset (Some l) (Some o) rows
  = Some (firstn (Z.to_nat l) (skipn (Z.to_nat o) rows)).
Proof.
  intros [Hl Hl'] [Ho Ho']. unfold Store.limit_offset.
  replace (o <? 0) with false by (symmetry; apply Z.ltb_ge; exact Ho).
  replace (Store.bigint_max <? o) with false
    by (symmetry; apply Z.ltb_ge; exact Ho').
  replace (Store.bigint_max <? l) with false
    by (symmetry; apply Z.ltb_ge; exact Hl').
  replace (l <? 0) with false by (symmetry; apply Z.ltb_ge; exact Hl).
  reflexivity.
Qed.

Lemma limit_offset_negative {R} (l : option Z) (o : Z) (rows : list R) :
  o < 0 -> Store.limit_offset l (Some o) rows = None.
Proof.
  intros Ho. unfold Store.limit_offset.
  replace (o <? 0) with true by (symmetry; apply Z.ltb_lt; exact Ho).
  reflexivity.
Qed.

Lemma limit_offset_beyond {R} (l : option Z) (o : Z) (rows : list R) :
  Store.bigint_max < o -> Store.limit_offset l (Some o) rows = None.
Proof.
  intros Ho. unfold Store.limit_offset.
  replace (Store.bigint_max <? o) with true
    by (symmetry; apply Z.ltb_lt; exact Ho).
  now rewrite orb_true_r.
Qed.

Lemma safe_is_bigint : MAX_SAFE_INTEGER <= Store.bigint_max.
Proof. unfold MAX_SAFE_INTEGER, Store.bigint_max. simpl. lia. Qed.

Lemma exact_paging_taken (p l : Z) :
  1 <= p -> 1 <= l -> exact_paging p l ->
  0 <= l <= Store.bigint_max /\ 0 <= (p - 1) * l <= Store.bigint_max.
Proof.
  intros Hp Hl [_ [Hl' Ho]]. pose proof safe_is_bigint. split; [lia|nia].
Qed.

Lemma hex_not_dash (c : ascii) :
  Js.is_hex c = true -> Ascii.eqb c "-" = false.
Proof.
  destruct c as [[] [] [] [] [] [] [] []]; try reflexivity; discriminate.
Qed.

Lemma hex_not_brace (c : ascii) :
  Js.is_hex c = true -> Ascii.eqb c "{" = false.
Proof.
  destruct c as [[] [] [] [] [] [] [] []]; try reflexivity; discriminate.
Qed.

Ltac take_hex H s :=
  let c := fresh "c" in
  let Hc := fresh "Hc" in
  destruct s as [|c s]; [discriminate H|];
  cbn [hex_run and_then] in H;
  destruct (Js.is_hex c) eqn:Hc; [|discriminate H].

Ltac take_dash H s :=
  let c := fresh "d" in
  let Hc := fresh "Hd" in
  destruct s as [|c s]; [discriminate H|];
  cbn [hex_run and_then dash] in H;
  destruct (Ascii.eqb c "-") eqn:Hc; [|discriminate H];
  apply Ascii.eqb_eq in Hc; subst c.

(** An identifier of the format of the routes is a text the store reads
    as a uuid. *)
Lemma uuidRegex_uuid_text (s : string) :
  uuidRegex_test s = true -> Store.uuid_text s = true.
Proof.
  unfold uuidRegex_test. intros H.
  do 8 take_hex H s. cbn [hex_run and_then] in H. take_dash H s.
  do 4 take_hex H s. cbn [hex_run and_then] in H. take_dash H s.
  do 4 take_hex H s. cbn [hex_run and_then] in H. take_dash H s.
  do 4 take_hex H s. cbn [hex_run and_then] in H. take_dash H s.
  do 12 take_hex H s. cbn [hex_run and_then] in H.
  destruct s; [|discriminate H]. clear H.
  unfold Store.uuid_text. rewrite (hex_not_brace _ Hc).
  repeat (cbn;
          match goal with
          | Hh : Js.is_hex ?c = true |- context [Js.is_hex ?c] =>
              rewrite Hh
          | Hh : Js.is_hex ?c = true |- context [Ascii.eqb ?c "-"] =>
              rewrite (hex_not_dash c Hh)
          end).
  reflexivity.
Qed.

Lemma comparing_taken {A} (vals : list string) (result : option A) :
  forallb Store.uuid_text vals = true -> Store.comparing vals result = result.
Proof. intros H. unfold Store.comparing. now rewrite H. Qed.

Lemma forallb_refused (v : string) (vals : list string) :
  In v vals -> Store.uuid_text v = false ->
  forallb Store.uuid_text vals = false.
Proof.
  intros Hin Hno. induction vals as [|x vals IH]; [destruct Hin|].
  cbn [forallb]. destruct Hin as [->|Hin].
  - now rewrite Hno.
  - rewrite (IH Hin). apply andb_false_r.
Qed.

Lemma comparing_refused {A} (vals : list string) (result : option A) :
  forallb Store.uuid_text vals = false -> Store.comparing vals result = None.
Proof. intros H. unfold Store.comparing. now rewrite H. Qed.

(** The reference filters of the lists that the store takes. *)
Lemma projects_filter_taken (rq : ListParams) :
  plain_filter ["unassigned"; "assigned"] (assetId_param rq) = true ->
  forallb Store.uuid_text (ProjectsRoute.uuid_values rq) = true.
Proof.
  unfold plain_filter, ProjectsRoute.uuid_values,
    ProjectsRoute.asset_condition.
  destruct (assetId_param rq) as [raw|]; [|reflexivity].
  destruct (Js.truthy raw); [|reflexivity].
  destruct (Js.truthy (Js.trim raw)); [|reflexivity].
  cbn [negb orb existsb].
  destruct (String.eqb (Js.toLowerCase (Js.trim raw)) "unassigned");
    [reflexivity|].
  destruct (String.eqb (Js.toLowerCase (Js.trim raw)) "assigned");
    [reflexivity|].
  cbn [orb]. intros H. apply andb_true_iff in H. destruct H as [H _].
  cbn [forallb]. now rewrite (uuidRegex_uuid_text _ H).
Qed.

Lemma notes_ref_taken (param : option string) :
  plain_filter ["unassigned"] param = true ->
  forallb Store.uuid_text (NotesRoute.ref_bound param) = true.
Proof.
  unfold plain_filter, NotesRoute.ref_bound.
  destruct param as [raw|]; [|reflexivity].
  destruct (Js.truthy raw); [|reflexivity].
  destruct (Js.truthy (Js.trim raw)); [|reflexivity].
  cbn [negb orb existsb andb].
  destruct (String.eqb (Js.toLowerCase (Js.trim raw)) "unassigned");
    [reflexivity|].
  cbn [orb]. intros H. apply andb_true_iff in H. destruct H as [H _].
  cbn [forallb]. now rewrite (uuidRegex_uuid_text _ H).
Qed.

Lemma notes_filter_taken (rq : NoteListParams) :
  plain_filter ["unassigned"] (note_assetId rq) = true ->
  plain_filter ["unassigned"] (note_projectId rq) = true ->
  plain_filter ["unassigned"] (note_caseId rq) = true ->
  forallb Store.uuid_text (NotesRoute.uuid_values rq) = true.
Proof.
  intros Ha Hp Hc. unfold NotesRoute.uuid_values.
  rewrite !forallb_app, (notes_ref_taken _ Ha), (notes_ref_taken _ Hp),
    (notes_ref_taken _ Hc). reflexivity.
Qed.

Lemma cases_ref_taken (param : option string) :
  plain_filter ["unassigned"; "assigned"] param = true ->
  forallb Store.uuid_text (CasesRoute.ref_bound param) = true.
Proof.
  unfold plain_filter, CasesRoute.ref_bound.
  destruct param as [raw|]; [|reflexivity].
  destruct (Js.truthy raw); [|reflexivity].
  destruct (Js.truthy (Js.trim raw)); [|reflexivity].
  cbn [negb orb existsb andb].
  destruct (String.eqb (Js.toLowerCase (Js.trim raw)) "unassigned");
    [reflexivity|].
  destruct (String.eqb (Js.toLowerCase (Js.trim raw)) "assigned");
    [reflexivity|].
  cbn [orb]. intros H. apply andb_true_iff in H. destruct H as [H _].
  cbn [forallb]. now rewrite (uuidRegex_uuid_text _ H).
Qed.

Lemma cases_filter_taken (rq : CaseListParams) :
  plain_filter ["unassigned"; "assigned"] (case_assetId rq) = true ->
  plain_filter ["unassigned"; "assigned"] (case_projectId rq) = true ->
  forallb Store.uuid_text (CasesRoute.uuid_values rq) = true.
Proof.
  intros Ha Hp. unfold CasesRoute.uuid_values.
  rewrite !forallb_app, (cases_ref_taken _ Ha), (cases_ref_taken _ Hp).
  reflexivity.
Qed.

Set Implicit Arguments.

(** Clearing a reference never violates a foreign key. *)
Lemma fk_changed_none has old : Store.fk_changed has old None = true.
Proof. destruct old; reflexivity. Qed.

Lemma update_projects_unassign where_ at_ upd d :
  Store.update_projects where_ (Store.set_assignment None at_ upd) d
  = Some (Store.returning where_
            (Store.set_project (Store.set_assignment None at_ upd)) (projects d),
          {| assets := assets d;
             projects := Store.update_rows where_
                           (Store.set_project (Store.set_assignment None at_ upd))
                           (projects d);
             case_status := case_status d;
             notes := notes d |}).
Proof.
  unfold Store.update_projects.
  replace (forallb _ _) with true; [reflexivity|].
  symmetry. apply forallb_forall. intros p _. apply fk_changed_none.
Qed.

Lemma filter_nil_weaken {A} (f g : A -> bool) (l : list A) :
  (forall x, f x = true -> g x = true) ->
  filter g l = [] -> filter f l = [].
Proof.
  intros Hfg. induction l as [|x l IH]; simpl; [reflexivity|].
  destruct (g x) eqn:Hg; [discriminate|].
  destruct (f x) eqn:Hf.
  - apply Hfg in Hf. congruence.
  - exact IH.
Qed.


Lemma existsb_filter {A} (f : A -> bool) (l : list A) :
  existsb f l = true -> exists x rest, filter f l = x :: rest /\ f x = true.
Proof.
  induction l as [|y l IH]; simpl; [discriminate|].
  destruct (f y) eqn:Hy.
  - intros _. now exists y, (filter f l).
  - simpl. exact IH.
Qed.

Lemma update_projects_assign where_ i at_ upd d :
  Store.has_asset d i = true ->
  Store.update_projects where_ (Store.set_assignment (Some i) at_ upd) d
  = Some (Store.returning where_
            (Store.set_project (Store.set_assignment (Some i) at_ upd))
            (projects d),
          {| assets := assets d;
             projects := Store.update_rows where_
                           (Store.set_project
                              (Store.set_assignment (Some i) at_ upd))
                           (projects d);
             case_status := case_status d;
             notes := notes d |}).
Proof.
  intros Hhas. unfold Store.update_projects.
  replace (forallb _ _) with true; [reflexivity|].
  symmetry. apply forallb_forall. intros p _. simpl.
  unfold Store.fk_changed, Store.fk.
  destruct (Project.assetId p) as [j|]; [|exact Hhas].
  destruct (String.eqb j i); [reflexivity|exact Hhas].
Qed.

(** C10: assigning an existing project to an existing asset always
    succeeds and overwrites the assignment: whatever assetId and assignedAt
    the project had (none, this asset, another asset), the project comes
    back with assetId the asset's and assignedAt the clock reading of the
    call, and that is what the store holds afterwards; nothing of the prior
    assignment is kept and no other project is touched. *)
Theorem C10_assign_overwrites :
  forall env w assetId projectId,
    uuidRegex_test assetId = true ->
    uuidRegex_test projectId = true ->
    no_faults env ->
    Store.has_asset (db w) assetId = true ->
    Store.has_project (db w) projectId = true ->
    let r := AssetProjectRoute.PUT assetId projectId env w in
    let now := clock env (ticks w) in
    let assigned (q : Project.t) : Project.t :=
      {| Project.id := Project.id q;
         Project.name := Project.name q;
         Project.description := Project.description q;
         Project.status := Project.status q;
         Project.assetId := Some assetId;
         Project.startDate := Project.startDate q;
         Project.endDate := Project.endDate q;
         Project.assignedAt := Some now;
         Project.createdAt := Project.createdAt q;
         Project.updatedAt := clock env (S (ticks w)) |} in
    (exists asset p,
        fst r = respond 200 (project_with_asset p (Some asset))
                  (Some "Project assigned to asset successfully")
        /\ Asset.id asset = assetId
        /\ Project.id p = projectId
        /\ Project.assetId p = Some (Asset.id asset)
        /\ Project.assignedAt p = Some now)
    /\ projects (db (snd r))
       = map (fun q => if String.eqb (Project.id q) projectId
                       then assigned q else q)
           (projects (db w)).
Proof.
  intros env w assetId projectId Ha Hp Hnf HasA HasP r now assigned.
  destruct (existsb_filter _ _ HasA) as [asset [arest [HfA HidA]]].
  destruct (existsb_filter _ _ HasP) as [proj [prest [HfP HidP]]].
  apply String.eqb_eq in HidA. apply String.eqb_eq in HidP.
  set (set_ := Store.set_assignment (Some assetId) (Some now)
                 (Some (clock env (S (ticks w))))).
  assert (Hrun : r =
    (respond 200
       (project_with_asset (Store.set_project set_ proj) (Some asset))
       (Some "Project assigned to asset successfully"),
     {| db := {| assets := assets (db w);
                 projects := Store.update_rows (id_is Project.id projectId)
                               (Store.set_project set_) (projects (db w));
                 case_status := case_status (db w);
                 notes := notes (db w) |};
        log := ((log w ++ [q_ SELECT assets_table [assetId]])
                ++ [q_ SELECT projects_table [projectId]])
               ++ [q_ UPDATE projects_table [assetId; projectId]];
        ticks := S (S (ticks w)); draws := draws w |})).
  { subst r. unfold AssetProjectRoute.PUT, try_catch,
      AssetProjectRoute.bad_ids, select_asset, select_project.
    rewrite Ha, Hp. cbn [negb orb]. unfold bind at 1.
    rewrite query_run by apply Hnf. unfold id_is at 1. rewrite HfA.
    unfold bind at 1. rewrite query_run by apply Hnf.
    cbn [db]. unfold id_is at 1. rewrite HfP.
    unfold bind, new_Date. cbn [db log ticks draws].
    erewrite statement_run;
      [| apply Hnf | apply update_projects_assign; exact HasA].
    cbn [db]. unfold Store.returning, id_is at 1. rewrite HfP.
    reflexivity. }
  rewrite Hrun. cbn [fst snd db projects]. split.
  - exists asset, (Store.set_project set_ proj).
    repeat split; simpl; congruence.
  - unfold Store.update_rows. apply map_ext. intros q. unfold id_is.
    reflexivity.
Qed.

(** ** Deleting an asset *)

(** The three ways the deletion can go, by the statement that fails. *)
Lemma asset_DELETE_run env w id :
  uuidRegex_test id = true ->
  let k := List.length (log w) in
  let q1 := q_ UPDATE projects_table [id] in
  let q2 := q_ DELETE assets_table [id] in
  AssetIdRoute.DELETE id env w =
    if faults env k then
      (failure 500 "Failed to delete asset", logged w [q1] (db w))
    else if faults env (S k) then
      (failure 500 "Failed to delete asset", logged w [q1; q2] (unlinked id (db w)))
    else
      (match fst (Store.delete_assets (id_is Asset.id id) (unlinked id (db w))) with
       | [] => failure 404 "Asset not found"
       | deletedAsset :: _ =>
           respond 200 (asset_row deletedAsset) (Some "Asset deleted successfully")
       end,
       logged w [q1; q2]
         (snd (Store.delete_assets (id_is Asset.id id) (unlinked id (db w))))).
Proof.
  intros Hid k q1 q2.
  unfold AssetIdRoute.DELETE, try_catch. rewrite Hid. cbn [negb].
  unfold bind at 1. fold q1 q2. subst k.
  destruct (faults env (List.length (log w))) eqn:F1.
  - rewrite statement_fault by exact F1. reflexivity.
  - erewrite statement_run;
      [| exact F1 | apply update_projects_unassign].
    unfold bind at 1.
    match goal with
    | |- context [statement q2 ?run env ?w1] =>
        assert (Hlen : List.length (log w1) = S (List.length (log w)))
          by (cbn [log]; rewrite length_app; simpl; lia)
    end.
    destruct (faults env (S (List.length (log w)))) eqn:F2.
    + rewrite statement_fault by (rewrite Hlen; exact F2).
      unfold logged. cbn [db log ticks draws]. rewrite <- app_assoc.
      reflexivity.
    + erewrite statement_run; [| rewrite Hlen; exact F2 | reflexivity].
      unfold logged, unlinked, Store.delete_assets.
      cbn [db log ticks draws fst snd assets].
      rewrite <- app_assoc. simpl app.
      destruct (filter (id_is Asset.id id) (assets (db w))); reflexivity.
Qed.




(** C3 (as amended): the deletion of an asset, requested by its
    identifier in the spelling of the store, is two statements sent in
    turn, outside any transaction. If the first statement fails, nothing is
    applied; if the second fails, the projects of the asset stay unlinked
    while the asset row, and every case and note, are as before (answer
    500); if neither fails, the unlinking, the deletion of the row and the
    nulling of the case and note references are all applied. *)
Theorem C3_delete_is_two_statements :
  forall env w id,
    uuidRegex_test id = true ->
    canonical id = true ->
    let k := List.length (log w) in
    let r := AssetIdRoute.DELETE id env w in
    (faults env k = true ->
       Response.status (fst r) = 500 /\ db (snd r) = db w)
    /\ (faults env k = false -> faults env (S k) = true ->
          Response.status (fst r) = 500
          /\ db (snd r) = unlinked id (db w)
          /\ assets (db (snd r)) = assets (db w)
          /\ case_status (db (snd r)) = case_status (db w)
          /\ notes (db (snd r)) = notes (db w))
    /\ (faults env k = false -> faults env (S k) = false ->
          (Response.status (fst r) = 200 \/ Response.status (fst r) = 404)
          /\ db (snd r)
             = snd (Store.delete_assets (id_is Asset.id id)
                      (unlinked id (db w)))).
Proof.
  intros env w id Hid _ k r. subst r k.
  rewrite (asset_DELETE_run env w id Hid).
  split; [|split].
  - intros F1. rewrite F1. split; reflexivity.
  - intros F1 F2. rewrite F1, F2. repeat split; reflexivity.
  - intros F1 F2. rewrite F1, F2. split; [|reflexivity]. cbn [fst].
    destruct (fst (Store.delete_assets (id_is Asset.id id)
                     (unlinked id (db w))));
      [right|left]; reflexivity.
Qed.

(** ** Validated payloads *)

Lemma ap_valid_inv {A B} (rf : Res (A -> B)) (ra : Res A) (b : B) :
  rf <*> ra = Valid b ->
  exists f a, rf = Valid f /\ ra = Valid a /\ b = f a.
Proof.
  destruct rf as [f|e|e], ra as [a|e'|e']; simpl; try discriminate.
  intros H. injection H as <-. now exists f, a.
Qed.

Lemma issues_ap {A B} (rf : Res (A -> B)) (ra : Res A) :
  issues (rf <*> ra) = (issues rf ++ issues ra)%list.
Proof.
  destruct rf, ra; simpl; rewrite ?app_nil_r; reflexivity.
Qed.

(** A payload without the key [assetId] validates to a [SET] clause that
    leaves the column out. *)
Lemma update_without_assetId env body s :
  Schema.updateProjectSchema env body = Valid s ->
  prop "assetId" body = None ->
  ProjectSet.assetId s = None.
Proof.
  unfold Schema.updateProjectSchema. destruct body; try discriminate.
  intros H Hnone.
  repeat match type of H with
         | _ <*> _ = Valid _ =>
             apply ap_valid_inv in H;
             let f := fresh "f" in let a := fresh "a" in
             let Hf := fresh "Hf" in let Ha := fresh "Ha" in
             destruct H as [f [a [H [Ha ->]]]]
         end.
  injection H as <-. simpl.
  rewrite Hnone in *. simpl in *. congruence.
Qed.

(** A [SET] clause that leaves the reference out violates no foreign key. *)
Lemma update_projects_keeping_asset where_ s d :
  ProjectSet.assetId s = None ->
  Store.update_projects where_ s d
  = Some (Store.returning where_ (Store.set_project s) (projects d),
          {| assets := assets d;
             projects := Store.update_rows where_ (Store.set_project s)
                           (projects d);
             case_status := case_status d;
             notes := notes d |}).
Proof.
  intros Hs. unfold Store.update_projects.
  replace (forallb _ _) with true; [reflexivity|].
  symmetry. apply forallb_forall. intros p _. simpl. rewrite Hs. simpl.
  unfold Store.fk_changed. destruct (Project.assetId p) as [i|];
    [now rewrite String.eqb_refl|reflexivity].
Qed.

Lemma assoc_remove_absent k fields :
  assoc k fields = None -> assoc_remove k fields = fields.
Proof.
  induction fields as [|[k' v] rest IH]; simpl; [reflexivity|].
  destruct (String.eqb k k'); [discriminate|].
  intros H. now rewrite IH.
Qed.

Lemma broken_after_update id a s now p d :
  ProjectSet.assetId s = None ->
  filter (id_is Project.id id) (projects d) = [p] ->
  Project.assetId p = Some a ->
  forall d',
    projects d' = Store.update_rows (id_is Project.id id)
                    (Store.set_project (with_assignedAt s None now))
                    (projects d) ->
    broken_row id a d' (Store.set_project (with_assignedAt s None now) p).
Proof.
  intros Hs Hrow Ha d' Hd'.
  assert (Hin : In p (filter (id_is Project.id id) (projects d)))
    by (rewrite Hrow; now left).
  apply filter_In in Hin. destruct Hin as [Hin Hidp].
  unfold broken_row, assignment_consistent. simpl. rewrite Hs. simpl.
  rewrite Ha. simpl. repeat split.
  - unfold id_is in Hidp. now apply String.eqb_eq.
  - rewrite Hd'. unfold Store.update_rows. apply in_map_iff.
    exists p. rewrite Hidp. split; [|exact Hin].
    unfold Store.set_project. simpl. rewrite Hs. simpl. now rewrite Ha.
Qed.

(** C1 (how the code breaks it): an update of a project whose payload
    omits assetId answers 200 with the project still assigned (assetId
    non-null) and assignedAt null, whatever else the payload holds; the
    equivalence of the two columns fails on the returned project and on the
    stored row. The single-project update and the bulk update (here of one
    project) behave alike. *)
Theorem C1_update_without_assetId_clears_assignedAt :
  forall env w id fields s p a,
    uuidRegex_test id = true ->
    no_faults env ->
    assoc "id" fields = None ->
    assoc "assetId" fields = None ->
    Schema.updateProjectSchema env (JObj fields) = Valid s ->
    filter (id_is Project.id id) (projects (db w)) = [p] ->
    Project.assetId p = Some a ->
    let broken (r : Response.t * World) (p' : Project.t) : Prop :=
      broken_row id a (db (snd r)) p' in
    (exists p' asset',
        let r := ProjectIdRoute.PUT id (JObj fields) env w in
        fst r = respond 200 (project_with_asset p' asset')
                  (Some "Project updated successfully")
        /\ broken r p')
    /\ (exists p' asset',
          let r := ProjectsRoute.PUT
                     (JObj [("projects",
                             JArr [JObj (("id", JStr id) :: fields)])])
                     env w in
          fst r = respond 200 (projects_with_assets [(p', asset')])
                    (Some "1 projects updated successfully")
          /\ broken r p').
Proof.
  intros env w id fields s p a Hid Hnf Hnoid Hnoasset Hvalid Hrow Hassigned
    broken.
  assert (Htr : Js.truthy id = true) by (destruct id; [discriminate|reflexivity]).
  subst broken. cbv beta zeta.
  pose proof (update_without_assetId _ _ Hvalid Hnoasset) as Hs.
  set (now := clock env (ticks w)).
  set (s' := with_assignedAt s None now).
  assert (Hs' : ProjectSet.assetId s' = None) by exact Hs.
  set (d' := {| assets := assets (db w);
                projects := Store.update_rows (id_is Project.id id)
                              (Store.set_project s') (projects (db w));
                case_status := case_status (db w);
                notes := notes (db w) |}).
  assert (Hupd : Store.update_projects (id_is Project.id id) s' (db w)
                 = Some ([Store.set_project s' p], d')).
  { rewrite (update_projects_keeping_asset _ _ _ Hs').
    unfold Store.returning. rewrite Hrow. reflexivity. }
  assert (Hp' : broken_row id a d' (Store.set_project s' p)).
  { eapply broken_after_update with (d := db w);
      [exact Hs | exact Hrow | exact Hassigned | reflexivity]. }
  assert (Hassoc : forall w1, db w1 = d' ->
            exists asset' w2,
              associated_asset (Project.assetId (Store.set_project s' p)) env w1
              = (inr asset', w2) /\ db w2 = d').
  { intros w1 Hw1. simpl. rewrite Hs. simpl. rewrite Hassigned.
    unfold associated_asset. destruct (Js.truthy a).
    - unfold bind, select_asset. rewrite query_run by apply Hnf.
      eexists. eexists. split; [reflexivity|exact Hw1].
    - eexists. eexists. split; [reflexivity|exact Hw1]. }
  split.
  - destruct (Hassoc {| db := d'; log := log w ++ [q_ UPDATE projects_table [id]];
                        ticks := S (ticks w); draws := draws w |} eq_refl)
      as [asset' [w2 [Hrun Hw2]]].
    exists (Store.set_project s' p), asset'.
    assert (HR : ProjectIdRoute.PUT id (JObj fields) env w
                 = (respond 200
                      (project_with_asset (Store.set_project s' p) asset')
                      (Some "Project updated successfully"), w2)).
    { unfold ProjectIdRoute.PUT, try_catch. rewrite Hid. cbn [negb].
      unfold bind at 1. unfold ask. unfold bind at 1. rewrite Hvalid.
      unfold parse, ret. unfold bind at 1. unfold assignedAt_for.
      rewrite Hs. cbn [ref_truthy]. unfold ret.
      unfold bind at 1. unfold new_Date. fold now. fold s'.
      unfold bind at 1.
      erewrite statement_run; [| apply Hnf | exact Hupd].
      cbn [db log ticks draws]. unfold bind at 1. rewrite Hrun.
      reflexivity. }
    rewrite HR. cbn [fst snd]. split; [reflexivity|].
    rewrite Hw2. exact Hp'.
  - destruct (Hassoc {| db := d'; log := log w ++ [q_ UPDATE projects_table [id]];
                        ticks := S (ticks w); draws := draws w |} eq_refl)
      as [asset' [w2 [Hrun Hw2]]].
    exists (Store.set_project s' p), asset'.
    assert (HR : ProjectsRoute.PUT
                   (JObj [("projects", JArr [JObj (("id", JStr id) :: fields)])])
                   env w
                 = (respond 200
                      (projects_with_assets [(Store.set_project s' p, asset')])
                      (Some "1 projects updated successfully"), w2)).
    { unfold ProjectsRoute.PUT, try_catch. cbn [prop].
      simpl (assoc "projects" _).
      unfold bind at 1. unfold Promise_all. cbn [start_all].
      unfold ProjectsRoute.before_update at 1.
      cbn [prop]. simpl (assoc "id" _). cbn [truthy]. rewrite Htr.
      simpl (assoc_remove "id" _). rewrite (assoc_remove_absent _ _ Hnoid).
      unfold bind at 1. unfold ask. unfold bind at 1. rewrite Hvalid.
      unfold parse, ret. unfold bind at 1. unfold assignedAt_for.
      rewrite Hs. cbn [ref_truthy]. unfold ret.
      unfold bind at 1. unfold new_Date. fold now. fold s'.
      cbn [settle_all first_rejection].
      unfold ProjectsRoute.after_update at 1. cbn [fst snd].
      unfold bind at 1.
      erewrite statement_run; [| apply Hnf | exact Hupd].
      cbn [db log ticks draws]. unfold bind at 1. rewrite Hrun.
      reflexivity. }
    rewrite HR. cbn [fst snd]. split; [reflexivity|].
    rewrite Hw2. exact Hp'.
Qed.

(** ** Listing projects by asset *)

Lemma trim_empty : Js.trim "" = "".
Proof. reflexivity. Qed.



(** ** Pagination *)

Lemma length_insert_desc {R} (key : R -> Z) (x : R) (l : list R) :
  List.length (Store.insert_desc key x l) = S (List.length l).
Proof.
  induction l as [|y l IH]; simpl; [reflexivity|].
  destruct (key y <=? key x); simpl; [reflexivity|now rewrite IH].
Qed.

Lemma length_order_desc {R} (key : R -> Z) (l : list R) :
  List.length (Store.order_desc key l) = List.length l.
Proof.
  induction l as [|x l IH]; simpl; [reflexivity|].
  now rewrite length_insert_desc, IH.
Qed.

Lemma ceil_div_bounds (n l : Z) :
  1 <= l -> (Js.ceil_div n l - 1) * l < n <= Js.ceil_div n l * l.
Proof.
  intros Hl. unfold Js.ceil_div.
  pose proof (Z.mul_div_le (- n) l ltac:(lia)) as H1.
  pose proof (Z.mul_succ_div_gt (- n) l ltac:(lia)) as H2.
  nia.
Qed.

Lemma start_all_ret {A} (items : list A) env w :
  start_all (fun a : A => ret a) items env w = (map inr items, w).
Proof.
  revert w. induction items as [|x rest IH]; intros w; simpl; [reflexivity|].
  now rewrite IH.
Qed.

Lemma first_rejection_fulfilled {B} (l : list B) :
  first_rejection (map inr l) = None /\ fulfilled (map inr l) = l.
Proof.
  induction l as [|x l [IH1 IH2]]; simpl; [now split|].
  split; [exact IH1|now rewrite IH2].
Qed.

(** Reading the projects of each listed asset changes nothing in the store. *)
Lemma settle_related env (items : list Asset.t) :
  no_faults env ->
  forall w, exists w',
    settle_all
      (fun asset =>
         relatedProjects <- select_projects_of (Asset.id asset) ;;
         ret (asset, relatedProjects))
      (map inr items) env w
    = (map inr
         (map (fun a => (a, filter (assigned_to (Asset.id a)) (projects (db w))))
            items), w')
    /\ db w' = db w.
Proof.
  intros Hnf. induction items as [|x rest IH]; intros w; simpl.
  - now exists w.
  - unfold bind at 1. unfold select_projects_of at 1.
    rewrite query_run by apply Hnf. unfold ret at 1.
    match goal with
    | |- context [settle_all ?f (map inr rest) env ?w1] =>
        destruct (IH w1) as [w' [Hrun Hdb]]
    end.
    rewrite Hrun. exists w'. split; [reflexivity|]. rewrite Hdb. reflexivity.
Qed.

(** ** The location of an asset *)

Ltac break_match :=
  repeat (cbn;
          match goal with
          | |- context [match ?x with _ => _ end] =>
              lazymatch x with
              | context [match _ with _ => _ end] => fail
              | _ => destruct x
              end
          end).

Ltac off_location :=
  unfold Schema.text_column, Schema.column, Schema.omitted, optional,
    nullable, partial_default, with_default, z_string, z_string_min1_trim,
    z_string_format, z_enum, z_date, Schema.coerceTimestamp, fail_type,
    res_map, issue;
  break_match; reflexivity.

Lemma location_issues (la ln : Q) :
  issues (Schema.location_schema
            (Some (JObj [("lat", JNum la); ("lng", JNum ln)])))
  = ((if Qle_bool (-90 # 1) la
      then if Qle_bool la (90 # 1) then []
           else [issue too_big ["location"; "lat"] Schema.lat_message]
      else [issue too_small ["location"; "lat"] Schema.lat_message])
     ++ (if Qle_bool (-180 # 1) ln
         then if Qle_bool ln (180 # 1) then []
              else [issue too_big ["location"; "lng"] Schema.lng_message]
         else [issue too_small ["location"; "lng"] Schema.lng_message]))%list.
Proof.
  unfold Schema.location_schema. rewrite !issues_ap. simpl.
  unfold z_number_between.
  destruct (Qle_bool (-90 # 1) la), (Qle_bool la (90 # 1)),
    (Qle_bool (-180 # 1) ln), (Qle_bool ln (180 # 1)); reflexivity.
Qed.

Lemma filter_all_at_location (la ln : Q) :
  filter at_location
    (issues (Schema.location_schema
               (Some (JObj [("lat", JNum la); ("lng", JNum ln)]))))
  = issues (Schema.location_schema
              (Some (JObj [("lat", JNum la); ("lng", JNum ln)]))).
Proof.
  rewrite location_issues.
  destruct (Qle_bool (-90 # 1) la), (Qle_bool la (90 # 1)),
    (Qle_bool (-180 # 1) ln), (Qle_bool ln (180 # 1)); reflexivity.
Qed.

(** C9: the validation of an asset payload (creation, and update with
    [partial]) whose location holds the numbers [la] and [ln] raises no
    issue at the location when -90 <= la <= 90 and -180 <= ln <= 180, the
    bounds included, and the location schema then yields the location; a
    latitude outside [-90, 90] is rejected with the issue "Latitude must be
    between -90 and 90" at location.lat, a longitude outside [-180, 180]
    with "Longitude must be between -180 and 180" at location.lng.
    Latitudes 90 and -90 and longitudes 180 and -180 pass; latitudes
    90.0001 and -90.0001 do not. *)
Theorem C9_location_bounds :
  forall env partial fields la ln,
    assoc "location" fields
    = Some (JObj [("lat", JNum la); ("lng", JNum ln)]) ->
    let loc := Some (JObj [("lat", JNum la); ("lng", JNum ln)]) in
    let r := Schema.assetSchema env partial (JObj fields) in
    let in_range := (-90 # 1 <= la)%Q /\ (la <= 90 # 1)%Q
                    /\ (-180 # 1 <= ln)%Q /\ (ln <= 180 # 1)%Q in
    (in_range <->
       Schema.location_schema loc = Valid {| lat := la; lng := ln |})
    /\ (in_range <-> filter at_location (issues r) = [])
    /\ (~ ((-90 # 1 <= la)%Q /\ (la <= 90 # 1)%Q) ->
          (exists c, In (issue c ["location"; "lat"] Schema.lat_message)
                       (issues r))
          /\ forall a, r <> Valid a)
    /\ (~ ((-180 # 1 <= ln)%Q /\ (ln <= 180 # 1)%Q) ->
          (exists c, In (issue c ["location"; "lng"] Schema.lng_message)
                       (issues r))
          /\ forall a, r <> Valid a).
Proof.
  intros env partial fields la ln Hloc loc r in_range.
  assert (Hat : filter at_location (issues r)
                = issues (Schema.location_schema loc)).
  { subst r. unfold Schema.assetSchema. rewrite !issues_ap.
    cbn [issues]. rewrite !filter_app. cbn [prop].
    rewrite Hloc. fold loc.
    assert (Hl : filter at_location
                   (issues (Schema.column partial Schema.location_schema loc))
                 = issues (Schema.location_schema loc)).
    { unfold Schema.column. destruct partial; unfold optional, loc;
        destruct (Schema.location_schema
                    (Some (JObj [("lat", JNum la); ("lng", JNum ln)]))) eqn:E;
        simpl; try reflexivity;
        pose proof (filter_all_at_location la ln) as F; rewrite E in F;
        exact F. }
    rewrite Hl.
    repeat match goal with
           | |- context [filter at_location (issues ?x)] =>
               let H := fresh in
               assert (H : filter at_location (issues x) = [])
                 by (clear; off_location);
               rewrite H; clear H
           end.
    rewrite !app_nil_r. reflexivity. }
  assert (Hnv : issues r <> [] -> forall a, r <> Valid a).
  { intros Hne a Hr. rewrite Hr in Hne. now apply Hne. }
  pose proof (location_issues la ln) as Hissues. fold loc in Hissues.
  assert (Hlat : Qle_bool (-90 # 1) la && Qle_bool la (90 # 1) = true
                 <-> (-90 # 1 <= la)%Q /\ (la <= 90 # 1)%Q).
  { rewrite andb_true_iff, !Qle_bool_iff. reflexivity. }
  assert (Hlng : Qle_bool (-180 # 1) ln && Qle_bool ln (180 # 1) = true
                 <-> (-180 # 1 <= ln)%Q /\ (ln <= 180 # 1)%Q).
  { rewrite andb_true_iff, !Qle_bool_iff. reflexivity. }
  assert (Hin : forall i, In i (issues (Schema.location_schema loc)) ->
                          In i (issues r)).
  { intros i Hi. rewrite <- Hat in Hi. apply filter_In in Hi. tauto. }
  split; [|split; [|split]].
  - split.
    + intros [H1 [H2 [H3 H4]]]. unfold loc, Schema.location_schema.
      cbn [assoc String.eqb Ascii.eqb Bool.eqb]. unfold z_number_between.
      apply Qle_bool_iff in H1, H2, H3, H4. now rewrite H1, H2, H3, H4.
    + intros Hv. rewrite Hv in Hissues. cbn [issues] in Hissues.
      destruct (Qle_bool (-90 # 1) la) eqn:E1, (Qle_bool la (90 # 1)) eqn:E2,
        (Qle_bool (-180 # 1) ln) eqn:E3, (Qle_bool ln (180 # 1)) eqn:E4;
        try discriminate Hissues.
      apply Qle_bool_iff in E1, E2, E3, E4. unfold in_range. tauto.
  - split.
    + intros [H1 [H2 [H3 H4]]]. rewrite Hat, Hissues.
      apply Qle_bool_iff in H1, H2, H3, H4. now rewrite H1, H2, H3, H4.
    + intros Hnil. rewrite Hat, Hissues in Hnil.
      destruct (Qle_bool (-90 # 1) la) eqn:E1, (Qle_bool la (90 # 1)) eqn:E2,
        (Qle_bool (-180 # 1) ln) eqn:E3, (Qle_bool ln (180 # 1)) eqn:E4;
        try discriminate Hnil.
      apply Qle_bool_iff in E1, E2, E3, E4. unfold in_range. tauto.
  - intros H. rewrite <- Hlat in H. split.
    + destruct (Qle_bool (-90 # 1) la) eqn:E1.
      * destruct (Qle_bool la (90 # 1)) eqn:E2; [now elim H|].
        exists too_big. apply Hin. rewrite Hissues. now left.
      * exists too_small. apply Hin. rewrite Hissues. now left.
    + apply Hnv. intros Hnil.
      assert (Hl' : issues (Schema.location_schema loc) = [])
        by (rewrite <- Hat, Hnil; reflexivity).
      rewrite Hissues in Hl'.
      destruct (Qle_bool (-90 # 1) la), (Qle_bool la (90 # 1));
        try discriminate Hl'. now apply H.
  - intros H. rewrite <- Hlng in H. split.
    + destruct (Qle_bool (-180 # 1) ln) eqn:E1.
      * destruct (Qle_bool ln (180 # 1)) eqn:E2; [now elim H|].
        exists too_big. apply Hin. rewrite Hissues. apply in_or_app. right.
        now left.
      * exists too_small. apply Hin. rewrite Hissues. apply in_or_app. right.
        now left.
    + apply Hnv. intros Hnil.
      assert (Hl' : issues (Schema.location_schema loc) = [])
        by (rewrite <- Hat, Hnil; reflexivity).
      rewrite Hissues in Hl'. apply app_eq_nil in Hl'. destruct Hl' as [_ Hl'].
      destruct (Qle_bool (-180 # 1) ln), (Qle_bool ln (180 # 1));
        try discriminate Hl'. now apply H.
Qed.

(** ** Identifiers are checked before the store is reached *)

Lemma ids_refused raw required invalid :
  existsb malformed (ids_of_param raw) = true ->
  exists r, ids_or_refusal (Some raw) required invalid = inl r
            /\ Response.status r = 400.
Proof.
  unfold ids_of_param, ids_or_refusal.
  destruct (Js.truthy raw); [|discriminate].
  intros H. apply existsb_exists in H. destruct H as [i [Hin Hbad]].
  destruct (filter (fun i => negb (uuidRegex_test i))
              (map Js.trim (Js.split_comma raw))) as [|x rest] eqn:Hf.
  - assert (Hi : In i (filter (fun i => negb (uuidRegex_test i))
                         (map Js.trim (Js.split_comma raw))))
      by (apply filter_In; split; assumption).
    rewrite Hf in Hi. destruct Hi.
  - eexists. split; reflexivity.
Qed.

Lemma statement_log {A} (q : Query) (run : DB -> option (A * DB)) env w :
  log (snd (statement q run env w)) = (log w ++ [q])%list.
Proof.
  unfold statement. destruct (faults env _); [reflexivity|].
  destruct (run (db w)) as [[a d]|]; reflexivity.
Qed.

(** The first statement of a list is in the log of the request, whether
    or not it fails. *)
Ltac first_statement_logged q1 :=
  unfold bind at 1;
  match goal with
  | |- context [statement q1 ?run ?env ?w] =>
      let Hlog := fresh "Hlog" in
      pose proof (statement_log q1 run env w) as Hlog;
      destruct (statement q1 run env w) as [[?e|?rows] ?w1];
      cbn [snd] in Hlog;
      [ cbn [snd]; rewrite Hlog; apply in_or_app; right; now left
      | unfold bind at 1;
        match goal with
        | |- context [query ?q2 ?f env ?w1] =>
            let Hlog2 := fresh "Hlog" in
            pose proof (statement_log q2 (fun d => Some (f d, d)) env w1)
              as Hlog2;
            unfold query;
            destruct (statement q2 (fun d => Some (f d, d)) env w1)
              as [[?e|?t] ?w2];
            unfold ret; cbn [snd] in *; rewrite Hlog2, Hlog;
            apply in_or_app; left; apply in_or_app; right; now left
        end ]
  end.

Lemma truthy_of_trim (v : string) :
  Js.truthy (Js.trim v) = true -> Js.truthy v = true.
Proof.
  intros Hf. destruct v; [|reflexivity]. rewrite trim_empty in Hf.
  discriminate.
Qed.

(** C5 (as amended): every operation that takes an identifier in the path
    (assets, projects, cases, notes, the projects of an asset, the
    assignment of a project) or a list of identifiers in the [ids]
    parameter (the bulk deletions), on a request whose body, if it has
    one, is JSON, answers 400 when one of the identifiers is not of the
    identifier format, and has then sent nothing to the store. The update
    of an asset, the update of a project and the creation of a project
    under an asset read the body first: on a body that is not JSON they
    answer 500 whatever the identifier, the store untouched; the update of
    a case checks the identifier first. The reference filters of the lists
    are not checked: the assetId filter of the project list, the assetId,
    projectId and caseId filters of the note list and the assetId and
    projectId filters of the case list, when they are, trimmed, neither
    empty nor a keyword of the list, are bound as they are in the
    statement sent to the store, well-formed or not; when the value is no
    text the store reads as a uuid, the store refuses the statement and
    the answer is 500, not a client error, the store left as it was. *)
Theorem C5_identifiers_checked_except_list_filter :
  (forall op env w,
      existsb malformed (identifiers op) = true ->
      Response.status (fst (handler op env w)) = 400
      /\ snd (handler op env w) = w)
  /\ (forall id env w,
         (Response.status (fst (Arriving.update_asset id None env w)) = 500
          /\ snd (Arriving.update_asset id None env w) = w)
         /\ (Response.status (fst (Arriving.update_project id None env w))
             = 500
             /\ snd (Arriving.update_project id None env w) = w)
         /\ (Response.status (fst (Arriving.create_project id None env w))
             = 500
             /\ snd (Arriving.create_project id None env w) = w)
         /\ (malformed id = true ->
               Response.status (fst (Arriving.update_case id None env w))
               = 400
               /\ snd (Arriving.update_case id None env w) = w))
  /\ (forall env w rq v,
         assetId_param rq = Some v ->
         Js.truthy (Js.trim v) = true ->
         String.eqb (Js.toLowerCase (Js.trim v)) "unassigned" = false ->
         String.eqb (Js.toLowerCase (Js.trim v)) "assigned" = false ->
         (exists q,
             In q (log (snd (ProjectsRoute.GET rq env w)))
             /\ verb q = SELECT /\ table q = projects_table
             /\ In (Js.trim v) (bound q))
         /\ (Store.uuid_text (Js.trim v) = false ->
               Response.status (fst (ProjectsRoute.GET rq env w)) = 500
               /\ db (snd (ProjectsRoute.GET rq env w)) = db w))
  /\ (forall env w rq v,
         In (Some v) [note_assetId rq; note_projectId rq; note_caseId rq] ->
         Js.truthy (Js.trim v) = true ->
         String.eqb (Js.toLowerCase (Js.trim v)) "unassigned" = false ->
         (exists q,
             In q (log (snd (NotesRoute.GET rq env w)))
             /\ verb q = SELECT /\ table q = notes_table
             /\ In (Js.trim v) (bound q))
         /\ (Store.uuid_text (Js.trim v) = false ->
               Response.status (fst (NotesRoute.GET rq env w)) = 500
               /\ db (snd (NotesRoute.GET rq env w)) = db w))
  /\ (forall env w rq v,
         In (Some v) [case_assetId rq; case_projectId rq] ->
         Js.truthy (Js.trim v) = true ->
         String.eqb (Js.toLowerCase (Js.trim v)) "unassigned" = false ->
         String.eqb (Js.toLowerCase (Js.trim v)) "assigned" = false ->
         (exists q,
             In q (log (snd (CasesRoute.GET rq env w)))
             /\ verb q = SELECT /\ table q = cases_table
             /\ In (Js.trim v) (bound q))
         /\ (Store.uuid_text (Js.trim v) = false ->
               Response.status (fst (CasesRoute.GET rq env w)) = 500
               /\ db (snd (CasesRoute.GET rq env w)) = db w)).
Proof.
  refine (conj _ (conj _ (conj _ (conj _ _)))).
  - intros op env w Hbad.
    destruct op; cbn [identifiers existsb] in Hbad;
      try (rewrite orb_false_r in Hbad; unfold malformed in Hbad;
           cbn [handler];
           unfold AssetIdRoute.GET, AssetIdRoute.PUT, AssetIdRoute.DELETE,
             ProjectIdRoute.GET, ProjectIdRoute.PUT, ProjectIdRoute.DELETE,
             AssetProjectsRoute.GET, AssetProjectsRoute.POST,
             CaseIdRoute.GET, CaseIdRoute.PUT, CaseIdRoute.DELETE,
             NoteIdRoute.DELETE, try_catch;
           rewrite Hbad; split; reflexivity);
      try (rewrite orb_false_r in Hbad; unfold malformed in Hbad;
           cbn [handler];
           unfold AssetProjectRoute.GET, AssetProjectRoute.PUT,
             AssetProjectRoute.DELETE, AssetProjectRoute.bad_ids, try_catch;
           rewrite Hbad; split; reflexivity);
      try (cbn [handler];
           unfold AssetsRoute.DELETE, AssetsBulkRoute.DELETE,
             ProjectsRoute.DELETE, try_catch;
           match goal with
           | |- context [ids_or_refusal (Some ?raw) ?a ?b] =>
               destruct (ids_refused raw a b Hbad) as [r [Hr Hs]];
               rewrite Hr
           end;
           split; [exact Hs|reflexivity]).
  - intros id env w. unfold Arriving.update_asset, Arriving.update_project,
      Arriving.create_project, Arriving.update_case, try_catch, throw,
      malformed.
    repeat split; try reflexivity;
      rewrite H; reflexivity.
  - intros env w rq v Hv Hf Hu Ha.
    pose proof (truthy_of_trim v Hf) as Htr.
    set (q1 := q_ SELECT projects_table (ProjectsRoute.bound_values rq)).
    assert (Hb : In (Js.trim v) (bound q1)).
    { unfold q1, q_. cbn [bound]. unfold ProjectsRoute.bound_values.
      apply in_or_app. right. apply in_or_app. left.
      rewrite Hv. unfold ProjectsRoute.asset_condition.
      rewrite Htr, Hf, Hu, Ha. cbn [orb]. now left. }
    split.
    + exists q1. repeat split; [|exact Hb].
      unfold ProjectsRoute.GET, try_catch. fold q1.
      first_statement_logged q1.
    + intros Hno.
      assert (Hrf : forallb Store.uuid_text (ProjectsRoute.uuid_values rq)
                   = false).
      { unfold ProjectsRoute.uuid_values, ProjectsRoute.asset_condition.
        rewrite Hv, Htr, Hf, Hu, Ha. cbn [orb forallb]. now rewrite Hno. }
      assert (Hrun : exists w',
                 ProjectsRoute.GET rq env w = (failure 500 "Failed to fetch projects", w')
                 /\ db w' = db w).
      { unfold ProjectsRoute.GET, try_catch. unfold bind at 1.
        unfold statement. rewrite comparing_refused by exact Hrf.
        destruct (faults env (List.length (log w)));
          eexists; split; reflexivity. }
      destruct Hrun as [w' [Hrun Hdb]]. rewrite Hrun.
      split; [reflexivity | exact Hdb].
  - intros env w rq v Hin Hf Hu.
    pose proof (truthy_of_trim v Hf) as Htr.
    set (q1 := q_ SELECT notes_table (NotesRoute.bound_values rq)).
    assert (Hrb : NotesRoute.ref_bound (Some v) = [Js.trim v]).
    { unfold NotesRoute.ref_bound. rewrite Htr, Hf, Hu. reflexivity. }
    assert (Hb : In (Js.trim v) (bound q1)).
    { unfold q1, q_. cbn [bound]. unfold NotesRoute.bound_values.
      apply in_or_app. right.
      destruct Hin as [H|[H|[H|[]]]]; rewrite H.
      - apply in_or_app. left. rewrite Hrb. now left.
      - apply in_or_app. right. apply in_or_app. left.
        rewrite Hrb. now left.
      - apply in_or_app. right. apply in_or_app. right.
        rewrite Hrb. now left. }
    split.
    + exists q1. repeat split; [|exact Hb].
      unfold NotesRoute.GET, try_catch. fold q1.
      first_statement_logged q1.
    + intros Hno.
      assert (Hrf : forallb Store.uuid_text (NotesRoute.uuid_values rq)
                   = false).
      { apply (forallb_refused (Js.trim v)); [|exact Hno].
        unfold NotesRoute.uuid_values.
        destruct Hin as [H|[H|[H|[]]]]; rewrite H, Hrb;
          repeat (apply in_or_app; (left; now left) || right);
          now left. }
      assert (Hrun : exists w',
                 NotesRoute.GET rq env w = (failure 500 "Failed to fetch notes", w')
                 /\ db w' = db w).
      { unfold NotesRoute.GET, try_catch. unfold bind at 1.
        unfold statement. rewrite comparing_refused by exact Hrf.
        destruct (faults env (List.length (log w)));
          eexists; split; reflexivity. }
      destruct Hrun as [w' [Hrun Hdb]]. rewrite Hrun.
      split; [reflexivity | exact Hdb].
  - intros env w rq v Hin Hf Hu Ha.
    pose proof (truthy_of_trim v Hf) as Htr.
    set (q1 := q_ SELECT cases_table (CasesRoute.bound_values rq)).
    assert (Hrb : CasesRoute.ref_bound (Some v) = [Js.trim v]).
    { unfold CasesRoute.ref_bound. rewrite Htr, Hf, Hu, Ha. reflexivity. }
    assert (Hb : In (Js.trim v) (bound q1)).
    { unfold q1, q_. cbn [bound]. unfold CasesRoute.bound_values.
      apply in_or_app. right.
      destruct Hin as [H|[H|[]]]; rewrite H.
      - apply in_or_app. left. rewrite Hrb. now left.
      - apply in_or_app. right. rewrite Hrb. now left. }
    split.
    + exists q1. repeat split; [|exact Hb].
      unfold CasesRoute.GET, try_catch. fold q1.
      first_statement_logged q1.
    + intros Hno.
      assert (Hrf : forallb Store.uuid_text (CasesRoute.uuid_values rq)
                   = false).
      { apply (forallb_refused (Js.trim v)); [|exact Hno].
        unfold CasesRoute.uuid_values.
        destruct Hin as [H|[H|[]]]; rewrite H, Hrb;
          repeat (apply in_or_app; (left; now left) || right);
          now left. }
      assert (Hrun : exists w',
                 CasesRoute.GET rq env w = (failure 500 "Failed to fetch cases", w')
                 /\ db w' = db w).
      { unfold CasesRoute.GET, try_catch. unfold bind at 1.
        unfold statement. rewrite comparing_refused by exact Hrf.
        destruct (faults env (List.length (log w)));
          eexists; split; reflexivity. }
      destruct Hrun as [w' [Hrun Hdb]]. rewrite Hrun.
      split; [reflexivity | exact Hdb].
Qed.

(** ** Creating a note *)

Lemma assoc_assoc_set k k' v fields :
  assoc k (assoc_set k' v fields)
  = if String.eqb k k' then Some v else assoc k fields.
Proof.
  induction fields as [|[k0 v0] rest IH]; simpl.
  - destruct (String.eqb k k'); reflexivity.
  - destruct (String.eqb k' k0) eqn:E0; simpl.
    + apply String.eqb_eq in E0. subst k0.
      destruct (String.eqb k k'); reflexivity.
    + destruct (String.eqb k k0) eqn:E1.
      * apply String.eqb_eq in E1. subst k0.
        rewrite (String.eqb_sym k k'), E0. reflexivity.
      * exact IH.
Qed.

Lemma assoc_trim_key k k' fields :
  assoc k (trim_key k' fields)
  = if String.eqb k k' then trimmed_value (assoc k' fields) else assoc k fields.
Proof.
  unfold trim_key, trimmed_value.
  destruct (String.eqb k k') eqn:E.
  - apply String.eqb_eq in E. subst k'.
    destruct (assoc k fields) as [[| b | q | s | l | o]|] eqn:Hk;
      rewrite ?Hk; try reflexivity.
    destruct (Js.truthy s); [|now rewrite Hk].
    now rewrite assoc_assoc_set, String.eqb_refl.
  - destruct (assoc k' fields) as [[| b | q | s | l | o]|]; try reflexivity.
    destruct (Js.truthy s); [|reflexivity].
    now rewrite assoc_assoc_set, E.
Qed.

Lemma assoc_sanitize_key k k' fields :
  assoc k (sanitize_key k' fields)
  = if String.eqb k k' then sanitized_value (assoc k' fields)
    else assoc k fields.
Proof.
  unfold sanitize_key, sanitized_value.
  destruct (String.eqb k k') eqn:E.
  - apply String.eqb_eq in E. subst k'.
    destruct (truthy (assoc k fields)); [|reflexivity].
    now rewrite assoc_assoc_set, String.eqb_refl.
  - destruct (truthy (assoc k' fields)); [|reflexivity].
    now rewrite assoc_assoc_set, E.
Qed.

(** The keys of a normalised note payload. *)
Lemma normalized_keys fields :
  normalized fields (NotesRoute.normalizeBody (JObj fields)).
Proof.
  unfold normalized, NotesRoute.normalizeBody. cbn [spread].
  repeat split;
    rewrite !assoc_sanitize_key, ?assoc_trim_key; reflexivity.
Qed.

Lemma trimStart_no_leading_space s : no_leading_space (Js.trimStart s).
Proof.
  induction s as [|c s IH]; simpl; [exact I|].
  destruct (Js.is_space c) eqn:E; [exact IH|exact E].
Qed.

Lemma trimStart_fixed t : no_leading_space t -> Js.trimStart t = t.
Proof.
  destruct t as [|c t]; simpl; [reflexivity|]. now intros ->.
Qed.

Lemma trimEnd_no_leading_space t :
  no_leading_space t -> no_leading_space (Js.trimEnd t).
Proof.
  destruct t as [|c t]; simpl; [exact (fun H => H)|].
  intros Hc. destruct (Js.trimEnd t); simpl; [rewrite Hc|]; exact Hc.
Qed.

Lemma trimEnd_idempotent t : Js.trimEnd (Js.trimEnd t) = Js.trimEnd t.
Proof.
  induction t as [|c t IH]; simpl; [reflexivity|].
  destruct (Js.trimEnd t) as [|d u] eqn:E.
  - destruct (Js.is_space c) eqn:Hc; simpl; [reflexivity|now rewrite Hc].
  - change (Js.trimEnd (String c (String d u)))
      with (match Js.trimEnd (String d u) with
            | EmptyString =>
                if Js.is_space c then EmptyString else String c EmptyString
            | x => String c x
            end).
    now rewrite IH.
Qed.

Lemma trim_idempotent s : Js.trim (Js.trim s) = Js.trim s.
Proof.
  unfold Js.trim.
  rewrite (trimStart_fixed (Js.trimEnd (Js.trimStart s))).
  - apply trimEnd_idempotent.
  - apply trimEnd_no_leading_space, trimStart_no_leading_space.
Qed.

Lemma truthy_trim s : Js.truthy (Js.trim s) = true -> Js.truthy s = true.
Proof. destruct s; [discriminate|reflexivity]. Qed.

Lemma content_valid v :
  content_given v = true ->
  exists s, v = Some (JStr s)
            /\ z_string_min1_trim ["content"] "Note content is required"
                 (trimmed_value v) = Valid (Js.trim s).
Proof.
  destruct v as [[]|]; try discriminate. simpl. intros H.
  exists s. split; [reflexivity|].
  rewrite (truthy_trim _ H). simpl. rewrite H. now rewrite trim_idempotent.
Qed.

Lemma content_valid_inv v a :
  z_string_min1_trim ["content"] "Note content is required" (trimmed_value v)
  = Valid a ->
  content_given v = true.
Proof.
  destruct v as [[]|]; try discriminate. simpl.
  destruct (Js.truthy s) eqn:E; simpl.
  - destruct (Js.truthy (Js.trim s)); [reflexivity|discriminate].
  - rewrite E. discriminate.
Qed.

Lemma ref_valid env k msg v :
  ref_acceptable env v = true ->
  exists x,
    Schema.note_ref env k msg (sanitized_value v) = Valid x
    /\ flatten x = ref_value v
    /\ truthy (sanitized_value v) = isNotNull (ref_value v).
Proof.
  unfold Schema.note_ref, sanitized_value.
  destruct v as [[| b | q | s | l | o]|]; try discriminate.
  - intros _. exists (Some None). repeat split.
  - cbn [ref_acceptable ref_value truthy sanitizeNullableId].
    intros H. destruct (Js.truthy (Js.trim s)) eqn:E.
    + rewrite (truthy_trim _ E).
      exists (Some (Some (Js.trim s))).
      cbn [optional nullable res_map z_string_format truthy].
      rewrite H, E. repeat split.
    + rewrite H. exists (Some None). repeat split.
  - intros _. exists None. repeat split.
Qed.

Lemma ref_valid_inv env k msg v x :
  zod_uuid env "" = false ->
  Schema.note_ref env k msg (sanitized_value v) = Valid x ->
  ref_acceptable env v = true.
Proof.
  intros Hempty.
  unfold Schema.note_ref, sanitized_value.
  destruct v as [[| b | q | s | l | o]|]; try reflexivity.
  - destruct b; discriminate.
  - cbn [truthy]. destruct (negb (Qeq_bool q 0)); discriminate.
  - cbn [ref_acceptable truthy sanitizeNullableId].
    destruct (Js.truthy s) eqn:Es.
    + destruct (Js.truthy (Js.trim s)) eqn:E; [|reflexivity].
      cbn [optional nullable res_map z_string_format].
      destruct (zod_uuid env (Js.trim s)); [reflexivity|discriminate].
    + destruct s; [|discriminate].
      cbn [optional nullable res_map z_string_format]. rewrite Hempty.
      discriminate.
  - discriminate.
  - discriminate.
Qed.

Lemma insertNoteSchema_eq env body :
  Schema.insertNoteSchema env body
  = if is_aborted (Schema.baseInsertNoteSchema env body) || Schema.linked body
    then Schema.baseInsertNoteSchema env body
    else Dirty (issues (Schema.baseInsertNoteSchema env body)
                ++ [issue custom ["assetId"] Schema.link_message]).
Proof. reflexivity. Qed.

Lemma baseInsertNoteSchema_eq env payload :
  Schema.baseInsertNoteSchema env (JObj payload)
  = Valid NoteInput.Build_t
    <*> optional (z_string_format ["id"] (zod_uuid env) default_message)
          (assoc "id" payload)
    <*> z_string_min1_trim ["content"] "Note content is required"
          (assoc "content" payload)
    <*> Schema.note_ref env "assetId" "Invalid asset ID" (assoc "assetId" payload)
    <*> Schema.note_ref env "projectId" "Invalid project ID"
          (assoc "projectId" payload)
    <*> Schema.note_ref env "caseId" "Invalid case ID" (assoc "caseId" payload)
    <*> optional (z_date ["createdAt"]) (assoc "createdAt" payload)
    <*> optional (z_date ["updatedAt"]) (assoc "updatedAt" payload).
Proof. reflexivity. Qed.

Lemma linked_eq payload :
  Schema.linked (JObj payload)
  = truthy (assoc "assetId" payload) || truthy (assoc "projectId" payload)
    || truthy (assoc "caseId" payload).
Proof. reflexivity. Qed.

Lemma five_fields (rc : Res string) (ra rp rk : Res (option (option string))) :
  Valid NoteInput.Build_t <*> Valid None <*> rc <*> ra <*> rp <*> rk
    <*> Valid None <*> Valid None
  = Valid (fun content a p c =>
             NoteInput.Build_t None content a p c None None)
    <*> rc <*> ra <*> rp <*> rk.
Proof.
  destruct rc, ra, rp, rk; simpl; rewrite ?app_nil_r; reflexivity.
Qed.

Lemma base_schema_fields env fields payload :
  normalized fields payload ->
  assoc "id" fields = None ->
  assoc "createdAt" fields = None ->
  assoc "updatedAt" fields = None ->
  Schema.baseInsertNoteSchema env (JObj payload)
  = Valid (fun content a p c =>
             NoteInput.Build_t None content a p c None None)
    <*> z_string_min1_trim ["content"] "Note content is required"
          (trimmed_value (assoc "content" fields))
    <*> Schema.note_ref env "assetId" "Invalid asset ID"
          (sanitized_value (assoc "assetId" fields))
    <*> Schema.note_ref env "projectId" "Invalid project ID"
          (sanitized_value (assoc "projectId" fields))
    <*> Schema.note_ref env "caseId" "Invalid case ID"
          (sanitized_value (assoc "caseId" fields)).
Proof.
  intros [H1 [H2 [H3 [H4 [H5 [H6 H7]]]]]] no_id no_createdAt no_updatedAt.
  rewrite baseInsertNoteSchema_eq.
  rewrite H1, H2, H3, H4, H5, H6, H7, no_id, no_createdAt, no_updatedAt.
  change (optional (z_string_format ["id"] (zod_uuid env) default_message) None)
    with (@Valid (option string) None).
  change (optional (z_date ["createdAt"]) None) with (@Valid (option Date) None).
  change (optional (z_date ["updatedAt"]) None) with (@Valid (option Date) None).
  apply five_fields.
Qed.

Lemma linked_fields fields payload :
  normalized fields payload ->
  Schema.linked (JObj payload)
  = truthy (sanitized_value (assoc "assetId" fields))
    || truthy (sanitized_value (assoc "projectId" fields))
    || truthy (sanitized_value (assoc "caseId" fields)).
Proof.
  intros [_ [_ [H3 [H4 [H5 _]]]]].
  rewrite linked_eq. now rewrite H3, H4, H5.
Qed.

Lemma acceptable_valid env fields payload :
  normalized fields payload ->
  assoc "id" fields = None ->
  assoc "createdAt" fields = None ->
  assoc "updatedAt" fields = None ->
  note_acceptable env fields = true ->
  exists v,
    Schema.insertNoteSchema env (JObj payload) = Valid v
    /\ NoteInput.id v = None
    /\ forall id now, NotesRoute.new_row v id now = note_of fields id now.
Proof.
  intros Hnorm no_id no_createdAt no_updatedAt.
  unfold note_acceptable. rewrite !andb_true_iff.
  intros [[[[Hc Ha] Hp] Hk] Hlink].
  destruct (content_valid _ Hc) as [s [Hs Hcv]].
  destruct (ref_valid env "assetId" "Invalid asset ID" _ Ha)
    as [xa [Hxa [Hfa Hta]]].
  destruct (ref_valid env "projectId" "Invalid project ID" _ Hp)
    as [xp [Hxp [Hfp Htp]]].
  destruct (ref_valid env "caseId" "Invalid case ID" _ Hk)
    as [xc [Hxc [Hfc Htc]]].
  exists (NoteInput.Build_t None (Js.trim s) xa xp xc None None).
  split; [|split; [reflexivity|]].
  - rewrite insertNoteSchema_eq.
    rewrite (linked_fields Hnorm), Hta, Htp, Htc, Hlink.
    rewrite orb_true_r.
    rewrite (base_schema_fields env Hnorm no_id no_createdAt no_updatedAt),
      Hcv, Hxa, Hxp, Hxc.
    reflexivity.
  - intros id now. unfold NotesRoute.new_row, note_of.
    cbn [NoteInput.content NoteInput.assetId NoteInput.projectId
         NoteInput.caseId NoteInput.createdAt NoteInput.updatedAt Store.over].
    rewrite Hfa, Hfp, Hfc, Hs. reflexivity.
Qed.

Lemma valid_acceptable env fields payload v :
  normalized fields payload ->
  assoc "id" fields = None ->
  assoc "createdAt" fields = None ->
  assoc "updatedAt" fields = None ->
  zod_uuid env "" = false ->
  Schema.insertNoteSchema env (JObj payload) = Valid v ->
  note_acceptable env fields = true.
Proof.
  intros Hnorm no_id no_createdAt no_updatedAt Hempty.
  rewrite insertNoteSchema_eq.
  rewrite (base_schema_fields env Hnorm no_id no_createdAt no_updatedAt).
  rewrite (linked_fields Hnorm).
  set (rc := z_string_min1_trim ["content"] "Note content is required"
               (trimmed_value (assoc "content" fields))).
  set (ra := Schema.note_ref env "assetId" "Invalid asset ID"
               (sanitized_value (assoc "assetId" fields))).
  set (rp := Schema.note_ref env "projectId" "Invalid project ID"
               (sanitized_value (assoc "projectId" fields))).
  set (rk := Schema.note_ref env "caseId" "Invalid case ID"
               (sanitized_value (assoc "caseId" fields))).
  destruct rc as [xs| |] eqn:Hxs, ra as [xa| |] eqn:Hxa,
    rp as [xp| |] eqn:Hxp, rk as [xc| |] eqn:Hxc;
    cbn [ap issues is_aborted orb app];
    try (intros Hv; discriminate Hv);
    try (destruct (_ || _ || _); intros Hv; discriminate Hv).
  subst rc ra rp rk.
  pose proof (content_valid_inv _ Hxs) as Hc.
  pose proof (ref_valid_inv env _ _ _ Hempty Hxa) as Ha.
  pose proof (ref_valid_inv env _ _ _ Hempty Hxp) as Hp.
  pose proof (ref_valid_inv env _ _ _ Hempty Hxc) as Hk.
  destruct (ref_valid env "assetId" "Invalid asset ID" _ Ha)
    as [_ [_ [_ Hta]]].
  destruct (ref_valid env "projectId" "Invalid project ID" _ Hp)
    as [_ [_ [_ Htp]]].
  destruct (ref_valid env "caseId" "Invalid case ID" _ Hk)
    as [_ [_ [_ Htc]]].
  rewrite Hta, Htp, Htc.
  unfold note_acceptable. rewrite Hc, Ha, Hp, Hk.
  destruct (_ || _ || _); [reflexivity|]. intros Hv. discriminate Hv.
Qed.

Lemma parse_rejects {A} (r : Res A) env w :
  (forall v, r <> Valid v) ->
  parse r env w = (inl (ZodError (issues r)), w).
Proof.
  intros H. destruct r as [v|errs|errs]; [now elim (H v)| |]; reflexivity.
Qed.

Unset Implicit Arguments.

(** The handler up to the validation of the payload. *)
Lemma note_POST_parse body env w :
  NotesRoute.POST body env w
  = match parse (Schema.insertNoteSchema env (JObj (NotesRoute.normalizeBody body))) env w with
    | (inr v, w') =>
       try_catch (inserted <- NotesRoute.insert v ;;
     match inserted with
     | [] => throw (Error "no row returned")
     | newNote :: _ =>
         full <- query (q_ SELECT notes_table [Note.id newNote])
                   (fun d => filter
                               (fun r => id_is Note.id (Note.id newNote)
                                           (fst (fst (fst r))))
                               (NotesRoute.joined d)) ;;
         match full with
         | [] => throw (Error "Cannot destructure")
         | fullNote :: _ =>
             let '(n, a, p, c) := NotesRoute.toCamelCaseNote fullNote in
             ret (respond 201 (note_with_links n a p c)
                    (Some "Note created successfully"))
         end
     end) (on_error_fields "Failed to create note") env w'
    | (inl e, w') => (on_error_fields "Failed to create note" e, w')
    end.
Proof.
  unfold NotesRoute.POST, try_catch.
  unfold bind at 1. unfold ask. unfold bind at 1.
  destruct (parse _ env w) as [[e|v] w']; reflexivity.
Qed.

(** A payload that does not validate is answered 400, and nothing
    reaches the store. *)
Lemma rejected_run env body w :
  (forall v, Schema.insertNoteSchema env (JObj (NotesRoute.normalizeBody body))
             <> Valid v) ->
  NotesRoute.POST body env w
  = (failure_with 400 "Validation failed"
       (detail_fields
          (map issue_field
             (issues (Schema.insertNoteSchema env
                        (JObj (NotesRoute.normalizeBody body)))))), w).
Proof.
  intros Hnv. rewrite note_POST_parse.
  generalize dependent (Schema.insertNoteSchema env (JObj (NotesRoute.normalizeBody body))).
  intros r Hnv.
  rewrite (@parse_rejects _ _ env w Hnv). reflexivity.
Qed.

Lemma in_joined_notes (d : DB) (n : Note.t) :
  In n (notes d) ->
  filter (fun r : NotesRoute.Row => id_is Note.id (Note.id n) (fst (fst (fst r))))
    (NotesRoute.joined d) <> [].
Proof.
  intros Hin Hnil.
  assert (H : In (n, Store.join_asset d (Note.assetId n),
                  Store.join_project d (Note.projectId n),
                  Store.join_case d (Note.caseId n))
                (filter (fun r : NotesRoute.Row =>
                           id_is Note.id (Note.id n) (fst (fst (fst r))))
                   (NotesRoute.joined d))).
  { apply filter_In. split.
    - unfold NotesRoute.joined. apply in_map_iff. now exists n.
    - unfold id_is. simpl. apply String.eqb_refl. }
  rewrite Hnil in H. destruct H.
Qed.

(** C6 (as amended): creating a note from a payload that brings no id and
    no dates of its own, the empty string being no identifier. The payload
    is accepted exactly when the content is a string that is not empty once
    trimmed, each of assetId, projectId and caseId is absent, null, a blank
    (not empty) string or a string that is, trimmed, a well-formed
    identifier, and at least one of them is such an identifier. An answer
    201 is given only to an accepted payload; a payload that is not
    accepted is answered 400 and nothing reaches the store; an accepted
    payload whose references designate rows is, when the store does not
    fail, answered 201 and its note is stored. With an acceptable content
    and the three references null or absent, the answer is 400 with the
    single error "A note must be linked to an asset, project, or case" at
    assetId. *)
Theorem C6_note_creation_rules :
  forall env w fields,
    zod_uuid env "" = false ->
    assoc "id" fields = None ->
    assoc "createdAt" fields = None ->
    assoc "updatedAt" fields = None ->
    let r := NotesRoute.POST (JObj fields) env w in
    let note := note_of fields (gen_random_uuid env (draws w))
                  (clock env (ticks w)) in
    let null_ref (k : string) : Prop :=
      assoc k fields = None \/ assoc k fields = Some JNull in
    (Response.status (fst r) = 201 -> note_acceptable env fields = true)
    /\ (note_acceptable env fields = false ->
          Response.status (fst r) = 400 /\ snd r = w)
    /\ (note_acceptable env fields = true ->
          no_faults env ->
          Store.has_note (db w) (Note.id note) = false ->
          Store.fk (Store.has_asset (db w)) (Note.assetId note) = true ->
          Store.fk (Store.has_project (db w)) (Note.projectId note) = true ->
          Store.fk (Store.has_case (db w)) (Note.caseId note) = true ->
          Response.status (fst r) = 201
          /\ notes (db (snd r)) = (notes (db w) ++ [note])%list)
    /\ (content_given (assoc "content" fields) = true ->
          null_ref "assetId" -> null_ref "projectId" -> null_ref "caseId" ->
          fst r = failure_with 400 "Validation failed"
                    (detail_fields [("assetId", Schema.link_message)])
          /\ snd r = w).
Proof.
  intros env w fields Hempty Hid Hca Hua r note null_ref.
  assert (Hrej : note_acceptable env fields = false ->
                 forall v,
                   Schema.insertNoteSchema env
                     (JObj (NotesRoute.normalizeBody (JObj fields))) <> Valid v).
  { intros Hna v Hv.
    rewrite (valid_acceptable env (normalized_keys fields) Hid Hca Hua
               Hempty Hv) in Hna.
    discriminate Hna. }
  assert (H400 : note_acceptable env fields = false ->
                 Response.status (fst r) = 400 /\ snd r = w).
  { intros Hna. subst r.
    rewrite (rejected_run env (JObj fields) w (Hrej Hna)).
    split; reflexivity. }
  split; [|split; [exact H400|split]].
  - intros H201. destruct (note_acceptable env fields) eqn:E; [reflexivity|].
    destruct (H400 eq_refl) as [H _]. rewrite H in H201. discriminate.
  - intros Hacc Hnf Hnew Hfa Hfp Hfc.
    destruct (acceptable_valid env (normalized_keys fields) Hid Hca Hua Hacc)
      as [v [Hv [Hvid Hrow]]].
    set (d' := {| assets := assets (db w); projects := projects (db w);
                  case_status := case_status (db w);
                  notes := (notes (db w) ++ [note])%list |}).
    assert (Hins : Store.insert_note note (db w) = Some ([note], d')).
    { unfold Store.insert_note. rewrite Hnew, Hfa, Hfp, Hfc. reflexivity. }
    assert (HR : exists resp w2,
               r = (resp, w2) /\ Response.status resp = 201 /\ db w2 = d').
    { subst r. unfold NotesRoute.POST, try_catch.
      unfold bind at 1. unfold ask. unfold bind at 1. rewrite Hv.
      unfold parse, ret. unfold bind at 1. unfold NotesRoute.insert.
      rewrite Hvid. unfold bind at 1. unfold draw_uuid.
      unfold bind at 1. unfold new_Date. cbn [db log ticks draws].
      rewrite Hrow. fold note.
      erewrite statement_run; [| apply Hnf | exact Hins].
      unfold bind at 1. rewrite query_run by apply Hnf.
      cbn [db].
      match goal with
      | |- context [filter ?f ?l] =>
          destruct (filter f l) as [|full rest] eqn:Hf
      end.
      - exfalso. apply (in_joined_notes d' note); [|exact Hf].
        unfold d'. cbn [notes]. apply in_or_app. right. now left.
      - destruct (NotesRoute.toCamelCaseNote full) as [[[n a] p] c].
        eexists. eexists. split; [reflexivity|]. split; reflexivity. }
    destruct HR as [resp [w2 [HR [Hs Hd]]]]. rewrite HR. cbn [fst snd].
    rewrite Hd. split; [exact Hs|reflexivity].
  - intros Hc Ha Hp Hk. subst r.
    assert (Hnull : forall k, null_ref k ->
              ref_acceptable env (assoc k fields) = true
              /\ ref_value (assoc k fields) = None).
    { intros k [H|H]; rewrite H; split; reflexivity. }
    destruct (Hnull _ Ha) as [Ha1 Ha2]. destruct (Hnull _ Hp) as [Hp1 Hp2].
    destruct (Hnull _ Hk) as [Hk1 Hk2].
    destruct (content_valid _ Hc) as [s [Hs Hcv]].
    destruct (ref_valid env "assetId" "Invalid asset ID" _ Ha1)
      as [xa [Hxa [_ Hta]]].
    destruct (ref_valid env "projectId" "Invalid project ID" _ Hp1)
      as [xp [Hxp [_ Htp]]].
    destruct (ref_valid env "caseId" "Invalid case ID" _ Hk1)
      as [xc [Hxc [_ Htc]]].
    assert (Hschema :
              Schema.insertNoteSchema env
                (JObj (NotesRoute.normalizeBody (JObj fields)))
              = Dirty [issue custom ["assetId"] Schema.link_message]).
    { rewrite insertNoteSchema_eq.
      rewrite (linked_fields (normalized_keys fields)),
        Hta, Htp, Htc, Ha2, Hp2, Hk2.
      rewrite (base_schema_fields env (normalized_keys fields) Hid Hca Hua),
        Hcv, Hxa, Hxp, Hxc.
      reflexivity. }
    rewrite (rejected_run env (JObj fields) w);
      [| intros v Hv; rewrite Hschema in Hv; discriminate Hv ].
    rewrite Hschema. split; reflexivity.
Qed.

(* ===================================================================== *)
(** * Further properties of the handlers *)
(* ===================================================================== *)

(* ===================================================================== *)
(** * Further properties of the handlers *)
(* ===================================================================== *)

(** ** Deleting a project, a case or a note *)

Lemma ids_of_one {R} (key : R -> string) (id i : string) (rows : list R) :
  filter (id_is key id) rows <> [] ->
  Store.ids_of key (filter (id_is key id) rows) i = String.eqb id i.
Proof.
  intros Hne. unfold Store.ids_of.
  destruct (String.eqb id i) eqn:E.
  - apply String.eqb_eq in E. subst i.
    destruct (filter (id_is key id) rows) as [|a rest] eqn:Hf;
      [congruence|].
    assert (Ha : In a (filter (id_is key id) rows))
      by (rewrite Hf; now left).
    apply filter_In in Ha. destruct Ha as [_ Ha]. simpl.
    unfold id_is in Ha. now rewrite Ha.
  - apply not_true_is_false. intros Hex. apply existsb_exists in Hex.
    destruct Hex as [a [Ha Hai]]. apply filter_In in Ha.
    destruct Ha as [_ Ha]. unfold id_is in Ha.
    apply String.eqb_eq in Ha, Hai. apply String.eqb_neq in E. congruence.
Qed.

Lemma set_null_one (id : string) (gone : string -> bool)
  (ref : option string) :
  (forall i, gone i = String.eqb id i) ->
  Store.set_null gone ref = if eq_col ref id then None else ref.
Proof.
  intros Hgone. destruct ref as [i|]; simpl; [|reflexivity].
  rewrite Hgone, (String.eqb_sym i id). reflexivity.
Qed.

Lemma project_DELETE_run env w id :
  uuidRegex_test id = true ->
  ProjectIdRoute.DELETE id env w =
    if faults env (List.length (log w)) then
      (failure 500 "Failed to delete project",
       logged w [q_ DELETE projects_table [id]] (db w))
    else
      (match filter (id_is Project.id id) (projects (db w)) with
       | [] => failure 404 "Project not found"
       | deletedProject :: _ =>
           respond 200 (project_row deletedProject)
             (Some "Project deleted successfully")
       end,
       logged w [q_ DELETE projects_table [id]]
         (snd (Store.delete_projects (id_is Project.id id) (db w)))).
Proof.
  intros Hid. unfold ProjectIdRoute.DELETE, try_catch. rewrite Hid.
  cbn [negb]. unfold bind at 1.
  destruct (faults env (List.length (log w))) eqn:F.
  - rewrite statement_fault by exact F. reflexivity.
  - erewrite statement_run; [| exact F | reflexivity].
    unfold Store.delete_projects, logged. cbn [fst snd].
    destruct (filter (id_is Project.id id) (projects (db w))); reflexivity.
Qed.

Lemma case_DELETE_run env w id :
  uuidRegex_test id = true ->
  CaseIdRoute.DELETE id env w =
    if faults env (List.length (log w)) then
      (failure 500 "Failed to delete case",
       logged w [q_ DELETE cases_table [id]] (db w))
    else
      (match filter (id_is CaseStatus.id id) (case_status (db w)) with
       | [] => failure 404 "Case not found"
       | _ :: _ => respond 200 no_data (Some "Case deleted successfully")
       end,
       logged w [q_ DELETE cases_table [id]]
         (snd (Store.delete_cases (id_is CaseStatus.id id) (db w)))).
Proof.
  intros Hid. unfold CaseIdRoute.DELETE, try_catch. rewrite Hid.
  cbn [negb]. unfold bind at 1.
  destruct (faults env (List.length (log w))) eqn:F.
  - rewrite statement_fault by exact F. reflexivity.
  - erewrite statement_run; [| exact F | reflexivity].
    unfold Store.delete_cases, logged. cbn [fst snd].
    destruct (filter (id_is CaseStatus.id id) (case_status (db w)));
      reflexivity.
Qed.

Lemma note_DELETE_run env w id :
  uuidRegex_test id = true ->
  NoteIdRoute.DELETE id env w =
    if faults env (List.length (log w)) then
      (failure 500 "Failed to delete note",
       logged w [q_ DELETE notes_table [id]] (db w))
    else
      (match filter (id_is Note.id id) (notes (db w)) with
       | [] => failure 404 "Note not found"
       | _ :: _ => respond 200 no_data (Some "Note deleted successfully")
       end,
       logged w [q_ DELETE notes_table [id]]
         (snd (Store.delete_notes (id_is Note.id id) (db w)))).
Proof.
  intros Hid. unfold NoteIdRoute.DELETE, try_catch. rewrite Hid.
  cbn [negb]. unfold bind at 1.
  destruct (faults env (List.length (log w))) eqn:F.
  - rewrite statement_fault by exact F. reflexivity.
  - erewrite statement_run; [| exact F | reflexivity].
    unfold Store.delete_notes, logged. cbn [fst snd].
    destruct (filter (id_is Note.id id) (notes (db w))); reflexivity.
Qed.

(** A successful deletion of a project (answer 200), requested by its
    identifier in the spelling of the store, removes the rows
    with that identifier and clears projectId of every case and note that
    referenced it; the assets, and every other row and column, are as
    before. *)
Theorem project_delete_unlinks_cases_and_notes :
  forall env w id,
    canonical id = true ->
    let r := ProjectIdRoute.DELETE id env w in
    Response.status (fst r) = 200 ->
    projects (db (snd r))
    = filter (fun p => negb (String.eqb (Project.id p) id)) (projects (db w))
    /\ case_status (db (snd r))
       = map (fun c =>
                if eq_col (CaseStatus.projectId c) id
                then Store.case_with_refs (CaseStatus.assetId c) None c
                else c)
           (case_status (db w))
    /\ notes (db (snd r))
       = map (fun n =>
                if eq_col (Note.projectId n) id
                then Store.note_with_refs (Note.assetId n) None
                       (Note.caseId n) n
                else n)
           (notes (db w))
    /\ assets (db (snd r)) = assets (db w).
Proof.
  intros env w id _ r Hok. subst r.
  destruct (uuidRegex_test id) eqn:Hid.
  2:{ unfold ProjectIdRoute.DELETE, try_catch in Hok. rewrite Hid in Hok.
      cbn in Hok. discriminate Hok. }
  rewrite (project_DELETE_run env w id Hid) in *.
  destruct (faults env (List.length (log w))); [cbn in Hok; discriminate Hok|].
  unfold Store.delete_projects, logged in *.
  cbn [fst snd db assets projects case_status notes] in *.
  assert (Hgone : forall ref,
             Store.set_null
               (Store.ids_of Project.id
                  (filter (id_is Project.id id) (projects (db w)))) ref
             = if eq_col ref id then None else ref).
  { intros ref. apply set_null_one. intros i. apply ids_of_one.
    intros Hnil. rewrite Hnil in Hok. cbn in Hok. discriminate Hok. }
  clear Hok. split; [reflexivity|]. split; [|split; [|reflexivity]].
  - apply map_ext. intros c. rewrite Hgone.
    destruct (eq_col (CaseStatus.projectId c) id); [reflexivity|].
    destruct c; reflexivity.
  - apply map_ext. intros n. rewrite Hgone.
    destruct (eq_col (Note.projectId n) id); [reflexivity|].
    destruct n; reflexivity.
Qed.

(** A successful deletion of a case (answer 200), requested by its
    identifier in the spelling of the store, removes the rows with
    that identifier and clears caseId of every note that referenced it;
    the assets, the projects and every other note are as before. *)
Theorem case_delete_unlinks_notes :
  forall env w id,
    canonical id = true ->
    let r := CaseIdRoute.DELETE id env w in
    Response.status (fst r) = 200 ->
    case_status (db (snd r))
    = filter (fun c => negb (String.eqb (CaseStatus.id c) id))
        (case_status (db w))
    /\ notes (db (snd r))
       = map (fun n =>
                if eq_col (Note.caseId n) id
                then Store.note_with_refs (Note.assetId n)
                       (Note.projectId n) None n
                else n)
           (notes (db w))
    /\ assets (db (snd r)) = assets (db w)
    /\ projects (db (snd r)) = projects (db w).
Proof.
  intros env w id _ r Hok. subst r.
  destruct (uuidRegex_test id) eqn:Hid.
  2:{ unfold CaseIdRoute.DELETE, try_catch in Hok. rewrite Hid in Hok.
      cbn in Hok. discriminate Hok. }
  rewrite (case_DELETE_run env w id Hid) in *.
  destruct (faults env (List.length (log w))); [cbn in Hok; discriminate Hok|].
  unfold Store.delete_cases, logged in *.
  cbn [fst snd db assets projects case_status notes] in *.
  assert (Hgone : forall ref,
             Store.set_null
               (Store.ids_of CaseStatus.id
                  (filter (id_is CaseStatus.id id) (case_status (db w)))) ref
             = if eq_col ref id then None else ref).
  { intros ref. apply set_null_one. intros i. apply ids_of_one.
    intros Hnil. rewrite Hnil in Hok. cbn in Hok. discriminate Hok. }
  clear Hok. split; [reflexivity|]. split; [|split; reflexivity].
  apply map_ext. intros n. rewrite Hgone.
  destruct (eq_col (Note.caseId n) id); [reflexivity|].
  destruct n; reflexivity.
Qed.

(** Deleting a note with a well-formed identifier in the spelling of the
    store, when the store does not fail: the answer is 404 exactly when no note has the identifier,
    and 200 otherwise; either way the notes with the identifier are gone,
    the other notes are kept in their order, and no other table changes. *)
Theorem note_delete_removes_only_the_note :
  forall env w id,
    uuidRegex_test id = true ->
    canonical id = true ->
    faults env (List.length (log w)) = false ->
    let r := NoteIdRoute.DELETE id env w in
    (Store.has_note (db w) id = false ->
       fst r = failure 404 "Note not found" /\ db (snd r) = db w)
    /\ (Store.has_note (db w) id = true ->
          fst r = respond 200 no_data (Some "Note deleted successfully"))
    /\ notes (db (snd r))
       = filter (fun n => negb (String.eqb (Note.id n) id)) (notes (db w))
    /\ Store.has_note (db (snd r)) id = false
    /\ assets (db (snd r)) = assets (db w)
    /\ projects (db (snd r)) = projects (db w)
    /\ case_status (db (snd r)) = case_status (db w).
Proof.
  intros env w id Hid _ F r. subst r.
  rewrite (note_DELETE_run env w id Hid), F.
  unfold Store.delete_notes, logged.
  cbn [fst snd db assets projects case_status notes].
  split; [|split; [|split; [reflexivity|split; [|repeat split]]]].
  - intros Hno. unfold Store.has_note in Hno.
    assert (Hnil : filter (id_is Note.id id) (notes (db w)) = []).
    { destruct (filter (id_is Note.id id) (notes (db w))) as [|n rest] eqn:Hf;
        [reflexivity|].
      assert (Hin : In n (filter (id_is Note.id id) (notes (db w))))
        by (rewrite Hf; now left).
      apply filter_In in Hin. destruct Hin as [Hin Hn].
      assert (Hex : existsb (fun n => String.eqb (Note.id n) id)
                      (notes (db w)) = true)
        by (apply existsb_exists; exists n; split; assumption).
      rewrite Hex in Hno. discriminate Hno. }
    rewrite Hnil. split; [reflexivity|].
    destruct (db w) as [a p c ns]. cbn [assets projects case_status notes] in *.
    f_equal. clear - Hnil. induction ns as [|n ns IH]; [reflexivity|].
    cbn [filter] in *. destruct (id_is Note.id id n); [discriminate Hnil|].
    cbn [negb]. f_equal. exact (IH Hnil).
  - intros Hhas. destruct (existsb_filter _ _ Hhas) as [n [rest [Hf _]]].
    unfold id_is. rewrite Hf. reflexivity.
  - unfold Store.has_note. cbn [notes]. apply not_true_is_false.
    intros Hex. apply existsb_exists in Hex. destruct Hex as [n [Hin Hn]].
    apply filter_In in Hin. destruct Hin as [_ Hneg].
    unfold id_is in Hneg. rewrite Hn in Hneg. discriminate Hneg.
Qed.

(** ** Deleting several projects *)

Lemma ids_of_among {R} (key : R -> string) (ids : list string)
  (rows : list R) (i : string) :
  Store.ids_of key (filter (fun r => existsb (String.eqb (key r)) ids) rows) i
  = existsb (String.eqb i) ids
    && existsb (fun r => String.eqb (key r) i) rows.
Proof.
  unfold Store.ids_of. apply eq_true_iff_eq.
  rewrite andb_true_iff, !existsb_exists. split.
  - intros [r [Hin Hr]]. apply filter_In in Hin. destruct Hin as [Hin Hex].
    apply String.eqb_eq in Hr. subst i. split.
    + apply existsb_exists in Hex. destruct Hex as [j [Hj Hrj]].
      exists j. split; [exact Hj|]. exact Hrj.
    + exists r. split; [exact Hin|apply String.eqb_refl].
  - intros [[j [Hj Hij]] [r [Hin Hr]]].
    apply String.eqb_eq in Hij, Hr. subst j.
    exists r. split; [|rewrite Hr; apply String.eqb_refl].
    apply filter_In. split; [exact Hin|].
    apply existsb_exists. exists i. split; [exact Hj|].
    rewrite Hr. apply String.eqb_refl.
Qed.

(** A bulk deletion of projects whose identifiers are all well-formed
    and in the spelling of the store, when the store does not fail: the answer is 200 with the deleted rows,
    also when no row has one of the identifiers; the projects with one of
    the identifiers are gone, the cases and notes that referenced one of
    them have projectId null, and nothing else changes. *)
Theorem projects_bulk_delete_unlinks :
  forall env w raw ids,
    ids_or_refusal (Some raw) "Project IDs are required"
      "Invalid project IDs provided" = inr ids ->
    forallb canonical ids = true ->
    faults env (List.length (log w)) = false ->
    let r := ProjectsRoute.DELETE (Some raw) env w in
    let among (p : Project.t) := existsb (String.eqb (Project.id p)) ids in
    let deleted_ref (ref : option string) :=
      match ref with
      | Some i => existsb (String.eqb i) ids && Store.has_project (db w) i
      | None => false
      end in
    fst r = respond 200 (project_rows (filter among (projects (db w))))
              (Some (count_message
                       (List.length (filter among (projects (db w))))
                       " projects deleted successfully"))
    /\ projects (db (snd r))
       = filter (fun p => negb (among p)) (projects (db w))
    /\ case_status (db (snd r))
       = map (fun c =>
                if deleted_ref (CaseStatus.projectId c)
                then Store.case_with_refs (CaseStatus.assetId c) None c
                else c)
           (case_status (db w))
    /\ notes (db (snd r))
       = map (fun n =>
                if deleted_ref (Note.projectId n)
                then Store.note_with_refs (Note.assetId n) None
                       (Note.caseId n) n
                else n)
           (notes (db w))
    /\ assets (db (snd r)) = assets (db w).
Proof.
  intros env w raw ids Hids _ F r among deleted_ref.
  assert (Hrun : r =
            (respond 200 (project_rows (filter among (projects (db w))))
               (Some (count_message
                        (List.length (filter among (projects (db w))))
                        " projects deleted successfully")),
             logged w [q_ DELETE projects_table ids]
               (snd (Store.delete_projects among (db w))))).
  { subst r. unfold ProjectsRoute.DELETE, try_catch. rewrite Hids.
    unfold bind at 1. erewrite statement_run; [| exact F | reflexivity].
    reflexivity. }
  rewrite Hrun. clear Hrun r. unfold Store.delete_projects, logged.
  cbn [fst snd db assets projects case_status notes].
  assert (Hgone : forall ref,
             Store.set_null
               (Store.ids_of Project.id (filter among (projects (db w)))) ref
             = if deleted_ref ref then None else ref).
  { intros [i|]; [|reflexivity]. cbn [Store.set_null deleted_ref].
    unfold among. rewrite ids_of_among. unfold Store.has_project.
    reflexivity. }
  split; [reflexivity|]. split; [reflexivity|].
  split; [|split; [|reflexivity]].
  - apply map_ext. intros c. rewrite Hgone.
    destruct (deleted_ref (CaseStatus.projectId c)); [reflexivity|].
    destruct c; reflexivity.
  - apply map_ext. intros n. rewrite Hgone.
    destruct (deleted_ref (Note.projectId n)); [reflexivity|].
    destruct n; reflexivity.
Qed.

(** ** Assigning and unassigning *)

Lemma filter_id_absent {R} (key : R -> string) (id : string) (rows : list R) :
  existsb (fun r => String.eqb (key r) id) rows = false ->
  filter (id_is key id) rows = [].
Proof.
  induction rows as [|r rows IH]; [reflexivity|].
  cbn [existsb filter]. unfold id_is at 1.
  destruct (String.eqb (key r) id); [discriminate|]. exact IH.
Qed.

(** Assigning a project needs the asset, then the project. With
    identifiers in the spelling of the store: when the
    asset is missing the answer is the 404 error "Asset not found"; when
    the asset is there and the project is missing, "Project not found";
    the store is left as it was. *)
Theorem assign_needs_asset_then_project :
  forall env w assetId projectId,
    uuidRegex_test assetId = true ->
    uuidRegex_test projectId = true ->
    canonical assetId = true ->
    canonical projectId = true ->
    no_faults env ->
    let r := AssetProjectRoute.PUT assetId projectId env w in
    (Store.has_asset (db w) assetId = false ->
       fst r = failure 404 "Asset not found" /\ db (snd r) = db w)
    /\ (Store.has_asset (db w) assetId = true ->
        Store.has_project (db w) projectId = false ->
          fst r = failure 404 "Project not found" /\ db (snd r) = db w).
Proof.
  intros env w assetId projectId Ha Hp _ _ Hnf r.
  remember (AssetProjectRoute.PUT assetId projectId env w) as r0 eqn:Hr.
  subst r.
  unfold AssetProjectRoute.PUT, try_catch, AssetProjectRoute.bad_ids,
    select_asset, select_project in Hr.
  rewrite Ha, Hp in Hr. cbn [negb orb] in Hr. unfold bind at 1 in Hr.
  rewrite query_run in Hr by apply Hnf. split.
  - intros Hno. rewrite (filter_id_absent Asset.id assetId _ Hno) in Hr.
    rewrite Hr. split; reflexivity.
  - intros Hhas Hno.
    destruct (existsb_filter _ _ Hhas) as [asset [rest [Hf _]]].
    unfold id_is at 1 in Hr. rewrite Hf in Hr.
    unfold bind at 1 in Hr. rewrite query_run in Hr by apply Hnf.
    cbn [db] in Hr.
    rewrite (filter_id_absent Project.id projectId _ Hno) in Hr.
    rewrite Hr. split; reflexivity.
Qed.

(** The world after a project has been assigned. *)
Lemma assign_run env w assetId projectId :
  uuidRegex_test assetId = true ->
  uuidRegex_test projectId = true ->
  no_faults env ->
  Store.has_asset (db w) assetId = true ->
  Store.has_project (db w) projectId = true ->
  snd (AssetProjectRoute.PUT assetId projectId env w)
  = {| db := {| assets := assets (db w);
                projects :=
                  Store.update_rows (id_is Project.id projectId)
                    (Store.set_project
                       (Store.set_assignment (Some assetId)
                          (Some (clock env (ticks w)))
                          (Some (clock env (S (ticks w))))))
                    (projects (db w));
                case_status := case_status (db w);
                notes := notes (db w) |};
       log := ((log w ++ [q_ SELECT assets_table [assetId]])
               ++ [q_ SELECT projects_table [projectId]])
              ++ [q_ UPDATE projects_table [assetId; projectId]];
       ticks := S (S (ticks w)); draws := draws w |}.
Proof.
  intros Ha Hp Hnf HasA HasP.
  destruct (existsb_filter _ _ HasA) as [asset [arest [HfA _]]].
  destruct (existsb_filter _ _ HasP) as [proj [prest [HfP _]]].
  unfold AssetProjectRoute.PUT, try_catch,
    AssetProjectRoute.bad_ids, select_asset, select_project.
  rewrite Ha, Hp. cbn [negb orb]. unfold bind at 1.
  rewrite query_run by apply Hnf. unfold id_is at 1. rewrite HfA.
  unfold bind at 1. rewrite query_run by apply Hnf.
  cbn [db]. unfold id_is at 1. rewrite HfP.
  unfold bind, new_Date. cbn [db log ticks draws].
  erewrite statement_run;
    [| apply Hnf | apply update_projects_assign; exact HasA].
  cbn [db]. unfold Store.returning, id_is at 1. rewrite HfP.
  reflexivity.
Qed.

(** Unassigning a project right after it has been assigned: the answer
    is 200 and the project is left with no asset and no assignment date,
    whatever its assignment was before the two calls; its other columns
    but updatedAt, the other projects and the other tables are as they
    were before the two calls. *)
Theorem unassign_after_assign :
  forall env w assetId projectId,
    uuidRegex_test assetId = true ->
    uuidRegex_test projectId = true ->
    no_faults env ->
    Store.has_asset (db w) assetId = true ->
    Store.has_project (db w) projectId = true ->
    let w1 := snd (AssetProjectRoute.PUT assetId projectId env w) in
    let r := AssetProjectRoute.DELETE assetId projectId env w1 in
    Response.status (fst r) = 200
    /\ projects (db (snd r))
       = map (fun q =>
                if String.eqb (Project.id q) projectId
                then {| Project.id := Project.id q;
                        Project.name := Project.name q;
                        Project.description := Project.description q;
                        Project.status := Project.status q;
                        Project.assetId := None;
                        Project.startDate := Project.startDate q;
                        Project.endDate := Project.endDate q;
                        Project.assignedAt := None;
                        Project.createdAt := Project.createdAt q;
                        Project.updatedAt := clock env (S (S (ticks w))) |}
                else q)
           (projects (db w))
    /\ assets (db (snd r)) = assets (db w)
    /\ case_status (db (snd r)) = case_status (db w)
    /\ notes (db (snd r)) = notes (db w).
Proof.
  intros env w assetId projectId Ha Hp Hnf HasA HasP w1 r.
  subst r w1. rewrite (assign_run env w assetId projectId Ha Hp Hnf HasA HasP).
  set (assigned := Store.set_project
                     (Store.set_assignment (Some assetId)
                        (Some (clock env (ticks w)))
                        (Some (clock env (S (ticks w)))))).
  destruct (existsb_filter _ _ HasP) as [proj [prest [HfP HidP]]].
  assert (Hfound :
            exists x rest,
              filter (AssetProjectRoute.is_assignment assetId projectId)
                (Store.update_rows (id_is Project.id projectId) assigned
                   (projects (db w))) = x :: rest).
  { assert (Hin : In proj (projects (db w))).
    { assert (H : In proj (filter (fun p => String.eqb (Project.id p) projectId)
                             (projects (db w))))
        by (rewrite HfP; now left).
      apply filter_In in H. tauto. }
    assert (Hex : existsb (AssetProjectRoute.is_assignment assetId projectId)
                    (Store.update_rows (id_is Project.id projectId) assigned
                       (projects (db w))) = true).
    { apply existsb_exists. exists (assigned proj). split.
      - unfold Store.update_rows. apply in_map_iff. exists proj.
        split; [|exact Hin]. unfold id_is. now rewrite HidP.
      - unfold AssetProjectRoute.is_assignment, id_is, assigned_to, assigned.
        cbn. rewrite HidP, String.eqb_refl. reflexivity. }
    destruct (existsb_filter _ _ Hex) as [x [rest [Hf _]]].
    now exists x, rest. }
  destruct Hfound as [x [rest Hfound]].
  remember (AssetProjectRoute.DELETE assetId projectId _ _) as r eqn:Hr.
  unfold AssetProjectRoute.DELETE, try_catch, AssetProjectRoute.bad_ids in Hr.
  rewrite Ha, Hp in Hr. cbn [negb orb] in Hr. unfold bind at 1 in Hr.
  rewrite query_run in Hr by apply Hnf. cbn [db projects] in Hr.
  rewrite Hfound in Hr.
  unfold bind, new_Date in Hr. cbn [db log ticks draws] in Hr.
  erewrite statement_run in Hr;
    [| apply Hnf | apply update_projects_unassign].
  cbn [db projects assets case_status notes] in Hr.
  assert (Hrows :
            Store.update_rows (id_is Project.id projectId)
              (Store.set_project
                 (Store.set_assignment None None
                    (Some (clock env (S (S (ticks w)))))))
              (Store.update_rows (id_is Project.id projectId) assigned
                 (projects (db w)))
            = map (fun q =>
                if String.eqb (Project.id q) projectId
                then {| Project.id := Project.id q;
                        Project.name := Project.name q;
                        Project.description := Project.description q;
                        Project.status := Project.status q;
                        Project.assetId := None;
                        Project.startDate := Project.startDate q;
                        Project.endDate := Project.endDate q;
                        Project.assignedAt := None;
                        Project.createdAt := Project.createdAt q;
                        Project.updatedAt := clock env (S (S (ticks w))) |}
                else q)
                (projects (db w))).
  { unfold Store.update_rows. rewrite map_map. apply map_ext. intros q.
    unfold id_is. destruct (String.eqb (Project.id q) projectId) eqn:E.
    - unfold assigned. cbn. rewrite E. reflexivity.
    - rewrite E. reflexivity. }
  rewrite Hrows in Hr.
  destruct (Store.returning (id_is Project.id projectId) _ _)
    as [|u us] eqn:Hret.
  - exfalso. unfold Store.returning in Hret. apply map_eq_nil in Hret.
    assert (Hnil : filter (AssetProjectRoute.is_assignment assetId projectId)
                     (Store.update_rows (id_is Project.id projectId) assigned
                        (projects (db w))) = []).
    { eapply filter_nil_weaken; [|exact Hret].
      intros y Hy. unfold AssetProjectRoute.is_assignment in Hy.
      apply andb_true_iff in Hy. tauto. }
    rewrite Hnil in Hfound. discriminate Hfound.
  - rewrite Hr. repeat split; reflexivity.
Qed.

(** ** Creating a project *)

Ltac break_in H :=
  repeat (cbn in H;
          match type of H with
          | context [match ?x with _ => _ end] =>
              lazymatch x with
              | context [match _ with _ => _ end] => fail
              | _ => destruct x eqn:?
              end
          end).

Ltac split_valid H :=
  repeat match type of H with
         | _ <*> _ = Valid _ =>
             apply ap_valid_inv in H;
             let f := fresh "f" in let a := fresh "a" in
             let Ha := fresh "Ha" in
             destruct H as [f [a [H [Ha ->]]]]
         end.

(** A validated reference to an asset is in the identifier format. *)
Lemma asset_ref_format env v s :
  Schema.asset_ref env v = Valid (Some (Some s)) -> zod_uuid env s = true.
Proof.
  unfold Schema.asset_ref, optional, z_union_null, Schema.uuid_of, res_map.
  destruct v as [[| b | q | t | l | o]|]; try discriminate.
  destruct (zod_uuid env t) eqn:E; [|discriminate].
  intros H. injection H as <-. exact E.
Qed.

Lemma insert_project_ref env body v s :
  Schema.insertProjectSchema env body = Valid v ->
  ProjectInput.assetId v = Some (Some s) -> zod_uuid env s = true.
Proof.
  unfold Schema.insertProjectSchema. destruct body; try discriminate.
  intros H. split_valid H. injection H as <-.
  cbn [ProjectInput.assetId]. intros Hs. rewrite Hs in *.
  eapply asset_ref_format. eassumption.
Qed.

(** With a reference in the identifier format, [assetId ? .. : ..] takes
    its first branch exactly when the reference is not null. *)
Lemma ref_truthy_flatten env (ref : option (option string)) :
  zod_uuid env "" = false ->
  (forall s, ref = Some (Some s) -> zod_uuid env s = true) ->
  ref_truthy ref = isNotNull (flatten ref).
Proof.
  intros Hempty Hfmt. destruct ref as [[s|]|]; try reflexivity.
  cbn. destruct s as [|c s]; [|reflexivity].
  rewrite (Hfmt "" eq_refl) in Hempty. discriminate Hempty.
Qed.

(** A project that has been created (answer 201) is stored after the
    projects there were, refers to an asset of the store or to none, and
    has an assignment date exactly when it has an asset: creation keeps
    the rule on assetId and assignedAt, whatever assignedAt the payload
    brings. The empty string is taken to be no identifier. *)
Theorem created_project_is_consistent :
  forall env w body,
    zod_uuid env "" = false ->
    let r := ProjectsRoute.POST body env w in
    Response.status (fst r) = 201 ->
    exists p a,
      fst r = respond 201 (project_with_asset p a)
                (Some "Project created successfully")
      /\ projects (db (snd r)) = (projects (db w) ++ [p])%list
      /\ assignment_consistent p = true
      /\ Store.fk (Store.has_asset (db w)) (Project.assetId p) = true
      /\ assets (db (snd r)) = assets (db w)
      /\ case_status (db (snd r)) = case_status (db w)
      /\ notes (db (snd r)) = notes (db w).
Proof.
  intros env w body Hempty r Hok.
  remember (ProjectsRoute.POST body env w) as r0 eqn:Hr. subst r.
  unfold ProjectsRoute.POST, try_catch in Hr.
  unfold bind at 1 in Hr. unfold ask in Hr. unfold bind at 1 in Hr.
  destruct (Schema.insertProjectSchema env body) as [v|errs|errs] eqn:Hv;
    [| subst r0; cbn in Hok; discriminate Hok ..].
  pose proof (ref_truthy_flatten env (ProjectInput.assetId v) Hempty
                (fun s => insert_project_ref env body v s Hv)) as Htruthy.
  clear Hv.
  unfold parse, ret in Hr. unfold bind at 1 in Hr.
  unfold assignedAt_for, ProjectsRoute.insert, ProjectsRoute.new_row,
    associated_asset, select_asset, query in Hr.
  unfold bind, ret, new_Date, draw_uuid, statement, throw,
    Store.insert_project in Hr.
  destruct (ref_truthy (ProjectInput.assetId v)) eqn:Ht;
    break_in Hr; subst r0; cbn in Hok; try discriminate Hok;
    (eexists; eexists; split; [reflexivity|]; split; [reflexivity|];
     split; [|split; [|repeat split]]);
    try (unfold assignment_consistent; cbn;
         destruct (flatten (ProjectInput.assetId v));
         cbn in *; congruence);
    try match goal with
        | H : (_ && _)%bool = true |- _ =>
            apply andb_true_iff in H; destruct H as [_ H]; cbn;
            try exact H; try (rewrite <- H; reflexivity)
        end.
Qed.

(** ** Updating a project with its asset *)

Lemma asset_ref_given env v r :
  v <> None ->
  Schema.asset_ref env v = Valid r ->
  exists ref, r = Some ref /\ forall s, ref = Some s -> zod_uuid env s = true.
Proof.
  intros Hv H. destruct r as [ref|].
  - exists ref. split; [reflexivity|]. intros s ->.
    eapply asset_ref_format. exact H.
  - exfalso. unfold Schema.asset_ref, optional, z_union_null, res_map in H.
    destruct v as [[| b | q | t | l | o]|]; try discriminate H;
      [|congruence].
    destruct (Schema.uuid_of env t); discriminate H.
Qed.

Lemma update_project_ref env body s :
  Schema.updateProjectSchema env body = Valid s ->
  prop "assetId" body <> None ->
  exists ref,
    ProjectSet.assetId s = Some ref
    /\ forall x, ref = Some x -> zod_uuid env x = true.
Proof.
  unfold Schema.updateProjectSchema. destruct body; try discriminate.
  intros H Hgiven. split_valid H. injection H as <-.
  cbn [ProjectSet.assetId].
  eapply asset_ref_given; eassumption.
Qed.

Lemma returning_updated {R} (where_ : R -> bool) (set : R -> R)
  (rows : list R) (u : R) :
  In u (Store.returning where_ set rows) ->
  exists x, In x rows /\ where_ x = true /\ u = set x
            /\ In u (Store.update_rows where_ set rows).
Proof.
  unfold Store.returning, Store.update_rows. intros Hin.
  apply in_map_iff in Hin. destruct Hin as [x [Hx Hin]].
  apply filter_In in Hin. destruct Hin as [Hin Hw].
  exists x. repeat split; [exact Hin|exact Hw|now symmetry|].
  apply in_map_iff. exists x. rewrite Hw. split; [exact Hx|exact Hin].
Qed.

(** An update of a project, requested by its identifier in the spelling
    of the store, whose payload gives assetId (an identifier or
    null) and that is answered 200 leaves the project with an assignment
    date exactly when it has an asset, whatever assignedAt the payload
    brings: the date is the clock reading of the call for an identifier,
    null for null. The empty string is taken to be no identifier. *)
Theorem update_with_assetId_is_consistent :
  forall env w id body,
    zod_uuid env "" = false ->
    canonical id = true ->
    prop "assetId" body <> None ->
    let r := ProjectIdRoute.PUT id body env w in
    Response.status (fst r) = 200 ->
    exists p a,
      fst r = respond 200 (project_with_asset p a)
                (Some "Project updated successfully")
      /\ In p (projects (db (snd r)))
      /\ Project.id p = id
      /\ assignment_consistent p = true
      /\ (Project.assetId p <> None ->
            Project.assignedAt p = Some (clock env (ticks w))).
Proof.
  intros env w id body Hempty _ Hgiven r Hok.
  remember (ProjectIdRoute.PUT id body env w) as r0 eqn:Hr. subst r.
  unfold ProjectIdRoute.PUT, try_catch in Hr.
  destruct (uuidRegex_test id) eqn:Hid;
    [| subst r0; cbn in Hok; discriminate Hok].
  cbn [negb] in Hr.
  unfold bind at 1 in Hr. unfold ask in Hr. unfold bind at 1 in Hr.
  destruct (Schema.updateProjectSchema env body) as [s|errs|errs] eqn:Hs;
    [| subst r0; cbn in Hok; discriminate Hok ..].
  destruct (update_project_ref env body s Hs Hgiven) as [ref [Href Hfmt]].
  pose proof (ref_truthy_flatten env (Some ref) Hempty) as Htruthy.
  cbn [flatten] in Htruthy. clear Hs.
  unfold parse, ret in Hr. unfold bind at 1 in Hr.
  rewrite Href in Hr. unfold assignedAt_for in Hr.
  rewrite Htruthy in Hr by (intros x Hx; apply Hfmt; congruence).
  clear Htruthy.
  set (at_ := if isNotNull ref then Some (clock env (ticks w)) else None).
  set (w1 := if isNotNull ref
             then {| db := db w; log := log w; ticks := S (ticks w);
                     draws := draws w |}
             else w).
  assert (Hat : (if isNotNull ref
                 then (now <- new_Date ;; ret (Some now))
                 else ret None) env w = (inr at_, w1))
    by (unfold at_, w1; destruct (isNotNull ref); reflexivity).
  rewrite Hat in Hr. clear Hat.
  unfold bind at 1 in Hr. unfold new_Date at 1 in Hr.
  unfold bind at 1 in Hr.
  set (s' := with_assignedAt s at_ (clock env (ticks w1))) in *.
  unfold statement in Hr. cbn [db log ticks draws] in Hr.
  assert (Hdb : db w1 = db w) by (unfold w1; destruct (isNotNull ref); reflexivity).
  rewrite Hdb in Hr.
  destruct (faults env (List.length (log w1)));
    [subst r0; cbn in Hok; discriminate Hok|].
  destruct (Store.update_projects (id_is Project.id id) s' (db w))
    as [[updated d']|] eqn:Hup;
    [| subst r0; cbn in Hok; discriminate Hok].
  unfold Store.update_projects in Hup.
  destruct (forallb _ _) in Hup; [|discriminate Hup].
  injection Hup as <- <-.
  destruct (Store.returning (id_is Project.id id) (Store.set_project s')
              (projects (db w))) as [|u us] eqn:Hret;
    [subst r0; cbn in Hok; discriminate Hok|].
  assert (Hu : In u (Store.returning (id_is Project.id id)
                       (Store.set_project s') (projects (db w))))
    by (rewrite Hret; now left).
  apply returning_updated in Hu. destruct Hu as [x [Hx [Hidx [Hux Hu]]]].
  assert (Hres : exists a,
             r0 = (respond 200 (project_with_asset u a)
                     (Some "Project updated successfully"),
                   snd r0)
             /\ db (snd r0)
                = {| assets := assets (db w);
                     projects := Store.update_rows (id_is Project.id id)
                                   (Store.set_project s') (projects (db w));
                     case_status := case_status (db w);
                     notes := notes (db w) |}).
  { unfold associated_asset, select_asset, query, statement in Hr.
    unfold bind, ret in Hr. cbn [db log ticks draws] in Hr.
    destruct (Project.assetId u) as [i|];
      [destruct (Js.truthy i)|];
      try (destruct (faults env _);
           [subst r0; cbn in Hok; discriminate Hok|]);
      subst r0; eexists; split; reflexivity. }
  destruct Hres as [a [Hr0 Hd]].
  exists u, a. split; [rewrite Hr0; reflexivity|].
  split; [rewrite Hd; exact Hu|].
  split; [rewrite Hux; cbn; unfold id_is in Hidx;
          now apply String.eqb_eq|].
  assert (Hua : Project.assetId u = ref)
    by (rewrite Hux; unfold s'; cbn; rewrite Href; reflexivity).
  assert (Hut : Project.assignedAt u = at_)
    by (rewrite Hux; unfold s'; reflexivity).
  split.
  - unfold assignment_consistent. rewrite Hua, Hut. unfold at_.
    destruct ref; reflexivity.
  - rewrite Hua, Hut. unfold at_. destruct ref; [reflexivity|congruence].
Qed.

(** ** Creating a project for an asset *)

(** The asset joined to a reference is the first row of that key. *)
Lemma join_asset_first (d : DB) (id : string) :
  Store.join_asset d (Some id)
  = hd_error (filter (id_is Asset.id id) (assets d)).
Proof.
  unfold Store.join_asset, id_is.
  induction (assets d) as [|a l IH]; [reflexivity|].
  cbn [find filter]. destruct (String.eqb (Asset.id a) id);
    [reflexivity|exact IH].
Qed.

(** Creating a project under an asset, designated by its identifier in
    the spelling of the store. When the asset is missing the
    answer is the 404 error "Asset not found", whatever the body, and the
    store is left as it was. A project that has been created (answer 201)
    is stored after the projects there were, assigned to the asset of the
    path, which exists, with the first clock reading of the call as its
    assignment date and the second as its date of update; an id, assetId,
    assignedAt or updatedAt of the body is not used. *)
Theorem project_created_for_asset :
  forall env w id body,
    canonical id = true ->
    let r := AssetProjectsRoute.POST id body env w in
    (uuidRegex_test id = true ->
     faults env (List.length (log w)) = false ->
     Store.has_asset (db w) id = false ->
       fst r = failure 404 "Asset not found" /\ db (snd r) = db w)
    /\ (Response.status (fst r) = 201 ->
          exists p asset,
            fst r = respond 201 (project_with_asset p (Some asset))
                      (Some "Project created and assigned to asset successfully")
            /\ projects (db (snd r)) = (projects (db w) ++ [p])%list
            /\ Store.join_asset (db w) (Some id) = Some asset
            /\ Project.id p = gen_random_uuid env (draws w)
            /\ Project.assetId p = Some id
            /\ Project.assignedAt p = Some (clock env (ticks w))
            /\ Project.updatedAt p = clock env (S (ticks w))
            /\ assets (db (snd r)) = assets (db w)
            /\ case_status (db (snd r)) = case_status (db w)
            /\ notes (db (snd r)) = notes (db w)).
Proof.
  intros env w id body _ r.
  remember (AssetProjectsRoute.POST id body env w) as r0 eqn:Hr. subst r.
  unfold AssetProjectsRoute.POST, try_catch, select_asset, query in Hr.
  split.
  - intros Hid F Hno. rewrite Hid in Hr. cbn [negb] in Hr.
    unfold bind at 1 in Hr.
    erewrite statement_run in Hr; [| exact F | reflexivity].
    rewrite (filter_id_absent Asset.id id _ Hno) in Hr.
    rewrite Hr. split; reflexivity.
  - intros Hok.
    destruct (uuidRegex_test id) eqn:Hid;
      [| subst r0; cbn in Hok; discriminate Hok].
    cbn [negb] in Hr. unfold bind at 1 in Hr. unfold statement in Hr.
    destruct (faults env (List.length (log w)));
      [subst r0; cbn in Hok; discriminate Hok|].
    pose proof (join_asset_first (db w) id) as Hjoin.
    destruct (filter (id_is Asset.id id) (assets (db w))) as [|asset rest];
      [subst r0; cbn in Hok; discriminate Hok|].
    cbn [hd_error] in Hjoin.
    unfold bind at 1 in Hr. unfold ask in Hr. unfold bind at 1 in Hr.
    destruct (AssetProjectsRoute.projectSchema env body)
      as [v|errs|errs] eqn:Hv;
      [| subst r0; cbn in Hok; discriminate Hok ..].
    assert (Hvid : ProjectInput.id v = None
                   /\ ProjectInput.createdAt v = None).
    { unfold AssetProjectsRoute.projectSchema in Hv.
      destruct body; try discriminate Hv.
      split_valid Hv. injection Hv as <-. split; reflexivity. }
    destruct Hvid as [Hvid Hvc]. clear Hv.
    unfold parse, ret in Hr.
    unfold ProjectsRoute.insert, ProjectsRoute.new_row,
      AssetProjectsRoute.assigned_to_asset in Hr.
    cbn [ProjectInput.id ProjectInput.createdAt ProjectInput.assetId
         ProjectInput.name ProjectInput.description ProjectInput.status
         ProjectInput.startDate ProjectInput.endDate flatten] in Hr.
    rewrite Hvid, Hvc in Hr.
    unfold bind, ret, new_Date, draw_uuid, statement, throw,
      Store.insert_project in Hr.
    cbn [db log ticks draws] in Hr.
    break_in Hr; subst r0; cbn in Hok; try discriminate Hok.
    eexists. exists asset. split; [reflexivity|].
    split; [reflexivity|]. split; [exact Hjoin|].
    repeat split; reflexivity.
Qed.

(** ** Updating a case *)

(** [sanitizeNullableId] yields null, a string that is not empty and has
    no white space around it, or the value it was given when that is no
    string; applying it again changes nothing. *)
Theorem sanitizeNullableId_canonical :
  forall v : option json,
    sanitizeNullableId (Some (sanitizeNullableId v)) = sanitizeNullableId v
    /\ (forall s, sanitizeNullableId v = JStr s ->
          Js.truthy s = true /\ Js.trim s = s)
    /\ (forall s, v = Some (JStr s) ->
          sanitizeNullableId v = JNull <-> Js.trim s = "").
Proof.
  intros v. split; [|split].
  - destruct v as [[| b | q | s | l | o]|]; try reflexivity.
    cbn [sanitizeNullableId].
    destruct (Js.truthy (Js.trim s)) eqn:E; [|reflexivity].
    cbn [sanitizeNullableId]. rewrite trim_idempotent, E. reflexivity.
  - intros s. destruct v as [[| b | q | t | l | o]|]; try discriminate.
    + cbn [sanitizeNullableId].
      destruct (Js.truthy (Js.trim t)) eqn:E; [|discriminate].
      intros H. injection H as <-. split; [exact E|apply trim_idempotent].
  - intros s ->. cbn [sanitizeNullableId].
    destruct (Js.trim s) as [|c t]; cbn [Js.truthy].
    + split; reflexivity.
    + split; discriminate.
Qed.

Lemma generated_ref_sanitized env k v r :
  Schema.generated_ref env k (Some (sanitizeNullableId v)) = Valid r ->
  r = Some (ref_value v).
Proof.
  unfold Schema.generated_ref, optional, nullable, z_string_format, res_map,
    ref_value.
  destruct v as [[| b | q | s | l | o]|]; cbn [sanitizeNullableId fail_type];
    try discriminate; try (intros H; injection H as <-; reflexivity).
  destruct (Js.truthy (Js.trim s)); cbn.
  - destruct (zod_uuid env (Js.trim s)); [|discriminate].
    intros H. injection H as <-. reflexivity.
  - intros H. injection H as <-. reflexivity.
Qed.

Lemma case_payload_refs env normalized assetId projectId s :
  Schema.updateCaseStatusSchema env
    (JObj (assoc_set "projectId" (sanitizeNullableId projectId)
             (assoc_set "assetId" (sanitizeNullableId assetId) normalized)))
  = Valid s ->
  CaseSet.assetId s = Some (ref_value assetId)
  /\ CaseSet.projectId s = Some (ref_value projectId).
Proof.
  unfold Schema.updateCaseStatusSchema. intros H.
  cbn [prop] in H. rewrite !assoc_assoc_set in H.
  cbn [String.eqb Ascii.eqb Bool.eqb] in H.
  split_valid H. injection H as <-.
  cbn [CaseSet.assetId CaseSet.projectId].
  split; eapply generated_ref_sanitized; eassumption.
Qed.

(** The update of a case up to the validation of its payload. *)
Lemma case_PUT_parse env w id fields :
  uuidRegex_test id = true ->
  CaseIdRoute.PUT id (JObj fields) env w
  = match
      parse
        (Schema.updateCaseStatusSchema env
           (JObj
              (assoc_set "projectId"
                 (sanitizeNullableId (assoc "projectId" fields))
                 (assoc_set "assetId"
                    (sanitizeNullableId (assoc "assetId" fields))
                    (CaseIdRoute.normalizeCasePayload (JObj fields))))))
        env w
    with
    | (inl e, w') => (on_error_fields "Failed to update case" e, w')
    | (inr validatedData, w') =>
        try_catch
          (updated <- statement (q_ UPDATE cases_table [id])
                        (Store.update_cases (id_is CaseStatus.id id)
                           validatedData) ;;
           match updated with
           | [] => ret (failure 404 "Case not found")
           | updatedCase :: _ =>
               associatedAsset <-
                 associated_asset (CaseStatus.assetId updatedCase) ;;
               associatedProject <-
                 CaseIdRoute.associated_project
                   (CaseStatus.projectId updatedCase) ;;
               ret (respond 200
                      (case_with_links updatedCase associatedAsset
                         associatedProject)
                      (Some "Case updated successfully"))
           end)
          (on_error_fields "Failed to update case") env w'
    end.
Proof.
  intros Hid. unfold CaseIdRoute.PUT, try_catch. rewrite Hid.
  cbn [negb prop]. unfold bind at 1. unfold ask. unfold bind at 1.
  destruct (parse _ env w) as [[e|v] w']; reflexivity.
Qed.

(** An update of a case that is answered 200, with the identifier of the
    path and those of the payload in the spelling of the store, rewrites
    both links of the case from the payload: assetId and projectId of the updated case are
    the identifiers the payload gives, trimmed, and are null when the
    payload gives null, a blank string or nothing. A payload that does not
    mention a link clears it. *)
Theorem case_update_rewrites_links :
  forall env w id fields,
    canonical id = true ->
    canonical_ref (ref_value (assoc "assetId" fields)) = true ->
    canonical_ref (ref_value (assoc "projectId" fields)) = true ->
    let r := CaseIdRoute.PUT id (JObj fields) env w in
    Response.status (fst r) = 200 ->
    exists c a p,
      fst r = respond 200 (case_with_links c a p)
                (Some "Case updated successfully")
      /\ In c (case_status (db (snd r)))
      /\ CaseStatus.id c = id
      /\ CaseStatus.assetId c = ref_value (assoc "assetId" fields)
      /\ CaseStatus.projectId c = ref_value (assoc "projectId" fields).
Proof.
  intros env w id fields _ _ _ r Hok.
  remember (CaseIdRoute.PUT id (JObj fields) env w) as r0 eqn:Hr. subst r.
  destruct (uuidRegex_test id) eqn:Hid.
  2:{ exfalso. revert Hok. rewrite Hr.
      unfold CaseIdRoute.PUT, try_catch. rewrite Hid. cbn. discriminate. }
  rewrite (case_PUT_parse env w id fields Hid) in Hr.
  remember (Schema.updateCaseStatusSchema env _) as R eqn:Hs in Hr.
  symmetry in Hs.
  destruct R as [s|errs|errs];
    [| subst r0; cbn in Hok; discriminate Hok ..].
  apply case_payload_refs in Hs. destruct Hs as [Hsa Hsp].
  unfold parse, ret, try_catch in Hr. unfold bind at 1 in Hr.
  unfold statement in Hr.
  destruct (faults env (List.length (log w)));
    [subst r0; cbn in Hok; discriminate Hok|].
  destruct (Store.update_cases (id_is CaseStatus.id id) s (db w))
    as [[updated d']|] eqn:Hup;
    [| subst r0; cbn in Hok; discriminate Hok].
  unfold Store.update_cases in Hup.
  destruct (forallb _ _) in Hup; [|discriminate Hup].
  injection Hup as <- <-.
  destruct (Store.returning (id_is CaseStatus.id id) (Store.set_case s)
              (case_status (db w))) as [|u us] eqn:Hret;
    [subst r0; cbn in Hok; discriminate Hok|].
  assert (Hu : In u (Store.returning (id_is CaseStatus.id id)
                       (Store.set_case s) (case_status (db w))))
    by (rewrite Hret; now left).
  apply returning_updated in Hu. destruct Hu as [x [Hx [Hidx [Hux Hu]]]].
  assert (Hres : exists a p,
             r0 = (respond 200 (case_with_links u a p)
                     (Some "Case updated successfully"),
                   snd r0)
             /\ db (snd r0)
                = {| assets := assets (db w);
                     projects := projects (db w);
                     case_status :=
                       Store.update_rows (id_is CaseStatus.id id)
                         (Store.set_case s) (case_status (db w));
                     notes := notes (db w) |}).
  { unfold associated_asset, CaseIdRoute.associated_project, select_asset,
      select_project, query, statement in Hr.
    unfold bind, ret in Hr. cbn [db log ticks draws] in Hr.
    destruct (CaseStatus.assetId u) as [i|];
      [destruct (Js.truthy i)|];
      try (destruct (faults env _);
           [subst r0; cbn in Hok; discriminate Hok|]);
      cbn [db log ticks draws] in Hr;
      (destruct (CaseStatus.projectId u) as [j|];
       [destruct (Js.truthy j)|]);
      try (destruct (faults env _);
           [subst r0; cbn in Hok; discriminate Hok|]);
      subst r0; eexists; eexists; split; reflexivity. }
  destruct Hres as [a [p [Hr0 Hd]]].
  exists u, a, p. split; [rewrite Hr0; reflexivity|].
  split; [rewrite Hd; exact Hu|].
  split; [rewrite Hux; cbn; unfold id_is in Hidx; now apply String.eqb_eq|].
  rewrite Hux. cbn [Store.set_case CaseStatus.assetId CaseStatus.projectId].
  rewrite Hsa, Hsp. split; reflexivity.
Qed.

(** [normalizeCasePayload] takes [caseNo] for [case_no] when the payload
    has no [case_no] (or an empty or null one), and never when it has one;
    [case_no], [rtc] and [judge] are trimmed when they are strings, and
    every other key is as in the body. *)
Theorem normalizeCasePayload_keys :
  forall fields k,
    assoc k (CaseIdRoute.normalizeCasePayload (JObj fields))
    = if String.eqb k "case_no" then
        trimmed_value
          (if truthy (assoc "caseNo" fields)
              && negb (truthy (assoc "case_no" fields))
           then assoc "caseNo" fields
           else assoc "case_no" fields)
      else if String.eqb k "rtc" || String.eqb k "judge" then
        trimmed_value (assoc k fields)
      else assoc k fields.
Proof.
  intros fields k. unfold CaseIdRoute.normalizeCasePayload. cbn [spread].
  set (payload :=
         match assoc "caseNo" fields with
         | Some caseNo =>
             if truthy (Some caseNo) && negb (truthy (assoc "case_no" fields))
             then assoc_set "case_no" caseNo fields
             else fields
         | None => fields
         end).
  assert (Hp : forall k',
             assoc k' payload
             = if String.eqb k' "case_no" then
                 if truthy (assoc "caseNo" fields)
                    && negb (truthy (assoc "case_no" fields))
                 then assoc "caseNo" fields
                 else assoc "case_no" fields
               else assoc k' fields).
  { intros k'. unfold payload.
    destruct (assoc "caseNo" fields) as [caseNo|] eqn:Hc.
    - destruct (truthy (Some caseNo) && negb (truthy (assoc "case_no" fields))).
      + rewrite assoc_assoc_set. destruct (String.eqb k' "case_no"); reflexivity.
      + destruct (String.eqb k' "case_no") eqn:E; [|reflexivity].
        apply String.eqb_eq in E. now subst k'.
    - cbn [truthy andb].
      destruct (String.eqb k' "case_no") eqn:E; [|reflexivity].
      apply String.eqb_eq in E. now subst k'. }
  rewrite !assoc_trim_key, !Hp.
  destruct (String.eqb k "judge") eqn:Ej.
  - apply String.eqb_eq in Ej. subst k. reflexivity.
  - destruct (String.eqb k "rtc") eqn:Er.
    + apply String.eqb_eq in Er. subst k. reflexivity.
    + cbn [orb]. destruct (String.eqb k "case_no") eqn:Ec; [|reflexivity].
      cbn [String.eqb Ascii.eqb Bool.eqb]. reflexivity.
Qed.

(** ** The two bulk deletions of assets *)

Lemma split_comma_nonempty s : Js.split_comma s <> [].
Proof.
  destruct s as [|c s]; cbn [Js.split_comma]; [discriminate|].
  destruct (Ascii.eqb c ","); [discriminate|].
  destruct (Js.split_comma s); discriminate.
Qed.

Lemma ids_accepted_nonempty idsParam required invalid ids :
  ids_or_refusal idsParam required invalid = inr ids ->
  ids <> [] /\ forallb uuidRegex_test ids = true.
Proof.
  unfold ids_or_refusal. destruct idsParam as [raw|]; [|discriminate].
  destruct (Js.truthy raw); [|discriminate].
  destruct (filter _ _) eqn:Hf; [|discriminate].
  intros H. injection H as <-. split.
  - intros Hnil. apply map_eq_nil in Hnil.
    exact (split_comma_nonempty raw Hnil).
  - apply forallb_forall. intros i Hi.
    destruct (uuidRegex_test i) eqn:E; [reflexivity|].
    assert (Hin : In i (filter (fun i => negb (uuidRegex_test i))
                          (map Js.trim (Js.split_comma raw)))).
    { apply filter_In. split; [exact Hi|]. now rewrite E. }
    rewrite Hf in Hin. destruct Hin.
Qed.

Lemma set_project_same_ref (q : Project.t) :
  Store.set_project (Store.set_asset_ref (Project.assetId q)) q = q.
Proof. destruct q; reflexivity. Qed.

(** Unlinking the projects of the first identifier and then those of
    every identifier is unlinking those of every identifier. *)
Lemma unlink_first_then_all (ids : list string) (rows : list Project.t) :
  ids <> [] ->
  Store.update_rows (fun p => any_of ids (Project.assetId p))
    (Store.set_project AssetIdRoute.unlink_all)
    (Store.update_rows (assigned_to (hd "" ids))
       (Store.set_project AssetIdRoute.unlink_all) rows)
  = Store.update_rows (fun p => any_of ids (Project.assetId p))
      (Store.set_project AssetIdRoute.unlink_all) rows.
Proof.
  intros Hne. destruct ids as [|h ids]; [congruence|]. cbn [hd].
  unfold Store.update_rows. rewrite map_map. apply map_ext. intros p.
  unfold assigned_to, any_of. cbn [existsb].
  destruct (eq_col (Project.assetId p) h) eqn:E.
  - cbn [orb Store.set_project AssetIdRoute.unlink_all Store.set_assignment
         ProjectSet.assetId Store.over Project.assetId existsb eq_col].
    assert (Hno : existsb (eq_col None) ids = false)
      by (clear; induction ids; [reflexivity|exact IHids]).
    rewrite Hno. reflexivity.
  - rewrite E. reflexivity.
Qed.

Lemma unlink_one_is_all (h : string) (rows : list Project.t) :
  Store.update_rows (assigned_to h)
    (Store.set_project AssetIdRoute.unlink_all) rows
  = Store.update_rows (fun p => any_of [h] (Project.assetId p))
      (Store.set_project AssetIdRoute.unlink_all) rows.
Proof.
  unfold Store.update_rows. apply map_ext. intros p.
  unfold assigned_to, any_of. cbn [existsb]. now rewrite orb_false_r.
Qed.

Lemma unlink_where_run where_ vals env w :
  faults env (List.length (log w)) = false ->
  unlink_where where_ vals env w
  = (inr (Store.returning where_ (Store.set_project AssetIdRoute.unlink_all)
            (projects (db w))),
     logged w [q_ UPDATE projects_table vals]
       {| assets := assets (db w);
          projects := Store.update_rows where_
                        (Store.set_project AssetIdRoute.unlink_all)
                        (projects (db w));
          case_status := case_status (db w);
          notes := notes (db w) |}).
Proof.
  intros F. unfold unlink_where.
  erewrite statement_run; [| exact F | apply update_projects_unassign].
  reflexivity.
Qed.

Lemma assets_DELETE_run env w idsParam ids :
  no_faults env ->
  ids_or_refusal idsParam "Asset IDs are required"
    "Invalid asset IDs provided" = inr ids ->
  let deleted :=
    filter (fun a => existsb (String.eqb (Asset.id a)) ids) (assets (db w)) in
  fst (AssetsRoute.DELETE idsParam env w)
  = respond 200 (asset_rows deleted)
      (Some (count_message (List.length deleted)
               " assets deleted successfully"))
  /\ db (snd (AssetsRoute.DELETE idsParam env w)) = assets_deleted ids (db w).
Proof.
  intros Hnf Hids deleted.
  destruct (ids_accepted_nonempty _ _ _ _ Hids) as [Hne _].
  assert (Hrun : exists w',
             AssetsRoute.DELETE idsParam env w
             = (respond 200 (asset_rows deleted)
                  (Some (count_message (List.length deleted)
                           " assets deleted successfully")), w')
             /\ db w' = assets_deleted ids (db w)).
  { unfold AssetsRoute.DELETE, try_catch. rewrite Hids.
    unfold bind at 1. rewrite unlink_where_run by apply Hnf.
    unfold bind at 1.
    destruct (1 <? Z.of_nat (List.length ids)) eqn:Hlen.
    - rewrite unlink_where_run by apply Hnf.
      unfold logged. cbn [db log ticks draws projects assets case_status notes].
      rewrite (unlink_first_then_all ids _ Hne).
      unfold bind at 1. unfold delete_assets_in.
      erewrite statement_run; [| apply Hnf | reflexivity].
      eexists. split; [reflexivity|]. reflexivity.
    - assert (Hone : ids = [hd "" ids]).
      { destruct ids as [|h [|h' rest]]; [congruence|reflexivity|].
        cbn [List.length] in Hlen. apply Z.ltb_ge in Hlen. lia. }
      unfold ret at 1. unfold logged.
      cbn [db log ticks draws projects assets case_status notes].
      rewrite unlink_one_is_all. rewrite <- Hone.
      unfold bind at 1. unfold delete_assets_in.
      erewrite statement_run; [| apply Hnf | reflexivity].
      eexists. split; [reflexivity|]. reflexivity. }
  destruct Hrun as [w' [Hrun Hdb]]. rewrite Hrun. split; [reflexivity|].
  exact Hdb.
Qed.

Lemma assets_bulk_DELETE_run env w idsParam ids :
  no_faults env ->
  ids_or_refusal idsParam "Asset IDs are required"
    "Invalid asset IDs provided" = inr ids ->
  let deleted :=
    filter (fun a => existsb (String.eqb (Asset.id a)) ids) (assets (db w)) in
  fst (AssetsBulkRoute.DELETE idsParam env w)
  = respond 200 (asset_rows deleted)
      (Some (count_message (List.length deleted)
               " assets deleted successfully"))
  /\ db (snd (AssetsBulkRoute.DELETE idsParam env w))
     = assets_deleted ids (db w).
Proof.
  intros Hnf Hids deleted.
  assert (Hrun : exists w',
             AssetsBulkRoute.DELETE idsParam env w
             = (respond 200 (asset_rows deleted)
                  (Some (count_message (List.length deleted)
                           " assets deleted successfully")), w')
             /\ db w' = assets_deleted ids (db w)).
  { unfold AssetsBulkRoute.DELETE, try_catch. rewrite Hids.
    unfold bind at 1. rewrite unlink_where_run by apply Hnf.
    unfold bind at 1. unfold delete_assets_in.
    erewrite statement_run; [| apply Hnf | reflexivity].
    eexists. split; [reflexivity|]. reflexivity. }
  destruct Hrun as [w' [Hrun Hdb]]. rewrite Hrun. split; [reflexivity|].
  exact Hdb.
Qed.

(** The bulk deletion of /api/assets and that of /api/assets/bulk give
    the same answer and leave the same store, when the store does not
    fail: the first sends one statement more, which changes nothing the
    others would not. *)
Theorem asset_bulk_deletions_agree :
  forall env w idsParam,
    no_faults env ->
    fst (AssetsRoute.DELETE idsParam env w)
    = fst (AssetsBulkRoute.DELETE idsParam env w)
    /\ db (snd (AssetsRoute.DELETE idsParam env w))
       = db (snd (AssetsBulkRoute.DELETE idsParam env w)).
Proof.
  intros env w idsParam Hnf.
  destruct (ids_or_refusal idsParam "Asset IDs are required"
              "Invalid asset IDs provided") as [refusal|ids] eqn:Hids.
  - unfold AssetsRoute.DELETE, AssetsBulkRoute.DELETE, try_catch.
    rewrite Hids. split; reflexivity.
  - destruct (assets_DELETE_run env w idsParam ids Hnf Hids) as [H1 H2].
    destruct (assets_bulk_DELETE_run env w idsParam ids Hnf Hids)
      as [H3 H4].
    rewrite H1, H2, H3, H4. split; reflexivity.
Qed.

(** A bulk deletion of assets whose identifiers are all well-formed and
    in the spelling of the store, when the store does not fail, is answered 200 with the deleted rows;
    the assets with one of the identifiers are gone, every project that
    was assigned to one of the identifiers has assetId and assignedAt
    null, and the other projects are as before. *)
Theorem assets_bulk_delete_unlinks_projects :
  forall env w idsParam ids,
    no_faults env ->
    ids_or_refusal idsParam "Asset IDs are required"
      "Invalid asset IDs provided" = inr ids ->
    forallb canonical ids = true ->
    let r := AssetsBulkRoute.DELETE idsParam env w in
    let among (a : Asset.t) := existsb (String.eqb (Asset.id a)) ids in
    fst r = respond 200 (asset_rows (filter among (assets (db w))))
              (Some (count_message
                       (List.length (filter among (assets (db w))))
                       " assets deleted successfully"))
    /\ assets (db (snd r)) = filter (fun a => negb (among a)) (assets (db w))
    /\ projects (db (snd r))
       = map (fun p =>
                if any_of ids (Project.assetId p)
                then Store.set_project AssetIdRoute.unlink_all p
                else p)
           (projects (db w)).
Proof.
  intros env w idsParam ids Hnf Hids _ r among. subst r.
  destruct (assets_bulk_DELETE_run env w idsParam ids Hnf Hids) as [H1 H2].
  rewrite H1, H2. split; [reflexivity|]. split; [reflexivity|].
  unfold assets_deleted, Store.delete_assets.
  cbn [snd projects assets]. unfold Store.update_rows. rewrite map_map.
  apply map_ext. intros p.
  destruct (any_of ids (Project.assetId p)) eqn:E.
  - cbn [Store.set_project AssetIdRoute.unlink_all Store.set_assignment
         ProjectSet.assetId Store.over Project.assetId Store.set_null].
    reflexivity.
  - assert (Hkeep : Store.set_null
                      (Store.ids_of Asset.id (filter among (assets (db w))))
                      (Project.assetId p) = Project.assetId p).
    { destruct (Project.assetId p) as [i|] eqn:Hp; [|reflexivity].
      cbn [Store.set_null]. unfold among. rewrite ids_of_among.
      unfold any_of in E. cbn [eq_col] in E.
      assert (Hex : existsb (String.eqb i) ids = false).
      { apply not_true_is_false. intros Hex. apply existsb_exists in Hex.
        destruct Hex as [j [Hj Hij]].
        assert (Hc : existsb (fun x : string => String.eqb i x) ids = true)
          by (apply existsb_exists; exists j; split; assumption).
        unfold eq_col in E. rewrite Hc in E. discriminate E. }
      rewrite Hex. reflexivity. }
    fold among. rewrite Hkeep. apply set_project_same_ref.
Qed.

(** ** Pages of a list *)

Lemma page_length {R} (sorted : list R) (p l : Z) :
  1 <= p -> 1 <= l ->
  Z.of_nat (List.length
              (firstn (Z.to_nat l) (skipn (Z.to_nat ((p - 1) * l)) sorted)))
  = Z.min l (Z.max 0 (Z.of_nat (List.length sorted) - (p - 1) * l)).
Proof.
  intros Hp Hl. rewrite length_firstn, length_skipn.
  assert (Ho : 0 <= (p - 1) * l) by nia.
  revert Ho. generalize ((p - 1) * l). intros o Ho. lia.
Qed.

Lemma is_page_of {R} (d : Data) (shown sorted : list R) (p l : Z) :
  1 <= p -> 1 <= l ->
  shown = firstn (Z.to_nat l) (skipn (Z.to_nat ((p - 1) * l)) sorted) ->
  is_page
    (respond_page d
       {| page := Some p; limit := Some l;
          total := Z.of_nat (List.length sorted);
          pages := pages_of (Z.of_nat (List.length sorted)) (Some l) |})
    shown sorted p l.
Proof.
  intros Hp Hl Hs. unfold is_page.
  cbn [respond_page Response.status Response.pagination].
  split; [reflexivity|]. split; [exact Hs|].
  split; [rewrite Hs; apply page_length; assumption|].
  exists (Js.ceil_div (Z.of_nat (List.length sorted)) l). split.
  - unfold pages_of.
    replace (l =? 0) with false by (symmetry; apply Z.eqb_neq; lia).
    reflexivity.
  - apply ceil_div_bounds. exact Hl.
Qed.

Lemma assets_GET_run env w rq p l :
  no_faults env ->
  Js.parseInt (Js.or_default (page_param rq) "1") = Some p ->
  Js.parseInt (Js.or_default (limit_param rq) "10") = Some l ->
  0 <= l <= Store.bigint_max -> 0 <= (p - 1) * l <= Store.bigint_max ->
  exists rows w',
    AssetsRoute.GET rq env w
    = (respond_page (assets_with_projects rows)
         {| page := Some p; limit := Some l;
            total := Z.of_nat (List.length (AssetsRoute.matching rq (db w)));
            pages := pages_of
                       (Z.of_nat (List.length (AssetsRoute.matching rq (db w))))
                       (Some l) |}, w')
    /\ map fst rows
       = firstn (Z.to_nat l)
           (skipn (Z.to_nat ((p - 1) * l))
              (Store.order_desc Asset.createdAt
                 (AssetsRoute.matching rq (db w))))
    /\ db w' = db w.
Proof.
  intros Hnf Hp Hl Hl0 Ho.
  set (slice := firstn (Z.to_nat l)
                  (skipn (Z.to_nat ((p - 1) * l))
                     (Store.order_desc Asset.createdAt
                        (AssetsRoute.matching rq (db w))))).
  unfold AssetsRoute.GET, try_catch. rewrite Hp, Hl.
  unfold bind at 1.
  erewrite statement_run;
    [| apply Hnf
     | cbv beta; unfold offset_of;
       rewrite limit_offset_run by assumption; reflexivity ].
  fold slice.
  unfold bind at 1. unfold Promise_all. rewrite start_all_ret.
  match goal with
  | |- context [settle_all ?f (map inr slice) env ?w1] =>
      destruct (settle_related slice Hnf w1) as [w' [Hrun Hdb]]
  end.
  rewrite Hrun.
  destruct (first_rejection_fulfilled (B := Asset.t) slice) as [Hfr1 _].
  rewrite Hfr1.
  match goal with
  | |- context [first_rejection (map inr ?rows)] =>
      destruct (first_rejection_fulfilled rows) as [Hfr2 Hfu2];
      rewrite Hfr2, Hfu2
  end.
  unfold bind at 1. rewrite query_run by apply Hnf.
  cbn [fst]. rewrite Hdb. cbn [db].
  eexists. eexists. split; [reflexivity|]. split.
  - rewrite map_map. simpl. apply map_id.
  - reflexivity.
Qed.

Lemma projects_GET_run env w rq p l :
  no_faults env ->
  Js.parseInt (Js.or_default (page_param rq) "1") = Some p ->
  Js.parseInt (Js.or_default (limit_param rq) "10") = Some l ->
  0 <= l <= Store.bigint_max -> 0 <= (p - 1) * l <= Store.bigint_max ->
  forallb Store.uuid_text (ProjectsRoute.uuid_values rq) = true ->
  ProjectsRoute.GET rq env w
  = (respond_page
       (projects_with_assets
          (firstn (Z.to_nat l)
             (skipn (Z.to_nat ((p - 1) * l))
                (Store.order_desc (fun r => Project.createdAt (fst r))
                   (ProjectsRoute.matching rq (db w))))))
       {| page := Some p; limit := Some l;
          total := Z.of_nat (List.length (ProjectsRoute.matching rq (db w)));
          pages := pages_of
                     (Z.of_nat (List.length (ProjectsRoute.matching rq (db w))))
                     (Some l) |},
     {| db := db w;
        log := (log w
                ++ [q_ SELECT projects_table (ProjectsRoute.bound_values rq)])
               ++ [q_ SELECT projects_table (ProjectsRoute.bound_values rq)];
        ticks := ticks w; draws := draws w |}).
Proof.
  intros Hnf Hp Hl Hl0 Ho Hu.
  unfold ProjectsRoute.GET, try_catch. rewrite Hp, Hl.
  unfold bind at 1.
  erewrite statement_run;
    [| apply Hnf
     | cbv beta; rewrite comparing_taken by exact Hu; unfold offset_of;
       rewrite limit_offset_run by assumption; reflexivity ].
  unfold bind at 1. rewrite query_run by apply Hnf.
  reflexivity.
Qed.

Lemma notes_GET_run env w rq p l :
  no_faults env ->
  Js.parseInt10 (Js.or_default (note_page rq) "1") = Some p ->
  Js.parseInt10 (Js.or_default (note_limit rq) "10") = Some l ->
  Z.max l 1 <= Store.bigint_max ->
  (Z.max p 1 - 1) * Z.max l 1 <= Store.bigint_max ->
  forallb Store.uuid_text (NotesRoute.uuid_values rq) = true ->
  NotesRoute.GET rq env w
  = (respond_page
       (notes_with_links
          (map NotesRoute.toCamelCaseNote
             (firstn (Z.to_nat (Z.max l 1))
                (skipn (Z.to_nat ((Z.max p 1 - 1) * Z.max l 1))
                   (Store.order_desc
                      (fun r => Note.createdAt (fst (fst (fst r))))
                      (NotesRoute.matching rq (db w)))))))
       {| page := Some (Z.max p 1); limit := Some (Z.max l 1);
          total := Z.of_nat (List.length (NotesRoute.matching rq (db w)));
          pages := pages_of
                     (Z.of_nat (List.length (NotesRoute.matching rq (db w))))
                     (Some (Z.max l 1)) |},
     {| db := db w;
        log := (log w
                ++ [q_ SELECT notes_table (NotesRoute.bound_values rq)])
               ++ [q_ SELECT notes_table (NotesRoute.bound_values rq)];
        ticks := ticks w; draws := draws w |}).
Proof.
  intros Hnf Hp Hl Hlb Hob Hu.
  unfold NotesRoute.GET, try_catch, NotesRoute.at_least_one.
  rewrite Hp, Hl. cbn [option_map offset_of].
  unfold bind at 1.
  erewrite statement_run;
    [| apply Hnf
     | rewrite comparing_taken by exact Hu;
       rewrite limit_offset_run by (split; nia);
       cbn [option_map]; reflexivity].
  unfold bind at 1. rewrite query_run by apply Hnf.
  reflexivity.
Qed.

Lemma cases_GET_run env w rq p l :
  no_faults env ->
  Js.parseInt10 (Js.or_default (case_page rq) "1") = Some p ->
  Js.parseInt10 (Js.or_default (case_limit rq) "10") = Some l ->
  Z.max l 1 <= Store.bigint_max ->
  (Z.max p 1 - 1) * Z.max l 1 <= Store.bigint_max ->
  forallb Store.uuid_text (CasesRoute.uuid_values rq) = true ->
  CasesRoute.GET rq env w
  = (respond_page
       (cases_with_links
          (firstn (Z.to_nat (Z.max l 1))
             (skipn (Z.to_nat ((Z.max p 1 - 1) * Z.max l 1))
                (Store.order_desc
                   (fun r => CaseStatus.lastUpdatedAt (fst (fst r)))
                   (CasesRoute.matching rq (db w))))))
       {| page := Some (Z.max p 1); limit := Some (Z.max l 1);
          total := Z.of_nat (List.length (CasesRoute.matching rq (db w)));
          pages := pages_of
                     (Z.of_nat (List.length (CasesRoute.matching rq (db w))))
                     (Some (Z.max l 1)) |},
     {| db := db w;
        log := (log w
                ++ [q_ SELECT cases_table (CasesRoute.bound_values rq)])
               ++ [q_ SELECT cases_table (CasesRoute.bound_values rq)];
        ticks := ticks w; draws := draws w |}).
Proof.
  intros Hnf Hp Hl Hlb Hob Hu.
  unfold CasesRoute.GET, try_catch, NotesRoute.at_least_one.
  rewrite Hp, Hl. cbn [option_map offset_of].
  unfold bind at 1.
  erewrite statement_run;
    [| apply Hnf
     | rewrite comparing_taken by exact Hu;
       rewrite limit_offset_run by (split; nia);
       cbn [option_map]; reflexivity].
  unfold bind at 1. rewrite query_run by apply Hnf.
  reflexivity.
Qed.

Lemma refused_is_500 {A} (q : Query) (vals : list string)
  (page : DB -> option (A * DB)) (k : A -> M Response.t) (msg : string)
  (env : Env) (w : World) :
  (forall d, page d = None) ->
  Response.status
    (fst (try_catch
            (x <- statement q (fun d => Store.comparing vals (page d)) ;; k x)
            (fun _ => failure 500 msg) env w))
  = 500.
Proof.
  intros Hnone. unfold try_catch, bind, statement, Store.comparing.
  rewrite Hnone.
  destruct (faults env (List.length (log w)));
    destruct (forallb Store.uuid_text vals); reflexivity.
Qed.

(** C8 (as amended): a list request with page >= 1 and limit >= 1. When
    page, limit and the offset (page - 1) * limit are numbers that
    JavaScript computes exactly, the store does not fail and the reference
    filters are keywords or identifiers in the spelling of the store,
    then for each of the four lists (assets, projects, notes, cases),
    over the [n] rows that match the filters: the rows listed are those
    of the matching rows, in the order of the list (newest first), from
    offset (page - 1) * limit on, at most limit of them, that is
    min(limit, max(0, n - offset)) rows; the pagination reports total = n
    and pages = ceil(n / limit), the number [k] with
    (k - 1) * limit < n <= k * limit. When the offset is far beyond the
    integers of the store (2^64 or more, whatever JavaScript rounds it
    to), each of the four lists is answered 500. *)
Theorem C8_pagination_slice_and_counts :
  forall env w p l,
    1 <= p ->
    1 <= l ->
    (no_faults env ->
     exact_paging p l ->
     (forall rq,
         Js.parseInt (Js.or_default (page_param rq) "1") = Some p ->
         Js.parseInt (Js.or_default (limit_param rq) "10") = Some l ->
         let r := fst (AssetsRoute.GET rq env w) in
         is_page r (listed_assets r)
           (Store.order_desc Asset.createdAt
              (AssetsRoute.matching rq (db w)))
           p l)
     /\ (forall rq,
           Js.parseInt (Js.or_default (page_param rq) "1") = Some p ->
           Js.parseInt (Js.or_default (limit_param rq) "10") = Some l ->
           plain_filter ["unassigned"; "assigned"] (assetId_param rq)
           = true ->
           let r := fst (ProjectsRoute.GET rq env w) in
           is_page r (listed r)
             (Store.order_desc (fun x => Project.createdAt (fst x))
                (ProjectsRoute.matching rq (db w)))
             p l)
     /\ (forall rq,
           Js.parseInt10 (Js.or_default (note_page rq) "1") = Some p ->
           Js.parseInt10 (Js.or_default (note_limit rq) "10") = Some l ->
           plain_filter ["unassigned"] (note_assetId rq) = true ->
           plain_filter ["unassigned"] (note_projectId rq) = true ->
           plain_filter ["unassigned"] (note_caseId rq) = true ->
           let r := fst (NotesRoute.GET rq env w) in
           is_page r (listed_notes r)
             (map NotesRoute.toCamelCaseNote
                (Store.order_desc
                   (fun x => Note.createdAt (fst (fst (fst x))))
                   (NotesRoute.matching rq (db w))))
             p l)
     /\ (forall rq,
           Js.parseInt10 (Js.or_default (case_page rq) "1") = Some p ->
           Js.parseInt10 (Js.or_default (case_limit rq) "10") = Some l ->
           plain_filter ["unassigned"; "assigned"] (case_assetId rq)
           = true ->
           plain_filter ["unassigned"; "assigned"] (case_projectId rq)
           = true ->
           let r := fst (CasesRoute.GET rq env w) in
           is_page r (listed_cases r)
             (Store.order_desc
                (fun x => CaseStatus.lastUpdatedAt (fst (fst x)))
                (CasesRoute.matching rq (db w)))
             p l))
    /\ (2 ^ 64 <= (p - 1) * l ->
        (forall rq,
            Js.parseInt (Js.or_default (page_param rq) "1") = Some p ->
            Js.parseInt (Js.or_default (limit_param rq) "10") = Some l ->
            Response.status (fst (AssetsRoute.GET rq env w)) = 500
            /\ Response.status (fst (ProjectsRoute.GET rq env w)) = 500)
        /\ (forall rq,
              Js.parseInt10 (Js.or_default (note_page rq) "1") = Some p ->
              Js.parseInt10 (Js.or_default (note_limit rq) "10") = Some l ->
              Response.status (fst (NotesRoute.GET rq env w)) = 500)
        /\ (forall rq,
              Js.parseInt10 (Js.or_default (case_page rq) "1") = Some p ->
              Js.parseInt10 (Js.or_default (case_limit rq) "10") = Some l ->
              Response.status (fst (CasesRoute.GET rq env w)) = 500)).
Proof.
  intros env w p l Hp1 Hl1.
  assert (Hmp : Z.max p 1 = p) by lia.
  assert (Hml : Z.max l 1 = l) by lia.
  split.
  - intros Hnf Hx.
    destruct (exact_paging_taken p l Hp1 Hl1 Hx) as [Hl0 Ho].
    assert (Hlb : Z.max l 1 <= Store.bigint_max) by (rewrite Hml; lia).
    assert (Hob : (Z.max p 1 - 1) * Z.max l 1 <= Store.bigint_max)
      by (rewrite Hmp, Hml; lia).
    refine (conj _ (conj _ (conj _ _))).
    + intros rq Hp Hl r. subst r.
      destruct (assets_GET_run env w rq p l Hnf Hp Hl Hl0 Ho)
        as [rows [w' [Hrun [Hrows _]]]].
      rewrite Hrun. cbn [fst].
      rewrite <- (length_order_desc Asset.createdAt
                    (AssetsRoute.matching rq (db w))).
      apply is_page_of; [assumption | assumption |].
      unfold listed_assets. cbn [respond_page Response.data]. exact Hrows.
    + intros rq Hp Hl Hf r. subst r.
      rewrite (projects_GET_run env w rq p l Hnf Hp Hl Hl0 Ho
                 (projects_filter_taken rq Hf)).
      cbn [fst].
      rewrite <- (@length_order_desc ProjectsRoute.Row
                    (fun x => Project.createdAt (fst x))
                    (ProjectsRoute.matching rq (db w))).
      apply is_page_of; [assumption | assumption | reflexivity].
    + intros rq Hp Hl Hfa Hfp Hfc r. subst r.
      rewrite (notes_GET_run env w rq p l Hnf Hp Hl Hlb Hob
                 (notes_filter_taken rq Hfa Hfp Hfc)).
      cbn [fst].
      rewrite Hmp, Hml.
      rewrite <- (@length_order_desc NotesRoute.Row
                    (fun x => Note.createdAt (fst (fst (fst x))))
                    (NotesRoute.matching rq (db w))).
      rewrite <- (length_map NotesRoute.toCamelCaseNote
                    (Store.order_desc _ _)).
      apply is_page_of; [assumption | assumption |].
      unfold listed_notes. cbn [respond_page Response.data].
      rewrite skipn_map, firstn_map. reflexivity.
    + intros rq Hp Hl Hfa Hfp r. subst r.
      rewrite (cases_GET_run env w rq p l Hnf Hp Hl Hlb Hob
                 (cases_filter_taken rq Hfa Hfp)).
      cbn [fst].
      rewrite Hmp, Hml.
      rewrite <- (@length_order_desc CaseIdRoute.Row
                    (fun x => CaseStatus.lastUpdatedAt (fst (fst x)))
                    (CasesRoute.matching rq (db w))).
      apply is_page_of; [assumption | assumption | reflexivity].
  - intros Hfar.
    assert (Hbig : Store.bigint_max < (p - 1) * l).
    { assert (H64 : Store.bigint_max < 2 ^ 64)
        by (unfold Store.bigint_max; simpl; lia).
      lia. }
    refine (conj _ (conj _ _)).
    + intros rq Hp Hl. split.
      * unfold AssetsRoute.GET, try_catch, bind, statement.
        rewrite Hp, Hl. cbn [offset_of].
        rewrite limit_offset_beyond by exact Hbig. cbn [option_map].
        destruct (faults env (List.length (log w))); reflexivity.
      * unfold ProjectsRoute.GET. rewrite Hp, Hl. cbn [offset_of].
        apply refused_is_500. intros d.
        rewrite limit_offset_beyond by exact Hbig. reflexivity.
    + intros rq Hp Hl. unfold NotesRoute.GET, NotesRoute.at_least_one.
      rewrite Hp, Hl. cbn [option_map offset_of]. rewrite Hmp, Hml.
      apply refused_is_500. intros d.
      rewrite limit_offset_beyond by exact Hbig. reflexivity.
    + intros rq Hp Hl. unfold CasesRoute.GET, NotesRoute.at_least_one.
      rewrite Hp, Hl. cbn [option_map offset_of]. rewrite Hmp, Hml.
      apply refused_is_500. intros d.
      rewrite limit_offset_beyond by exact Hbig. reflexivity.
Qed.


(** The lists of assets and of projects pass a page below 1 to the
    store, which refuses the negative offset: the answer is 500. *)
Theorem lists_fail_on_page_below_one :
  forall env w rq p l,
    Js.parseInt (Js.or_default (page_param rq) "1") = Some p ->
    Js.parseInt (Js.or_default (limit_param rq) "10") = Some l ->
    p < 1 -> 1 <= l ->
    (fst (AssetsRoute.GET rq env w) = failure 500 "Failed to fetch assets"
     /\ db (snd (AssetsRoute.GET rq env w)) = db w)
    /\ (fst (ProjectsRoute.GET rq env w)
        = failure 500 "Failed to fetch projects"
        /\ db (snd (ProjectsRoute.GET rq env w)) = db w).
Proof.
  intros env w rq p l Hp Hl Hlow Hlim.
  assert (Hoff : forall R (rows : list R),
             Store.limit_offset (Some l) (Some ((p - 1) * l)) rows = None).
  { intros R rows. apply limit_offset_negative. nia. }
  split.
  - assert (Hrun : exists w',
               AssetsRoute.GET rq env w
               = (failure 500 "Failed to fetch assets", w') /\ db w' = db w).
    { unfold AssetsRoute.GET, try_catch. rewrite Hp, Hl.
      cbn [offset_of]. unfold bind at 1. unfold statement.
      rewrite Hoff. cbn [option_map].
      destruct (faults env (List.length (log w)));
        eexists; split; reflexivity. }
    destruct Hrun as [w' [Hrun Hdb]]. rewrite Hrun. split; [reflexivity|].
    exact Hdb.
  - assert (Hrun : exists w',
               ProjectsRoute.GET rq env w
               = (failure 500 "Failed to fetch projects", w')
               /\ db w' = db w).
    { unfold ProjectsRoute.GET, try_catch. rewrite Hp, Hl.
      cbn [offset_of]. unfold bind at 1. unfold statement.
      rewrite Hoff. cbn [option_map]. unfold Store.comparing.
      destruct (forallb Store.uuid_text (ProjectsRoute.uuid_values rq));
        destruct (faults env (List.length (log w)));
        eexists; split; reflexivity. }
    destruct Hrun as [w' [Hrun Hdb]]. rewrite Hrun. split; [reflexivity|].
    exact Hdb.
Qed.

(** ** The identifier check *)

Lemma hex_run_shape n s t :
  hex_run n s = Some t ->
  (String.length s = n + String.length t)%nat
  /\ (all_chars hex_or_dash t = true -> all_chars hex_or_dash s = true).
Proof.
  revert s. induction n as [|n IH]; intros s; cbn [hex_run].
  - intros H. injection H as <-. split; [reflexivity|tauto].
  - destruct s as [|c s]; [discriminate|].
    destruct (Js.is_hex c) eqn:E; [|discriminate].
    intros H. destruct (IH _ H) as [Hlen Hall]. split.
    + cbn [String.length]. lia.
    + intros Ht. cbn [all_chars]. unfold hex_or_dash at 1. rewrite E.
      cbn [orb andb]. exact (Hall Ht).
Qed.

Lemma dash_shape s t :
  dash s = Some t ->
  (String.length s = 1 + String.length t)%nat
  /\ (all_chars hex_or_dash t = true -> all_chars hex_or_dash s = true).
Proof.
  unfold dash. destruct s as [|c s]; [discriminate|].
  destruct (Ascii.eqb c "-") eqn:E; [|discriminate].
  intros H. injection H as <-. split; [reflexivity|].
  intros Ht. cbn [all_chars]. unfold hex_or_dash at 1. rewrite E, orb_true_r.
  exact Ht.
Qed.

Lemma and_then_some {A B} (o : option A) (f : A -> option B) (b : B) :
  and_then o f = Some b -> exists a, o = Some a /\ f a = Some b.
Proof. destruct o as [a|]; [|discriminate]. intros H. now exists a. Qed.

Lemma hex_or_dash_no_space c :
  hex_or_dash c = true -> Js.is_space c = false.
Proof.
  destruct c as [[] [] [] [] [] [] [] []]; cbv; congruence.
Qed.

Lemma trimEnd_fixed s :
  all_chars hex_or_dash s = true -> Js.trimEnd s = s.
Proof.
  induction s as [|c s IH]; [reflexivity|].
  cbn [all_chars Js.trimEnd]. intros H. apply andb_true_iff in H.
  destruct H as [Hc Hs]. rewrite (IH Hs).
  destruct s; [|reflexivity].
  now rewrite (hex_or_dash_no_space c Hc).
Qed.

Lemma is_hex_lower c : Js.is_hex (Js.lower_char c) = Js.is_hex c.
Proof. destruct c as [[] [] [] [] [] [] [] []]; reflexivity. Qed.

Lemma is_dash_lower c :
  Ascii.eqb (Js.lower_char c) "-" = Ascii.eqb c "-".
Proof. destruct c as [[] [] [] [] [] [] [] []]; reflexivity. Qed.

Lemma hex_run_lower n s :
  hex_run n (Js.toLowerCase s) = option_map Js.toLowerCase (hex_run n s).
Proof.
  revert s. induction n as [|n IH]; intros s; [reflexivity|].
  destruct s as [|c s]; [reflexivity|].
  cbn [Js.toLowerCase hex_run]. rewrite is_hex_lower.
  destruct (Js.is_hex c); [apply IH|reflexivity].
Qed.

Lemma dash_lower s :
  dash (Js.toLowerCase s) = option_map Js.toLowerCase (dash s).
Proof.
  destruct s as [|c s]; [reflexivity|].
  cbn [Js.toLowerCase dash]. rewrite is_dash_lower.
  destruct (Ascii.eqb c "-"); reflexivity.
Qed.

Lemma and_then_lower (o : option string) (f : string -> option string) :
  (forall x, f (Js.toLowerCase x) = option_map Js.toLowerCase (f x)) ->
  and_then (option_map Js.toLowerCase o) f
  = option_map Js.toLowerCase (and_then o f).
Proof. intros Hf. destruct o as [x|]; [apply Hf|reflexivity]. Qed.

(** The identifier check accepts only strings of 36 characters, all of
    them hexadecimal digits or dashes: an accepted identifier is not empty
    and is left as it is by [trim]. The check does not depend on the case
    of the letters. *)
Theorem identifier_check_shape :
  forall s,
    uuidRegex_test (Js.toLowerCase s) = uuidRegex_test s
    /\ (uuidRegex_test s = true ->
          String.length s = 36%nat
          /\ all_chars hex_or_dash s = true
          /\ Js.truthy s = true
          /\ Js.trim s = s).
Proof.
  intros s. split.
  - unfold uuidRegex_test.
    rewrite hex_run_lower.
    rewrite !and_then_lower
      by (intros x; first [apply dash_lower | apply hex_run_lower]).
    destruct (and_then _ _) as [[|c t]|]; reflexivity.
  - unfold uuidRegex_test.
    destruct (and_then _ (hex_run 12)) as [[|c t]|] eqn:H; try discriminate.
    intros _.
    repeat match type of H with
           | and_then _ _ = Some _ =>
               apply and_then_some in H;
               let x := fresh "x" in
               let H' := fresh "H" in
               destruct H as [x [H H']]
           end.
    repeat match goal with
           | Hh : hex_run _ _ = Some _ |- _ =>
               apply hex_run_shape in Hh; destruct Hh as [? ?]
           | Hd : dash _ = Some _ |- _ =>
               apply dash_shape in Hd; destruct Hd as [? ?]
           end.
    assert (Hlen : String.length s = 36%nat)
      by (cbn [String.length] in *; lia).
    assert (Hall : all_chars hex_or_dash s = true) by auto 20.
    split; [exact Hlen|]. split; [exact Hall|].
    destruct s as [|c s]; [discriminate Hlen|]. split; [reflexivity|].
    unfold Js.trim.
    assert (Hc : Js.is_space c = false).
    { cbn [all_chars] in Hall. apply andb_true_iff in Hall.
      apply hex_or_dash_no_space. tauto. }
    cbn [Js.trimStart]. rewrite Hc. apply trimEnd_fixed. exact Hall.
Qed.

(** ** Bulk update of projects *)

Lemma before_update_without_id (bad : json) env w :
  bad <> JNull ->
  prop "id" bad = None ->
  ProjectsRoute.before_update bad env w
  = (inl (Error "Project ID is required for update"), w).
Proof.
  intros Hnull Hid. unfold ProjectsRoute.before_update. rewrite Hid.
  destruct bad; [congruence|reflexivity..].
Qed.

(** A bulk update is not all or nothing. With a first item that
    validates and designates a project by an identifier in the spelling of
    the store, and a second item without an id,
    the request is answered 500; yet the update of the first item has been
    sent and the project is stored with the columns of the item. *)
Theorem bulk_update_is_not_atomic :
  forall env w id fields s bad,
    no_faults env ->
    Js.truthy id = true ->
    canonical id = true ->
    assoc "id" fields = None ->
    assoc "assetId" fields = None ->
    Schema.updateProjectSchema env (JObj fields) = Valid s ->
    bad <> JNull ->
    prop "id" bad = None ->
    let r := ProjectsRoute.PUT
               (JObj [("projects",
                       JArr [JObj (("id", JStr id) :: fields); bad])])
               env w in
    fst r = failure 500 "Failed to update projects"
    /\ projects (db (snd r))
       = Store.update_rows (id_is Project.id id)
           (Store.set_project
              (with_assignedAt s None (clock env (ticks w))))
           (projects (db w))
    /\ In (q_ UPDATE projects_table [id]) (log (snd r)).
Proof.
  intros env w id fields s bad Hnf Htr _ Hnoid Hnoasset Hvalid Hnull Hbad r.
  pose proof (update_without_assetId _ _ Hvalid Hnoasset) as Hs.
  set (now := clock env (ticks w)).
  set (s' := with_assignedAt s None now).
  assert (Hs' : ProjectSet.assetId s' = None) by exact Hs.
  set (d' := {| assets := assets (db w);
                projects := Store.update_rows (id_is Project.id id)
                              (Store.set_project s') (projects (db w));
                case_status := case_status (db w);
                notes := notes (db w) |}).
  assert (Hassoc : forall ref w1, db w1 = d' ->
            In (q_ UPDATE projects_table [id]) (log w1) ->
            exists res w2,
              associated_asset ref env w1 = (res, w2) /\ db w2 = d'
              /\ In (q_ UPDATE projects_table [id]) (log w2)).
  { intros ref w1 Hw1 Hlog. unfold associated_asset.
    destruct ref as [i|]; [destruct (Js.truthy i)|].
    - unfold bind, select_asset. rewrite query_run by apply Hnf.
      eexists. eexists. split; [reflexivity|]. split; [exact Hw1|].
      cbn [log]. apply in_or_app. now left.
    - eexists. eexists. split; [reflexivity|]. split; assumption.
    - eexists. eexists. split; [reflexivity|]. split; assumption. }
  assert (HR : exists w2,
             r = (failure 500 "Failed to update projects", w2)
             /\ db w2 = d'
             /\ In (q_ UPDATE projects_table [id]) (log w2)).
  { subst r. unfold ProjectsRoute.PUT, try_catch. cbn [prop].
    simpl (assoc "projects" _).
    unfold bind at 1. unfold Promise_all. cbn [start_all].
    unfold ProjectsRoute.before_update at 1.
    cbn [prop]. simpl (assoc "id" _). cbn [truthy]. rewrite Htr.
    simpl (assoc_remove "id" _). rewrite (assoc_remove_absent _ _ Hnoid).
    unfold bind at 1. unfold ask. unfold bind at 1. rewrite Hvalid.
    unfold parse, ret. unfold bind at 1. unfold assignedAt_for.
    rewrite Hs. cbn [ref_truthy]. unfold ret.
    unfold bind at 1. unfold new_Date. fold now. fold s'.
    rewrite (before_update_without_id bad env _ Hnull Hbad).
    cbn [settle_all first_rejection].
    unfold ProjectsRoute.after_update at 1. cbn [fst snd].
    unfold bind at 1.
    erewrite statement_run;
      [| apply Hnf | apply update_projects_keeping_asset; exact Hs'].
    cbn [db log ticks draws]. fold d'.
    destruct (Store.returning (id_is Project.id id) (Store.set_project s')
                (projects (db w))) as [|u us].
    - unfold throw. eexists. split; [reflexivity|]. split; [reflexivity|].
      cbn [log]. apply in_or_app. right. now left.
    - unfold bind at 1.
      match goal with
      | |- context [associated_asset ?ref env ?w1] =>
          destruct (Hassoc ref w1 eq_refl) as [res [w2 [Hrun [Hd Hl]]]];
          [cbn [log]; apply in_or_app; right; now left|]
      end.
      rewrite Hrun. destruct res as [e|a];
        (eexists; split; [reflexivity|]; split; assumption). }
  destruct HR as [w2 [HR [Hd Hl]]]. rewrite HR. cbn [fst snd].
  split; [reflexivity|]. split; [rewrite Hd; reflexivity|exact Hl].
Qed.

(** ** Reading leaves the store as it is *)

Lemma selects_only_refl w : selects_only w w.
Proof.
  split; [reflexivity|]. exists []. split; [now rewrite app_nil_r|constructor].
Qed.

Lemma selects_only_trans w1 w2 w3 :
  selects_only w1 w2 -> selects_only w2 w3 -> selects_only w1 w3.
Proof.
  intros [Hd1 [q1 [Hl1 Hf1]]] [Hd2 [q2 [Hl2 Hf2]]]. split; [congruence|].
  exists (q1 ++ q2)%list. split.
  - rewrite Hl2, Hl1, app_assoc. reflexivity.
  - apply Forall_app. split; assumption.
Qed.

Lemma read_only_ret {A} (a : A) : read_only (ret a).
Proof. intros env w. apply selects_only_refl. Qed.

Lemma read_only_throw {A} (e : Exn) : read_only (@throw A e).
Proof. intros env w. apply selects_only_refl. Qed.

Lemma read_only_bind {A B} (m : M A) (k : A -> M B) :
  read_only m -> (forall a, read_only (k a)) -> read_only (bind m k).
Proof.
  intros Hm Hk env w. unfold bind. specialize (Hm env w).
  destruct (m env w) as [[e|a] w1]; cbn [snd] in *; [exact Hm|].
  eapply selects_only_trans; [exact Hm|apply Hk].
Qed.

Lemma read_only_statement {A} (q : Query) (run : DB -> option (A * DB)) :
  verb q = SELECT ->
  (forall d a d', run d = Some (a, d') -> d' = d) ->
  read_only (statement q run).
Proof.
  intros Hq Hrun env w. unfold statement.
  assert (Hlog : forall d,
             d = db w ->
             selects_only w {| db := d; log := log w ++ [q];
                               ticks := ticks w; draws := draws w |}).
  { intros d ->. split; [reflexivity|]. exists [q]. split; [reflexivity|].
    constructor; [exact Hq|constructor]. }
  destruct (faults env (List.length (log w))); [now apply Hlog|].
  destruct (run (db w)) as [[a d']|] eqn:E; [|now apply Hlog].
  cbn [snd]. apply Hlog. exact (Hrun _ _ _ E).
Qed.

Lemma read_only_query {A} (q : Query) (rows : DB -> A) :
  verb q = SELECT -> read_only (query q rows).
Proof.
  intros Hq. apply read_only_statement; [exact Hq|].
  intros d a d' H. now injection H as _ <-.
Qed.

Lemma read_only_page {R} (q : Query) (rows : DB -> option (list R)) :
  verb q = SELECT ->
  read_only (statement q (fun d => option_map (fun r => (r, d)) (rows d))).
Proof.
  intros Hq. apply read_only_statement; [exact Hq|].
  intros d a d' H. destruct (rows d); [|discriminate H].
  now injection H as _ <-.
Qed.

Lemma read_only_compared_page {R} (q : Query) (vals : list string)
  (rows : DB -> option (list R)) :
  verb q = SELECT ->
  read_only
    (statement q
       (fun d =>
          Store.comparing vals (option_map (fun r => (r, d)) (rows d)))).
Proof.
  intros Hq. apply read_only_statement; [exact Hq|].
  intros d a d' H. unfold Store.comparing in H.
  destruct (forallb Store.uuid_text vals); [|discriminate H].
  destruct (rows d); [|discriminate H].
  now injection H as _ <-.
Qed.

Lemma start_all_selects {A C} (before : A -> M C) (items : list A) :
  (forall x, read_only (before x)) ->
  forall env w, selects_only w (snd (start_all before items env w)).
Proof.
  intros Hb env. induction items as [|x rest IH]; intros w;
    cbn [start_all]; [apply selects_only_refl|].
  specialize (Hb x env w). destruct (before x env w) as [r w1].
  specialize (IH w1). destruct (start_all before rest env w1) as [rs w2].
  cbn [snd] in *. eapply selects_only_trans; eassumption.
Qed.

Lemma settle_all_selects {C B} (after : C -> M B) (started : list (Exn + C)) :
  (forall c, read_only (after c)) ->
  forall env w, selects_only w (snd (settle_all after started env w)).
Proof.
  intros Ha env. induction started as [|[e|c] rest IH]; intros w;
    cbn [settle_all]; [apply selects_only_refl| |].
  - specialize (IH w). destruct (settle_all after rest env w) as [rs w1].
    exact IH.
  - specialize (Ha c env w). destruct (after c env w) as [r w1].
    specialize (IH w1). destruct (settle_all after rest env w1) as [rs w2].
    cbn [snd] in *. eapply selects_only_trans; eassumption.
Qed.

Lemma read_only_Promise_all {A C B} (before : A -> M C) (after : C -> M B)
  (items : list A) :
  (forall x, read_only (before x)) ->
  (forall c, read_only (after c)) ->
  read_only (Promise_all before after items).
Proof.
  intros Hb Ha env w. unfold Promise_all.
  pose proof (start_all_selects before items Hb env w) as H1.
  destruct (start_all before items env w) as [started w1].
  pose proof (settle_all_selects after started Ha env w1) as H2.
  destruct (settle_all after started env w1) as [rs w2].
  cbn [snd] in *.
  assert (H : selects_only w w2) by (eapply selects_only_trans; eassumption).
  destruct (first_rejection started); [exact H|].
  destruct (first_rejection rs); exact H.
Qed.

Lemma read_only_try_catch (body : M Response.t) recover env w :
  read_only body -> selects_only w (snd (try_catch body recover env w)).
Proof.
  intros Hb. unfold try_catch. specialize (Hb env w).
  destruct (body env w) as [[e|a] w1]; exact Hb.
Qed.

Ltac read_only_step :=
  first
    [ apply read_only_ret
    | apply read_only_throw
    | apply read_only_query; reflexivity
    | apply read_only_page; reflexivity
    | apply read_only_compared_page; reflexivity
    | apply read_only_Promise_all; intros ?
    | apply read_only_bind; [|intros ?]
    | match goal with
      | |- read_only (if ?b then _ else _) => destruct b
      | |- read_only (match ?x with _ => _ end) => destruct x
      | |- read_only (let '(_, _) := ?x in _) => destruct x
      end ].

Ltac read_only_handler :=
  intros; apply read_only_try_catch;
  unfold select_asset, select_project, select_projects_of;
  repeat read_only_step.

(** The handlers that read (the three lists and the five lookups by
    identifier) leave the store as it is and send nothing but [SELECT]
    statements, whatever their parameters and whether or not the store
    fails. *)
Theorem reading_leaves_the_store :
  forall env w,
    (forall rq, selects_only w (snd (AssetsRoute.GET rq env w)))
    /\ (forall rq, selects_only w (snd (ProjectsRoute.GET rq env w)))
    /\ (forall rq, selects_only w (snd (NotesRoute.GET rq env w)))
    /\ (forall id, selects_only w (snd (AssetIdRoute.GET id env w)))
    /\ (forall id, selects_only w (snd (ProjectIdRoute.GET id env w)))
    /\ (forall id, selects_only w (snd (CaseIdRoute.GET id env w)))
    /\ (forall id, selects_only w (snd (AssetProjectsRoute.GET id env w)))
    /\ (forall a p, selects_only w (snd (AssetProjectRoute.GET a p env w))).
Proof.
  intros env w.
  refine (conj _ (conj _ (conj _ (conj _ (conj _ (conj _ (conj _ _))))))).
  - unfold AssetsRoute.GET. read_only_handler.
  - unfold ProjectsRoute.GET. read_only_handler.
  - unfold NotesRoute.GET. read_only_handler.
  - unfold AssetIdRoute.GET. read_only_handler.
  - unfold ProjectIdRoute.GET. read_only_handler.
  - unfold CaseIdRoute.GET. read_only_handler.
  - unfold AssetProjectsRoute.GET. read_only_handler.
  - unfold AssetProjectRoute.GET. read_only_handler.
Qed.

(** ** When the store is down *)

Lemma refusal_is_400 idsParam required invalid t :
  ids_or_refusal idsParam required invalid = inl t ->
  Response.status t = 400.
Proof.
  unfold ids_or_refusal. destruct idsParam as [raw|];
    [|intros H; injection H as <-; reflexivity].
  destruct (Js.truthy raw); [|intros H; injection H as <-; reflexivity].
  destruct (filter _ _); [discriminate|].
  intros H. injection H as <-. reflexivity.
Qed.

Lemma quiet_ret {A} env (P : A -> Prop) (a : A) : P a -> quiet env P (ret a).
Proof.
  intros Ha w. split; [reflexivity|]. intros b H. now injection H as <-.
Qed.

Lemma quiet_throw {A} env (P : A -> Prop) (e : Exn) : quiet env P (throw e).
Proof. intros w. split; [reflexivity|]. intros b H. discriminate H. Qed.

Lemma quiet_statement_failing {A B} env (P : B -> Prop) (q : Query)
  (run : DB -> option (A * DB)) (k : A -> M B) :
  (forall n, faults env n = true) ->
  quiet env P (bind (statement q run) k).
Proof.
  intros all_fail w. unfold bind, statement. rewrite all_fail.
  split; [reflexivity|]. intros b H. discriminate H.
Qed.

Lemma quiet_silent {A B} env (P : B -> Prop) (m : M A) (k : A -> M B) :
  silent env m -> (forall a, quiet env P (k a)) -> quiet env P (bind m k).
Proof.
  intros Hm Hk w. unfold bind. specialize (Hm w).
  destruct (m env w) as [[e|a] w1]; cbn [snd] in Hm.
  - split; [exact Hm|]. intros b H. discriminate H.
  - destruct (Hk a w1) as [Hd Hp]. split; [congruence|exact Hp].
Qed.

Lemma quiet_ask {B} env (P : B -> Prop) (k : Env -> M B) :
  quiet env P (k env) -> quiet env P (bind ask k).
Proof. intros Hk w. exact (Hk w). Qed.

Lemma silent_parse {A} env (r : Res A) : silent env (parse r).
Proof. intros w. destruct r; reflexivity. Qed.

Lemma silent_new_Date env : silent env new_Date.
Proof. intros w. reflexivity. Qed.

Lemma silent_assignedAt_for env ref : silent env (assignedAt_for ref).
Proof. intros w. unfold assignedAt_for. destruct (ref_truthy ref); reflexivity. Qed.

Lemma quiet_try_catch env (body : M Response.t) (recover : Exn -> Response.t)
  w :
  quiet env (fun r => Response.status r = 400) body ->
  (forall e, Response.status (recover e) = 400
             \/ Response.status (recover e) = 500) ->
  (Response.status (fst (try_catch body recover env w)) = 400
   \/ Response.status (fst (try_catch body recover env w)) = 500)
  /\ db (snd (try_catch body recover env w)) = db w.
Proof.
  intros Hb Hr. unfold try_catch. destruct (Hb w) as [Hd Hp].
  destruct (body env w) as [[e|a] w1]; cbn [fst snd] in *.
  - split; [apply Hr|exact Hd].
  - split; [left; now apply Hp|exact Hd].
Qed.

Lemma recover_lines fallback e :
  Response.status (on_error_lines fallback e) = 400
  \/ Response.status (on_error_lines fallback e) = 500.
Proof. destruct e; [left|right]; reflexivity. Qed.

Lemma recover_fields fallback e :
  Response.status (on_error_fields fallback e) = 400
  \/ Response.status (on_error_fields fallback e) = 500.
Proof. destruct e; [left|right]; reflexivity. Qed.

Ltac quiet_step all_fail :=
  lazymatch goal with
  | |- quiet _ _ (if ?b then _ else _) => destruct b
  | |- quiet _ _ (match ?x with _ => _ end) => destruct x eqn:?
  | |- quiet _ _ (bind (statement _ _) _) =>
      apply quiet_statement_failing; exact all_fail
  | |- quiet _ _ (bind ask _) => apply quiet_ask
  | |- quiet _ _ (bind (parse _) _) =>
      apply quiet_silent; [apply silent_parse | intros ?]
  | |- quiet _ _ (bind new_Date _) =>
      apply quiet_silent; [apply silent_new_Date | intros ?]
  | |- quiet _ _ (bind (assignedAt_for _) _) =>
      apply quiet_silent; [apply silent_assignedAt_for | intros ?]
  | |- quiet _ _ (throw _) => apply quiet_throw
  | |- quiet _ _ (ret _) =>
      apply quiet_ret;
      first [reflexivity | eapply refusal_is_400; eassumption]
  end.

Ltac quiet_handler all_fail :=
  apply quiet_try_catch;
  [ unfold select_asset, select_project, select_projects_of, query,
      unlink_where, delete_assets_in; cbv zeta;
    repeat quiet_step all_fail
  | intros e;
    first [apply recover_lines | apply recover_fields | right; reflexivity] ].

(** With a store that fails at every statement, every operation
    addressed by identifiers is answered 400 or 500, never a success and
    never "not found", and the store is left as it was. *)
Theorem store_down_is_reported :
  forall op env w,
    (forall k, faults env k = true) ->
    let r := handler op env w in
    (Response.status (fst r) = 400 \/ Response.status (fst r) = 500)
    /\ db (snd r) = db w.
Proof.
  intros op env w all_fail. cbv zeta. destruct op; cbn [handler].
  - unfold AssetIdRoute.GET. quiet_handler all_fail.
  - unfold AssetIdRoute.PUT. quiet_handler all_fail.
  - unfold AssetIdRoute.DELETE. quiet_handler all_fail.
  - unfold ProjectIdRoute.GET. quiet_handler all_fail.
  - unfold ProjectIdRoute.PUT. quiet_handler all_fail.
  - unfold ProjectIdRoute.DELETE. quiet_handler all_fail.
  - unfold AssetProjectsRoute.GET. quiet_handler all_fail.
  - unfold AssetProjectsRoute.POST. quiet_handler all_fail.
  - unfold AssetProjectRoute.GET. quiet_handler all_fail.
  - unfold AssetProjectRoute.PUT. quiet_handler all_fail.
  - unfold AssetProjectRoute.DELETE. quiet_handler all_fail.
  - unfold CaseIdRoute.GET. quiet_handler all_fail.
  - unfold CaseIdRoute.PUT. quiet_handler all_fail.
  - unfold CaseIdRoute.DELETE. quiet_handler all_fail.
  - unfold NoteIdRoute.DELETE. quiet_handler all_fail.
  - unfold AssetsRoute.DELETE. quiet_handler all_fail.
  - unfold AssetsBulkRoute.DELETE. quiet_handler all_fail.
  - unfold ProjectsRoute.DELETE. quiet_handler all_fail.
Qed.

(** ** Filters of the list of notes *)

Lemma map_insert_desc {R S} (f : R -> S) (key : S -> Z) (x : R)
  (l : list R) :
  map f (Store.insert_desc (fun r => key (f r)) x l)
  = Store.insert_desc key (f x) (map f l).
Proof.
  induction l as [|y l IH]; simpl; [reflexivity|].
  destruct (key (f y) <=? key (f x)); simpl; [reflexivity|].
  now rewrite IH.
Qed.

Lemma map_order_desc {R S} (f : R -> S) (key : S -> Z) (l : list R) :
  map f (Store.order_desc (fun r => key (f r)) l)
  = Store.order_desc key (map f l).
Proof.
  unfold Store.order_desc.
  induction l as [|x l IH]; simpl; [reflexivity|].
  now rewrite map_insert_desc, IH.
Qed.

Lemma filter_of_map {R S} (f : R -> S) (c : S -> bool) (l : list R) :
  map f (filter (fun r => c (f r)) l) = filter c (map f l).
Proof.
  induction l as [|x l IH]; simpl; [reflexivity|].
  destruct (c (f x)); simpl; now rewrite IH.
Qed.

Lemma notes_of_joined (d : DB) :
  map (fun r : NotesRoute.Row => fst (fst (fst r))) (NotesRoute.joined d)
  = notes d.
Proof.
  unfold NotesRoute.joined. rewrite map_map. cbn [fst]. apply map_id.
Qed.

Lemma note_of_toCamelCaseNote (l : list NotesRoute.Row) :
  map (fun x => fst (fst (fst x))) (map NotesRoute.toCamelCaseNote l)
  = map (fun r : NotesRoute.Row => fst (fst (fst r))) l.
Proof.
  rewrite map_map. apply map_ext. intros [[[n a] p] c]. reflexivity.
Qed.

(** The list of notes filtered by [assetId] alone, on the first page of
    ten, when the store does not fail and the filter is "unassigned" or
    an identifier in the spelling of the store: the value "unassigned"
    (in any letter case, white space around it ignored) lists the notes
    without an asset; an identifier lists the notes whose assetId it is.
    The notes listed are the first ten of them, newest first, and the
    total is their number. *)
Theorem notes_filter_by_asset :
  forall env w v,
    no_faults env ->
    Js.truthy (Js.trim v) = true ->
    plain_filter ["unassigned"] (Some v) = true ->
    let rq := {| note_search := None; note_assetId := Some v;
                 note_projectId := None; note_caseId := None;
                 note_page := None; note_limit := None |} in
    let wanted (n : Note.t) :=
      match Note.assetId n with
      | None => String.eqb (Js.toLowerCase (Js.trim v)) "unassigned"
      | Some a =>
          negb (String.eqb (Js.toLowerCase (Js.trim v)) "unassigned")
          && String.eqb a (Js.trim v)
      end in
    let r := fst (NotesRoute.GET rq env w) in
    Response.status r = 200
    /\ map (fun x => fst (fst (fst x))) (listed_notes r)
       = firstn 10
           (Store.order_desc Note.createdAt (filter wanted (notes (db w))))
    /\ Response.pagination r
       = Some {| page := Some 1; limit := Some 10;
                 total := Z.of_nat
                            (List.length (filter wanted (notes (db w))));
                 pages := Some (Js.ceil_div
                                  (Z.of_nat
                                     (List.length
                                        (filter wanted (notes (db w)))))
                                  10) |}.
Proof.
  intros env w v Hnf Htrim Hplain rq wanted r.
  assert (Hv : Js.truthy v = true) by (apply truthy_trim; exact Htrim).
  assert (Hm : map (fun x : NotesRoute.Row => fst (fst (fst x)))
                 (NotesRoute.matching rq (db w))
               = filter wanted (notes (db w))).
  { unfold NotesRoute.matching.
    rewrite <- (notes_of_joined (db w)).
    rewrite <- (filter_of_map (fun x : NotesRoute.Row => fst (fst (fst x)))
                  wanted).
    f_equal. apply filter_ext. intros [[[n a] p] c]. cbn [fst].
    unfold NotesRoute.conditions, NotesRoute.search_term,
      NotesRoute.ref_condition, rq, wanted.
    cbn [note_search note_assetId note_projectId note_caseId app].
    rewrite Hv, Htrim. cbn [andb].
    destruct (String.eqb (Js.toLowerCase (Js.trim v)) "unassigned");
      cbn [app forallb]; rewrite andb_true_r;
      destruct (Note.assetId n); reflexivity. }
  subst r.
  assert (Hu : forallb Store.uuid_text (NotesRoute.uuid_values rq) = true)
    by (apply notes_filter_taken; [exact Hplain | reflexivity | reflexivity]).
  rewrite (notes_GET_run env w rq 1 10 Hnf eq_refl eq_refl
             ltac:(discriminate) ltac:(discriminate) Hu).
  cbn [fst].
  change (Z.max 1 1) with 1. change (Z.max 10 1) with 10.
  change ((1 - 1) * 10) with 0. change (Z.to_nat 0) with 0%nat.
  change (Z.to_nat 10) with 10%nat.
  cbn [skipn respond_page Response.status Response.pagination].
  split; [reflexivity|]. split.
  - unfold listed_notes. cbn [Response.data respond_page].
    rewrite note_of_toCamelCaseNote.
    rewrite <- firstn_map.
    rewrite (map_order_desc (fun x : NotesRoute.Row => fst (fst (fst x)))
               Note.createdAt).
    rewrite Hm. reflexivity.
  - rewrite <- Hm, length_map. reflexivity.
Qed.

(** ** The projects of an asset *)

(** The asset with its projects and the list of the projects of an
    asset agree: with a well-formed identifier in the spelling of the
    store and a store that does not
    fail, both answer 404 when the asset is missing, and otherwise both
    carry the projects whose assetId is the identifier, in table order,
    the list also their number. *)
Theorem asset_projects_listed_alike :
  forall env w id,
    uuidRegex_test id = true ->
    canonical id = true ->
    no_faults env ->
    let r1 := AssetIdRoute.GET id env w in
    let r2 := AssetProjectsRoute.GET id env w in
    let related := filter (assigned_to id) (projects (db w)) in
    match Store.join_asset (db w) (Some id) with
    | None =>
        fst r1 = failure 404 "Asset not found"
        /\ fst r2 = failure 404 "Asset not found"
    | Some asset =>
        fst r1 = respond 200 (asset_with_projects asset related) None
        /\ fst r2 = respond 200
                      (projects_of_asset related id (Asset.name asset)
                         (List.length related))
                      None
    end.
Proof.
  intros env w id Hid _ Hnf r1 r2 related.
  rewrite join_asset_first.
  assert (H1 : r1 =
            match filter (id_is Asset.id id) (assets (db w)) with
            | [] => (failure 404 "Asset not found",
                     logged w [q_ SELECT assets_table [id]] (db w))
            | asset :: _ =>
                (respond 200 (asset_with_projects asset related) None,
                 logged w [q_ SELECT assets_table [id];
                           q_ SELECT projects_table [id]] (db w))
            end).
  { subst r1. unfold AssetIdRoute.GET, try_catch, select_asset,
      select_projects_of. rewrite Hid. cbn [negb].
    unfold bind at 1. rewrite query_run by apply Hnf.
    destruct (filter (id_is Asset.id id) (assets (db w))) as [|asset rest];
      [reflexivity|].
    unfold bind at 1. rewrite query_run by apply Hnf.
    unfold ret, logged. cbn [db log ticks draws]. rewrite <- app_assoc.
    reflexivity. }
  assert (H2 : r2 =
            match filter (id_is Asset.id id) (assets (db w)) with
            | [] => (failure 404 "Asset not found",
                     logged w [q_ SELECT assets_table [id]] (db w))
            | asset :: _ =>
                (respond 200
                   (projects_of_asset related id (Asset.name asset)
                      (List.length related)) None,
                 logged w [q_ SELECT assets_table [id];
                           q_ SELECT projects_table [id]] (db w))
            end).
  { subst r2. unfold AssetProjectsRoute.GET, try_catch, select_asset,
      select_projects_of. rewrite Hid. cbn [negb].
    unfold bind at 1. rewrite query_run by apply Hnf.
    destruct (filter (id_is Asset.id id) (assets (db w))) as [|asset rest];
      [reflexivity|].
    unfold bind at 1. rewrite query_run by apply Hnf.
    unfold ret, logged. cbn [db log ticks draws]. rewrite <- app_assoc.
    reflexivity. }
  rewrite H1, H2.
  destruct (filter (id_is Asset.id id) (assets (db w))); split; reflexivity.
Qed.

(** ** The rule on assetId and assignedAt *)

Lemma rule_kept_same d d' : projects d' = projects d -> rule_kept d d'.
Proof. intros H p Hp. left. now rewrite <- H. Qed.

Lemma rule_kept_refl d : rule_kept d d.
Proof. now apply rule_kept_same. Qed.

Lemma rule_kept_trans d1 d2 d3 :
  rule_kept d1 d2 -> rule_kept d2 d3 -> rule_kept d1 d3.
Proof.
  intros H12 H23 p Hp. destruct (H23 p Hp) as [H|H]; [|now right].
  exact (H12 p H).
Qed.

Lemma quiet_bind {A B} env (Q : A -> Prop) (P : B -> Prop) (m : M A)
  (k : A -> M B) :
  quiet env Q m -> (forall a, Q a -> quiet env P (k a)) ->
  quiet env P (bind m k).
Proof.
  intros Hm Hk w. unfold bind. destruct (Hm w) as [Hd Hq].
  destruct (m env w) as [[e|a] w1]; cbn [fst snd] in *.
  - split; [exact Hd|]. intros b H. discriminate H.
  - destruct (Hk a (Hq a eq_refl) w1) as [Hd1 Hp].
    split; [congruence|exact Hp].
Qed.

Lemma quiet_weaken {A} env (P Q : A -> Prop) (m : M A) :
  (forall a, P a -> Q a) -> quiet env P m -> quiet env Q m.
Proof.
  intros HPQ Hm w. destruct (Hm w) as [Hd Hp]. split; [exact Hd|].
  intros a Ha. apply HPQ. now apply Hp.
Qed.

Lemma quiet_of_silent {A} env (m : M A) :
  silent env m -> quiet env (fun _ => True) m.
Proof. intros Hm w. split; [apply Hm|trivial]. Qed.

Lemma quiet_parse {A} env (P : A -> Prop) (r : Res A) :
  (forall v, r = Valid v -> P v) -> quiet env P (parse r).
Proof.
  intros Hv w. destruct r as [v|errs|errs]; cbn [parse].
  - apply quiet_ret. now apply Hv.
  - apply quiet_throw.
  - apply quiet_throw.
Qed.

Lemma silent_query {A} env (q : Query) (rows : DB -> A) :
  silent env (query q rows).
Proof.
  intros w. unfold query, statement.
  destruct (faults env (List.length (log w))); reflexivity.
Qed.

Lemma silent_draw_uuid env : silent env draw_uuid.
Proof. intros w. reflexivity. Qed.

Lemma silent_ret {A} env (a : A) : silent env (ret a).
Proof. intros w. reflexivity. Qed.

Lemma silent_bind {A B} env (m : M A) (k : A -> M B) :
  silent env m -> (forall a, silent env (k a)) -> silent env (bind m k).
Proof.
  intros Hm Hk w. unfold bind. specialize (Hm w).
  destruct (m env w) as [[e|a] w1]; cbn [snd] in *; [exact Hm|].
  rewrite Hk. exact Hm.
Qed.

Lemma silent_associated_asset env ref : silent env (associated_asset ref).
Proof.
  unfold associated_asset. destruct ref as [i|]; [|apply silent_ret].
  destruct (Js.truthy i); [|apply silent_ret].
  apply silent_bind; [apply silent_query|intros; apply silent_ret].
Qed.

Lemma silent_associated_project env ref :
  silent env (CaseIdRoute.associated_project ref).
Proof.
  unfold CaseIdRoute.associated_project.
  destruct ref as [i|]; [|apply silent_ret].
  destruct (Js.truthy i); [|apply silent_ret].
  apply silent_bind; [apply silent_query|intros; apply silent_ret].
Qed.

Lemma keeps_silent {A} env (m : M A) : silent env m -> keeps env m.
Proof. intros Hm w. apply rule_kept_same. now rewrite Hm. Qed.

Lemma keeps_ret {A} env (a : A) : keeps env (ret a).
Proof. apply keeps_silent, silent_ret. Qed.

Lemma keeps_throw {A} env (e : Exn) : keeps env (@throw A e).
Proof. intros w. apply rule_kept_refl. Qed.

Lemma keeps_bind {A B} env (m : M A) (k : A -> M B) :
  keeps env m -> (forall a, keeps env (k a)) -> keeps env (bind m k).
Proof.
  intros Hm Hk w. unfold bind. specialize (Hm w).
  destruct (m env w) as [[e|a] w1]; cbn [snd] in *; [exact Hm|].
  eapply rule_kept_trans; [exact Hm|apply Hk].
Qed.

Lemma keeps_bind_quiet {A B} env (Q : A -> Prop) (m : M A) (k : A -> M B) :
  quiet env Q m -> (forall a, Q a -> keeps env (k a)) ->
  keeps env (bind m k).
Proof.
  intros Hm Hk w. unfold bind. destruct (Hm w) as [Hd Hq].
  destruct (m env w) as [[e|a] w1]; cbn [fst snd] in Hd, Hq;
    cbv beta iota; cbn [snd].
  - apply rule_kept_same. now rewrite Hd.
  - apply (rule_kept_trans (db w) (db w1));
      [apply rule_kept_same; now rewrite Hd|apply (Hk a (Hq a eq_refl))].
Qed.

Lemma keeps_ask {B} env (k : Env -> M B) :
  keeps env (k env) -> keeps env (bind ask k).
Proof. intros Hk w. exact (Hk w). Qed.

Lemma keeps_statement {A} env (q : Query) (run : DB -> option (A * DB)) :
  (forall d a d', run d = Some (a, d') -> rule_kept d d') ->
  keeps env (statement q run).
Proof.
  intros Hrun w. unfold statement.
  destruct (faults env (List.length (log w))); [apply rule_kept_refl|].
  destruct (run (db w)) as [[a d']|] eqn:E; [|apply rule_kept_refl].
  cbn [snd db]. exact (Hrun _ _ _ E).
Qed.

Lemma keeps_try_catch {A} env (body : M A) (recover : Exn -> A) w :
  keeps env body ->
  rule_kept (db w) (db (snd (try_catch body recover env w))).
Proof.
  intros Hb. unfold try_catch. specialize (Hb w).
  destruct (body env w) as [[e|a] w1]; exact Hb.
Qed.

(** *** What the statements do to the rule *)

Lemma set_assignment_consistent ref at_ upd p :
  isNull ref = isNull at_ ->
  assignment_consistent (Store.set_project (Store.set_assignment ref at_ upd) p)
  = true.
Proof.
  intros H. unfold assignment_consistent.
  cbn [Store.set_project Store.set_assignment Project.assetId
       Project.assignedAt ProjectSet.assetId ProjectSet.assignedAt Store.over].
  rewrite H. apply Bool.eqb_reflx.
Qed.

Lemma update_projects_rule where_ s d a d' :
  (forall p, assignment_consistent (Store.set_project s p) = true) ->
  Store.update_projects where_ s d = Some (a, d') -> rule_kept d d'.
Proof.
  intros Hs H. unfold Store.update_projects in H.
  destruct (forallb _ _); [|discriminate H]. injection H as _ <-.
  intros p Hp. cbn [projects] in Hp. unfold Store.update_rows in Hp.
  apply in_map_iff in Hp. destruct Hp as [x [Hx Hin]].
  destruct (where_ x); subst p; [right; apply Hs|now left].
Qed.

Lemma update_assets_rule where_ s d a d' :
  Store.update_assets where_ s d = Some (a, d') -> rule_kept d d'.
Proof.
  intros H. injection H as _ <-. now apply rule_kept_same.
Qed.

Lemma update_cases_rule where_ s d a d' :
  Store.update_cases where_ s d = Some (a, d') -> rule_kept d d'.
Proof.
  unfold Store.update_cases. destruct (forallb _ _); [|discriminate].
  intros H. injection H as _ <-. now apply rule_kept_same.
Qed.

Lemma delete_projects_rule where_ d : 
  rule_kept d (snd (Store.delete_projects where_ d)).
Proof.
  intros p Hp. cbn [Store.delete_projects snd projects] in Hp.
  apply filter_In in Hp. left. tauto.
Qed.

Lemma insert_project_rule row d a d' :
  assignment_consistent row = true ->
  Store.insert_project row d = Some (a, d') -> rule_kept d d'.
Proof.
  intros Hrow H. unfold Store.insert_project in H.
  destruct (_ && _); [|discriminate H]. injection H as _ <-.
  intros p Hp. cbn [projects] in Hp. apply in_app_or in Hp.
  destruct Hp as [Hp|[<-|[]]]; [now left|now right].
Qed.

Lemma insert_note_rule row d a d' :
  Store.insert_note row d = Some (a, d') -> rule_kept d d'.
Proof.
  unfold Store.insert_note. destruct (_ && _); [|discriminate].
  intros H. injection H as _ <-. now apply rule_kept_same.
Qed.

(** The deletion of assets that no project references changes no
    project. *)
Lemma delete_assets_unreferenced where_ d :
  (forall p a, In p (projects d) -> In a (assets d) -> where_ a = true ->
               Project.assetId p <> Some (Asset.id a)) ->
  projects (snd (Store.delete_assets where_ d)) = projects d.
Proof.
  intros Href. cbn [Store.delete_assets snd projects].
  rewrite <- (map_id (projects d)) at 2. apply map_ext_in. intros p Hp.
  assert (Hkeep : Store.set_null
                    (Store.ids_of Asset.id (filter where_ (assets d)))
                    (Project.assetId p) = Project.assetId p).
  { destruct (Project.assetId p) as [i|] eqn:Hi; [|reflexivity].
    cbn [Store.set_null].
    destruct (Store.ids_of Asset.id (filter where_ (assets d)) i) eqn:E;
      [|reflexivity].
    exfalso. unfold Store.ids_of in E. apply existsb_exists in E.
    destruct E as [a [Ha Hai]]. apply filter_In in Ha.
    destruct Ha as [Ha Hw]. apply String.eqb_eq in Hai.
    apply (Href p a Hp Ha Hw). congruence. }
  rewrite Hkeep. apply set_project_same_ref.
Qed.

(** Unlinking the projects of some assets, then deleting these assets. *)
Lemma keeps_unlink_delete {B} env q1 q2 (f : Project.t -> bool)
  (g : Asset.t -> bool) (k : list Asset.t -> M B) :
  (forall p a, f p = false -> g a = true ->
               Project.assetId p <> Some (Asset.id a)) ->
  (forall a, keeps env (k a)) ->
  keeps env
    (bind (statement q1 (Store.update_projects f AssetIdRoute.unlink_all))
       (fun _ =>
          bind (statement q2 (fun d => Some (Store.delete_assets g d))) k)).
Proof.
  intros Hfg Hk w. unfold bind at 1. unfold statement at 1.
  destruct (faults env (List.length (log w))); [apply rule_kept_refl|].
  unfold AssetIdRoute.unlink_all. rewrite update_projects_unassign.
  set (d1 := {| assets := assets (db w);
                projects := Store.update_rows f
                              (Store.set_project
                                 (Store.set_assignment None None None))
                              (projects (db w));
                case_status := case_status (db w);
                notes := notes (db w) |}).
  assert (H1 : rule_kept (db w) d1).
  { intros p Hp. cbn [d1 projects] in Hp. unfold Store.update_rows in Hp.
    apply in_map_iff in Hp. destruct Hp as [x [Hx Hin]].
    destruct (f x); subst p; [right|now left].
    now apply set_assignment_consistent. }
  assert (H2 : projects (snd (Store.delete_assets g d1)) = projects d1).
  { apply delete_assets_unreferenced. intros p a Hp Ha Hg.
    cbn [d1 projects] in Hp. unfold Store.update_rows in Hp.
    apply in_map_iff in Hp. destruct Hp as [x [Hx Hin]].
    destruct (f x) eqn:E; subst p; [discriminate|].
    now apply Hfg. }
  unfold bind at 1. unfold statement at 1. cbn [db log ticks draws].
  destruct (faults env _); [exact H1|].
  destruct (Store.delete_assets g d1) as [a d2] eqn:Hdel.
  cbn [snd] in H2.
  match goal with
  | |- context [k a env ?w2] =>
      specialize (Hk a w2); destruct (k a env w2) as [[e|b] w3]
  end;
    cbn [snd db] in *;
    (apply (rule_kept_trans (db w) d1); [exact H1|]);
    (apply (rule_kept_trans d1 d2);
     [apply rule_kept_same; exact H2|exact Hk]).
Qed.

Lemma delete_projects_run_rule where_ d a d' :
  Some (Store.delete_projects where_ d) = Some (a, d') -> rule_kept d d'.
Proof.
  intros H.
  assert (Hd : d' = snd (Store.delete_projects where_ d))
    by (injection H as _ <-; reflexivity).
  rewrite Hd. apply delete_projects_rule.
Qed.

Lemma delete_cases_run_rule where_ d a d' :
  Some (Store.delete_cases where_ d) = Some (a, d') -> rule_kept d d'.
Proof.
  intros H. injection H as _ <-. now apply rule_kept_same.
Qed.

Lemma delete_notes_run_rule where_ d a d' :
  Some (Store.delete_notes where_ d) = Some (a, d') -> rule_kept d d'.
Proof.
  intros H. injection H as _ <-. now apply rule_kept_same.
Qed.

Ltac rule_of_statement :=
  let d := fresh "d" in
  let a := fresh "a" in
  let d' := fresh "d'" in
  let Hrun := fresh "Hrun" in
  intros d a d' Hrun;
  first
    [ eapply update_assets_rule; exact Hrun
    | eapply update_cases_rule; exact Hrun
    | eapply insert_note_rule; exact Hrun
    | eapply delete_projects_run_rule; exact Hrun
    | eapply delete_cases_run_rule; exact Hrun
    | eapply delete_notes_run_rule; exact Hrun
    | eapply update_projects_rule; [|exact Hrun];
      intros; apply set_assignment_consistent; reflexivity
    | eapply insert_project_rule; [|exact Hrun]; reflexivity ].

Ltac silent_step m :=
  lazymatch m with
  | query _ _ => apply silent_query
  | parse _ => apply silent_parse
  | new_Date => apply silent_new_Date
  | draw_uuid => apply silent_draw_uuid
  | ret _ => apply silent_ret
  | assignedAt_for _ => apply silent_assignedAt_for
  | associated_asset _ => apply silent_associated_asset
  | CaseIdRoute.associated_project _ => apply silent_associated_project
  end.

Ltac keeps_step :=
  lazymatch goal with
  | |- keeps _ (if ?b then _ else _) => destruct b
  | |- keeps _ (match ?x with _ => _ end) => destruct x eqn:?
  | |- keeps _ (ret _) => apply keeps_ret
  | |- keeps _ (throw _) => apply keeps_throw
  | |- keeps _ (bind ask _) => apply keeps_ask
  | |- keeps _ (statement _ _) => apply keeps_statement; rule_of_statement
  | |- keeps _ (bind (statement _ _) _) =>
      apply keeps_bind;
      [apply keeps_statement; rule_of_statement | intros ?]
  | |- keeps _ (bind (match ?x with _ => _ end) _) => destruct x eqn:?
  | |- keeps _ (bind (bind _ _) _) => apply keeps_bind; [|intros ?]
  | |- keeps _ (bind ?m _) =>
      apply keeps_bind; [apply keeps_silent; silent_step m | intros ?]
  end.

Ltac keeps_handler :=
  apply keeps_try_catch;
  unfold select_asset, select_project, select_projects_of, unlink_where,
    delete_assets_in, ProjectsRoute.insert, ProjectsRoute.new_row,
    AssetProjectsRoute.assigned_to_asset;
  cbv zeta; repeat keeps_step.

Lemma unlinked_one_unreferenced id (p : Project.t) (a : Asset.t) :
  assigned_to id p = false -> id_is Asset.id id a = true ->
  Project.assetId p <> Some (Asset.id a).
Proof.
  unfold assigned_to, id_is. intros Hp Ha Heq. rewrite Heq in Hp.
  cbn [eq_col] in Hp. congruence.
Qed.

Lemma unlinked_all_unreferenced ids (p : Project.t) (a : Asset.t) :
  any_of ids (Project.assetId p) = false ->
  existsb (String.eqb (Asset.id a)) ids = true ->
  Project.assetId p <> Some (Asset.id a).
Proof.
  unfold any_of. intros Hp Ha Heq. rewrite Heq in Hp.
  change (existsb (String.eqb (Asset.id a)) ids = false) in Hp.
  congruence.
Qed.

(** Every operation addressed by identifiers, but the update of a
    project, keeps the rule on assetId and assignedAt whatever the request
    and whether or not statements fail: each project row it leaves is a
    row that was there or has an assignment date exactly when it has an
    asset. *)
Theorem operations_keep_the_assignment_rule :
  forall op env w,
    (forall id body, op <> UpdateProject id body) ->
    rule_kept (db w) (db (snd (handler op env w))).
Proof.
  intros op env w Hop. destruct op; cbn [handler].
  - unfold AssetIdRoute.GET. keeps_handler.
  - unfold AssetIdRoute.PUT. keeps_handler.
  - unfold AssetIdRoute.DELETE. apply keeps_try_catch.
    destruct (negb (uuidRegex_test id)); [apply keeps_ret|].
    apply keeps_unlink_delete; [apply unlinked_one_unreferenced|].
    intros a. destruct a; apply keeps_ret.
  - unfold ProjectIdRoute.GET. keeps_handler.
  - exfalso. exact (Hop id body eq_refl).
  - unfold ProjectIdRoute.DELETE. keeps_handler.
  - unfold AssetProjectsRoute.GET. keeps_handler.
  - unfold AssetProjectsRoute.POST. keeps_handler.
  - unfold AssetProjectRoute.GET. keeps_handler.
  - unfold AssetProjectRoute.PUT. keeps_handler.
  - unfold AssetProjectRoute.DELETE. keeps_handler.
  - unfold CaseIdRoute.GET. keeps_handler.
  - unfold CaseIdRoute.PUT. keeps_handler.
  - unfold CaseIdRoute.DELETE. keeps_handler.
  - unfold NoteIdRoute.DELETE. keeps_handler.
  - unfold AssetsRoute.DELETE. apply keeps_try_catch.
    destruct (ids_or_refusal _ _ _) as [refusal|l] eqn:Hids;
      [apply keeps_ret|].
    destruct (ids_accepted_nonempty _ _ _ _ Hids) as [Hne _].
    unfold unlink_where, delete_assets_in.
    destruct (1 <? Z.of_nat (List.length l)) eqn:Hlen.
    + apply keeps_bind.
      * apply keeps_statement. intros d a d' Hrun.
        eapply update_projects_rule; [|exact Hrun].
        intros p. now apply set_assignment_consistent.
      * intros _. apply keeps_unlink_delete;
          [apply unlinked_all_unreferenced|intros a; apply keeps_ret].
    + assert (Hone : l = [hd "" l]).
      { destruct l as [|h [|h' rest]]; [congruence|reflexivity|].
        cbn [List.length] in Hlen. apply Z.ltb_ge in Hlen. lia. }
      change (keeps env
                (bind (statement (q_ UPDATE projects_table [hd "" l])
                         (Store.update_projects (assigned_to (hd "" l))
                            AssetIdRoute.unlink_all))
                   (fun _ =>
                      bind (statement (q_ DELETE assets_table l)
                              (fun d =>
                                 Some (Store.delete_assets
                                         (fun a =>
                                            existsb (String.eqb (Asset.id a)) l)
                                         d)))
                        (fun deletedAssets =>
                           ret (respond 200 (asset_rows deletedAssets)
                                  (Some (count_message
                                           (List.length deletedAssets)
                                           " assets deleted successfully"))))))).
      apply keeps_unlink_delete; [|intros a; apply keeps_ret].
      intros p a Hp Ha. rewrite Hone in Ha. cbn [existsb] in Ha.
      rewrite orb_false_r in Ha.
      apply (unlinked_one_unreferenced (hd "" l)); [exact Hp|].
      unfold id_is. exact Ha.
  - unfold AssetsBulkRoute.DELETE. apply keeps_try_catch.
    destruct (ids_or_refusal _ _ _) as [refusal|l]; [apply keeps_ret|].
    unfold unlink_where, delete_assets_in.
    apply keeps_unlink_delete;
      [apply unlinked_all_unreferenced|intros a; apply keeps_ret].
  - unfold ProjectsRoute.DELETE. keeps_handler.
Qed.

(** ** Assigning projects in bulk *)

Lemma assignmentSchema_wellformed env assignment v :
  AssetsBulkAssign.assignmentSchema env assignment = Valid v ->
  wellformed_assignment env v.
Proof.
  unfold AssetsBulkAssign.assignmentSchema.
  destruct assignment; try discriminate.
  intros H. split_valid H. injection H as <-.
  intros s Hs. cbn [AssetsBulkAssign.assetId] in Hs. subst.
  unfold nullable, z_string_format, res_map in *.
  destruct (prop "assetId" (JObj fields)) as [[| b | q | t | l | o]|];
    try discriminate.
  destruct (zod_uuid env t) eqn:E; [|discriminate].
  congruence.
Qed.

Lemma parse_each_cons env a rest :
  AssetsBulkAssign.parse_each env (a :: rest)
  = (v <- parse (AssetsBulkAssign.assignmentSchema env a) ;;
     vs <- AssetsBulkAssign.parse_each env rest ;;
     ret (v :: vs)).
Proof. reflexivity. Qed.

(** Validating the assignments sends nothing and reads no clock; it
    yields the validated assignments or the issues of the first one that
    does not validate. *)
Lemma parse_each_run env0 env assignments w :
  (exists vs,
     AssetsBulkAssign.parse_each env assignments env0 w = (inr vs, w)
     /\ Forall (wellformed_assignment env) vs
     /\ forall a, In a assignments ->
                  exists v, AssetsBulkAssign.assignmentSchema env a = Valid v)
  \/ (exists a,
        In a assignments
        /\ (forall v, AssetsBulkAssign.assignmentSchema env a <> Valid v)
        /\ AssetsBulkAssign.parse_each env assignments env0 w
           = (inl (ZodError
                     (issues (AssetsBulkAssign.assignmentSchema env a))), w)).
Proof.
  induction assignments as [|a rest IH].
  - left. exists []. split; [reflexivity|]. split; [constructor|].
    intros a [].
  - rewrite parse_each_cons. unfold bind at 1.
    destruct (AssetsBulkAssign.assignmentSchema env a) as [v|errs|errs] eqn:Hv.
    + cbn [parse]. unfold ret at 1. cbv beta iota.
      destruct IH as [[vs [Hrun [Hwf Hall]]]|[b [Hb [Hnv Hrun]]]].
      * left. exists (v :: vs). unfold bind. cbv beta. rewrite Hrun.
        split; [reflexivity|]. split.
        -- constructor; [|exact Hwf].
           eapply assignmentSchema_wellformed. exact Hv.
        -- intros x [<-|Hx]; [now exists v|now apply Hall].
      * right. exists b. split; [now right|]. split; [exact Hnv|].
        unfold bind, ret. cbv beta iota. rewrite Hrun. reflexivity.
    + right. exists a. split; [now left|]. rewrite Hv.
      split; [discriminate|reflexivity].
    + right. exists a. split; [now left|]. rewrite Hv.
      split; [discriminate|reflexivity].
Qed.

(** The bulk assignment validates every assignment before it sends a
    statement: when one of them does not validate the answer is 400, and
    nothing has been sent, no clock read and the store left as it was,
    also for the assignments that validate. *)
Theorem bulk_assignment_validates_first :
  forall env w fields assignments,
    assoc "assignments" fields = Some (JArr assignments) ->
    (exists a, In a assignments
               /\ forall v,
                    AssetsBulkAssign.assignmentSchema env a <> Valid v) ->
    let r := AssetsBulkAssign.PUT (JObj fields) env w in
    answer_status (fst r) = 400 /\ snd r = w.
Proof.
  intros env w fields assignments Hfield Hbad r.
  assert (Hrun : exists det,
             r = (AssetsBulkAssign.refusal 400 "Validation failed" det, w)).
  { subst r. unfold AssetsBulkAssign.PUT, try_catch. cbn [prop].
    rewrite Hfield. unfold bind at 1. unfold ask. unfold bind at 1.
    destruct (parse_each_run env env assignments w)
      as [[vs [_ [_ Hall]]]|[b [_ [_ Hrun]]]].
    - exfalso. destruct Hbad as [a [Ha Hnv]].
      destruct (Hall a Ha) as [v Hv]. exact (Hnv v Hv).
    - rewrite Hrun. eexists. reflexivity. }
  destruct Hrun as [det Hrun]. rewrite Hrun. split; reflexivity.
Qed.

Lemma start_all_quiet {A C} env (P : A -> Prop) (Q : C -> Prop)
  (before : A -> M C) (items : list A) w :
  Forall P items ->
  (forall x, P x -> quiet env Q (before x)) ->
  db (snd (start_all before items env w)) = db w
  /\ Forall (fun r => match r with inr c => Q c | inl _ => True end)
       (fst (start_all before items env w)).
Proof.
  intros Hitems Hb. revert w.
  induction Hitems as [|x rest Hx Hrest IH]; intros w; cbn [start_all].
  - split; [reflexivity|constructor].
  - destruct (Hb x Hx w) as [Hd Hq].
    destruct (before x env w) as [r w1]. cbn [fst snd] in Hd, Hq.
    destruct (IH w1) as [Hd1 Hq1].
    destruct (start_all before rest env w1) as [rs w2].
    cbn [fst snd] in *. split; [congruence|].
    constructor; [|exact Hq1].
    destruct r as [e|c]; [trivial|now apply Hq].
Qed.

Lemma settle_all_keeps {C B} env (Q : C -> Prop) (after : C -> M B)
  (started : list (Exn + C)) w :
  Forall (fun r => match r with inr c => Q c | inl _ => True end) started ->
  (forall c, Q c -> keeps env (after c)) ->
  rule_kept (db w) (db (snd (settle_all after started env w))).
Proof.
  intros Hs Ha. revert w.
  induction Hs as [|r rest Hr Hrest IH]; intros w; cbn [settle_all].
  - apply rule_kept_refl.
  - destruct r as [e|c].
    + specialize (IH w). destruct (settle_all after rest env w) as [rs w1].
      exact IH.
    + pose proof (Ha c Hr w) as H1. destruct (after c env w) as [r w1].
      specialize (IH w1). destruct (settle_all after rest env w1) as [rs w2].
      cbn [snd] in *. eapply rule_kept_trans; eassumption.
Qed.

Lemma keeps_Promise_all {A C B} env (P : A -> Prop) (Q : C -> Prop)
  (before : A -> M C) (after : C -> M B) (items : list A) :
  Forall P items ->
  (forall x, P x -> quiet env Q (before x)) ->
  (forall c, Q c -> keeps env (after c)) ->
  keeps env (Promise_all before after items).
Proof.
  intros Hitems Hb Ha w. unfold Promise_all.
  destruct (start_all_quiet env P Q before items w Hitems Hb) as [Hd Hq].
  destruct (start_all before items env w) as [started w1].
  cbn [fst snd] in Hd, Hq.
  pose proof (settle_all_keeps env Q after started w1 Hq Ha) as H2.
  destruct (settle_all after started env w1) as [rs w2].
  cbn [snd] in H2.
  assert (H : rule_kept (db w) (db w2)) by (rewrite <- Hd; exact H2).
  destruct (first_rejection started); [exact H|].
  destruct (first_rejection rs); exact H.
Qed.

Lemma before_assign_quiet env a :
  zod_uuid env "" = false ->
  wellformed_assignment env a ->
  quiet env
    (fun c => forall p,
                assignment_consistent (Store.set_project (snd c) p) = true)
    (AssetsBulkAssign.before_assign a).
Proof.
  intros Hempty Hwf. unfold AssetsBulkAssign.before_assign.
  apply (quiet_bind env
           (fun at_ => isNull (AssetsBulkAssign.assetId a) = isNull at_)).
  - destruct (AssetsBulkAssign.assetId a) as [s|] eqn:Hs.
    + assert (Ht : Js.truthy s = true).
      { destruct s; [|reflexivity].
        rewrite (Hwf "" Hs) in Hempty. discriminate Hempty. }
      cbn [col_truthy]. rewrite Ht.
      apply (quiet_bind env (fun _ => True));
        [apply quiet_of_silent, silent_new_Date|].
      intros now _. now apply quiet_ret.
    + cbn [col_truthy]. now apply quiet_ret.
  - intros at_ Hat.
    apply (quiet_bind env (fun _ => True));
      [apply quiet_of_silent, silent_new_Date|].
    intros upd _. apply quiet_ret. intros p. cbn [snd].
    now apply set_assignment_consistent.
Qed.

Lemma after_assign_keeps env c :
  (forall p, assignment_consistent (Store.set_project (snd c) p) = true) ->
  keeps env (AssetsBulkAssign.after_assign c).
Proof.
  intros Hc. unfold AssetsBulkAssign.after_assign.
  apply keeps_bind; [|intros; apply keeps_ret].
  apply keeps_statement. intros d a d' Hrun.
  eapply update_projects_rule; [exact Hc|exact Hrun].
Qed.

Lemma parse_each_quiet env0 env assignments :
  quiet env0 (Forall (wellformed_assignment env))
    (AssetsBulkAssign.parse_each env assignments).
Proof.
  intros w.
  destruct (parse_each_run env0 env assignments w)
    as [[vs [Hrun [Hwf _]]]|[b [_ [_ Hrun]]]]; rewrite Hrun; cbn [fst snd].
  - split; [reflexivity|]. intros a H. now injection H as <-.
  - split; [reflexivity|]. intros a H. discriminate H.
Qed.

(** The bulk assignment and the creation of a project keep the rule on
    assetId and assignedAt, whatever the request and whether or not
    statements fail: each project row they leave is a row that was there
    or has an assignment date exactly when it has an asset. The empty
    string is taken to be no identifier. *)
Theorem assigning_writes_keep_the_rule :
  forall env w body,
    zod_uuid env "" = false ->
    rule_kept (db w) (db (snd (AssetsBulkAssign.PUT body env w)))
    /\ rule_kept (db w) (db (snd (ProjectsRoute.POST body env w))).
Proof.
  intros env w body Hempty. split.
  - unfold AssetsBulkAssign.PUT. apply keeps_try_catch.
    destruct body; try apply keeps_throw;
      (destruct (prop "assignments" _) as [[| ? | ? | ? | l | ?]|];
       try apply keeps_ret).
    all: apply keeps_ask;
      apply (keeps_bind_quiet env (Forall (wellformed_assignment env)));
      [apply parse_each_quiet|];
      intros vs Hvs; apply keeps_bind; [|intros; apply keeps_ret];
      apply (keeps_Promise_all env (wellformed_assignment env)
               (fun c => forall p,
                           assignment_consistent
                             (Store.set_project (snd c) p) = true));
      [exact Hvs
      |intros x Hx; now apply before_assign_quiet
      |intros c Hc; now apply after_assign_keeps].
  - unfold ProjectsRoute.POST. apply keeps_try_catch. apply keeps_ask.
    apply (keeps_bind_quiet env
             (fun v => forall s, ProjectInput.assetId v = Some (Some s) ->
                                 zod_uuid env s = true)).
    { apply quiet_parse. intros v Hv s. now apply insert_project_ref with body. }
    intros v Hv.
    pose proof (ref_truthy_flatten env (ProjectInput.assetId v) Hempty Hv)
      as Htruthy.
    apply (keeps_bind_quiet env
             (fun at_ => isNull (flatten (ProjectInput.assetId v))
                         = isNull at_)).
    { unfold assignedAt_for. rewrite Htruthy.
      destruct (flatten (ProjectInput.assetId v)); cbn [isNotNull isNull negb].
      - apply (quiet_bind env (fun _ => True));
          [apply quiet_of_silent, silent_new_Date|].
        intros now _. now apply quiet_ret.
      - now apply quiet_ret. }
    intros at_ Hat.
    apply keeps_bind; [apply keeps_silent, silent_new_Date|]. intros upd.
    apply keeps_bind.
    + unfold ProjectsRoute.insert.
      apply keeps_bind;
        [destruct (ProjectInput.id v);
         apply keeps_silent; [apply silent_ret|apply silent_draw_uuid]|].
      intros i. apply keeps_bind;
        [destruct (ProjectInput.createdAt v);
         apply keeps_silent; [apply silent_ret|apply silent_new_Date]|].
      intros c. apply keeps_statement. intros d a d' Hrun.
      eapply insert_project_rule; [|exact Hrun].
      unfold assignment_consistent, ProjectsRoute.new_row.
      cbn [Project.assetId Project.assignedAt]. rewrite Hat.
      apply Bool.eqb_reflx.
    + intros inserted. destruct inserted as [|newProject rest];
        [apply keeps_throw|].
      apply keeps_bind;
        [apply keeps_silent, silent_associated_asset|].
      intros a. apply keeps_ret.
Qed.

Lemma update_rows_none {R} (where_ : R -> bool) (set : R -> R)
  (rows : list R) :
  filter where_ rows = [] -> Store.update_rows where_ set rows = rows.
Proof.
  unfold Store.update_rows. induction rows as [|r rows IH]; [reflexivity|].
  cbn [filter map]. destruct (where_ r); [discriminate|].
  intros H. now rewrite (IH H).
Qed.

Lemma assign_needs_asset_then_project_aux env w assetId projectId :
  uuidRegex_test assetId = true ->
  uuidRegex_test projectId = true ->
  no_faults env ->
  Store.has_asset (db w) assetId = true ->
  Store.has_project (db w) projectId = false ->
  fst (AssetProjectRoute.PUT assetId projectId env w)
  = failure 404 "Project not found"
  /\ db (snd (AssetProjectRoute.PUT assetId projectId env w)) = db w.
Proof.
  intros Ha Hp Hnf Hhas Hno.
  assert (Hrun : exists w',
             AssetProjectRoute.PUT assetId projectId env w
             = (failure 404 "Project not found", w') /\ db w' = db w).
  { destruct (existsb_filter _ _ Hhas) as [asset [rest [Hf _]]].
    unfold AssetProjectRoute.PUT, try_catch, AssetProjectRoute.bad_ids,
      select_asset, select_project.
    rewrite Ha, Hp. cbn [negb orb]. unfold bind at 1.
    rewrite query_run by apply Hnf.
    unfold id_is at 1. rewrite Hf.
    unfold bind at 1. rewrite query_run by apply Hnf. cbn [db].
    rewrite (filter_id_absent Project.id projectId _ Hno).
    eexists. split; reflexivity. }
  destruct Hrun as [w' [Hrun Hd]]. rewrite Hrun. split; [reflexivity|exact Hd].
Qed.

(** A bulk assignment of one project to one asset that exists, with
    identifiers in the spelling of the store. When the
    project exists, the store is left as the assignment of that project to
    that asset by /api/assets/[id]/projects/[projectId] leaves it. When
    the project does not exist, the single assignment answers 404, whereas
    the bulk assignment answers 200 with one empty result; the store is as
    it was. *)
Theorem bulk_assignment_of_one :
  forall env w assetId projectId,
    uuidRegex_test assetId = true ->
    uuidRegex_test projectId = true ->
    canonical assetId = true ->
    canonical projectId = true ->
    zod_uuid env assetId = true ->
    zod_uuid env projectId = true ->
    Js.truthy assetId = true ->
    no_faults env ->
    Store.has_asset (db w) assetId = true ->
    let bulk :=
      AssetsBulkAssign.PUT
        (JObj [("assignments",
                JArr [JObj [("projectId", JStr projectId);
                            ("assetId", JStr assetId)]])])
        env w in
    let single := AssetProjectRoute.PUT assetId projectId env w in
    answer_status (fst bulk) = 200
    /\ (Store.has_project (db w) projectId = true ->
          db (snd bulk) = db (snd single)
          /\ Response.status (fst single) = 200)
    /\ (Store.has_project (db w) projectId = false ->
          answer_data (fst bulk) = Some [None]
          /\ db (snd bulk) = db w
          /\ Response.status (fst single) = 404).
Proof.
  intros env w assetId projectId Ha Hp _ _ Hza Hzp Htr Hnf HasA bulk single.
  set (set_ := Store.set_assignment (Some assetId)
                 (Some (clock env (ticks w)))
                 (Some (clock env (S (ticks w))))).
  set (d' := {| assets := assets (db w);
                projects := Store.update_rows (id_is Project.id projectId)
                              (Store.set_project set_) (projects (db w));
                case_status := case_status (db w);
                notes := notes (db w) |}).
  assert (Hbulk : exists w',
             bulk =
             ({| answer_status := 200; answer_error := None;
                 answer_details := no_details;
                 answer_data :=
                   Some [hd_error
                           (Store.returning (id_is Project.id projectId)
                              (Store.set_project set_) (projects (db w)))];
                 answer_message :=
                   Some (count_message 1
                           " project assignments updated successfully") |},
              w')
             /\ db w' = d').
  { subst bulk. unfold AssetsBulkAssign.PUT, try_catch. cbn [prop].
    simpl (assoc "assignments" _).
    unfold bind at 1. unfold ask. unfold bind at 1.
    rewrite parse_each_cons. unfold bind at 1.
    unfold AssetsBulkAssign.assignmentSchema. cbn [prop].
    simpl (assoc "projectId" _). simpl (assoc "assetId" _).
    unfold nullable, z_string_format, res_map. rewrite Hza, Hzp.
    cbn [ap parse]. unfold ret at 1.
    cbn [AssetsBulkAssign.parse_each]. unfold bind at 1. unfold ret at 1 2.
    unfold bind at 1. unfold Promise_all. cbn [start_all].
    unfold AssetsBulkAssign.before_assign.
    cbn [AssetsBulkAssign.assetId AssetsBulkAssign.projectId col_truthy].
    rewrite Htr. unfold bind at 1. unfold bind at 1.
    unfold new_Date at 1. unfold ret at 1.
    unfold bind at 1. unfold new_Date at 1.
    cbn [db log ticks draws]. unfold ret at 1.
    cbn [settle_all first_rejection].
    unfold AssetsBulkAssign.after_assign. cbn [fst snd].
    unfold bind at 1.
    erewrite statement_run;
      [| apply Hnf | apply update_projects_assign; exact HasA].
    unfold ret. cbn [first_rejection fulfilled List.length].
    eexists. split; reflexivity. }
  destruct Hbulk as [w' [Hbulk Hd']]. rewrite Hbulk. cbn [fst snd].
  split; [reflexivity|]. split.
  - intros HasP. rewrite Hd'.
    subst single.
    rewrite (assign_run env w assetId projectId Ha Hp Hnf HasA HasP).
    split; [reflexivity|].
    destruct (existsb_filter _ _ HasA) as [asset [arest [HfA _]]].
    destruct (existsb_filter _ _ HasP) as [proj [prest [HfP _]]].
    assert (Hrun : exists resp w2,
               AssetProjectRoute.PUT assetId projectId env w = (resp, w2)
               /\ Response.status resp = 200).
    { unfold AssetProjectRoute.PUT, try_catch,
        AssetProjectRoute.bad_ids, select_asset, select_project.
      rewrite Ha, Hp. cbn [negb orb]. unfold bind at 1.
      rewrite query_run by apply Hnf. unfold id_is at 1. rewrite HfA.
      unfold bind at 1. rewrite query_run by apply Hnf.
      cbn [db]. unfold id_is at 1. rewrite HfP.
      unfold bind, new_Date. cbn [db log ticks draws].
      erewrite statement_run;
        [| apply Hnf | apply update_projects_assign; exact HasA].
      cbn [db]. unfold Store.returning, id_is at 1. rewrite HfP.
      eexists. eexists. split; reflexivity. }
    destruct Hrun as [resp [w2 [Hrun Hst]]]. rewrite Hrun. exact Hst.
  - intros HnoP.
    pose proof (filter_id_absent Project.id projectId _ HnoP) as Hnone.
    unfold Store.returning. rewrite Hnone. cbn [map hd_error].
    split; [reflexivity|]. split.
    + rewrite Hd'. unfold d'. rewrite (update_rows_none _ _ _ Hnone).
      destruct (db w); reflexivity.
    + destruct (assign_needs_asset_then_project_aux env w assetId projectId
                  Ha Hp Hnf HasA HnoP) as [H _].
      subst single. rewrite H. reflexivity.
Qed.

(** ** Updating an asset *)

Lemma update_asset_keeps_key env body s :
  Schema.updateAssetSchema env body = Valid s ->
  AssetSet.id s = None /\ AssetSet.createdAt s = None.
Proof.
  unfold Schema.updateAssetSchema, Schema.assetSchema.
  destruct body; try discriminate.
  intros H. split_valid H. injection H as <-.
  cbn [AssetSet.id AssetSet.createdAt].
  unfold Schema.omitted in *. split; congruence.
Qed.

(** An update of an asset, requested by its identifier in the spelling of
    the store, that is answered 200 leaves the identifier and
    the creation date of the asset as they were, whatever the payload
    brings for them, sets updatedAt to the clock reading of the call, and
    changes no project, case or note. *)
Theorem asset_update_keeps_identity :
  forall env w id body,
    canonical id = true ->
    let r := AssetIdRoute.PUT id body env w in
    Response.status (fst r) = 200 ->
    exists old a related,
      fst r = respond 200 (asset_with_projects a related)
                (Some "Asset updated successfully")
      /\ In old (assets (db w))
      /\ In a (assets (db (snd r)))
      /\ Asset.id old = id
      /\ Asset.id a = id
      /\ Asset.createdAt a = Asset.createdAt old
      /\ Asset.updatedAt a = clock env (ticks w)
      /\ related = filter (assigned_to id) (projects (db w))
      /\ projects (db (snd r)) = projects (db w)
      /\ case_status (db (snd r)) = case_status (db w)
      /\ notes (db (snd r)) = notes (db w).
Proof.
  intros env w id body _ r Hok.
  remember (AssetIdRoute.PUT id body env w) as r0 eqn:Hr. subst r.
  unfold AssetIdRoute.PUT, try_catch in Hr.
  destruct (uuidRegex_test id) eqn:Hid;
    [| subst r0; cbn in Hok; discriminate Hok].
  cbn [negb] in Hr.
  unfold bind at 1 in Hr. unfold ask in Hr. unfold bind at 1 in Hr.
  destruct (Schema.updateAssetSchema env body) as [s|errs|errs] eqn:Hs;
    [| subst r0; cbn in Hok; discriminate Hok ..].
  destruct (update_asset_keeps_key env body s Hs) as [Hsid Hsc]. clear Hs.
  unfold parse, ret in Hr. unfold bind at 1 in Hr.
  unfold new_Date at 1 in Hr. unfold bind at 1 in Hr.
  unfold statement at 1 in Hr. cbn [db log ticks draws] in Hr.
  destruct (faults env (List.length (log w)));
    [subst r0; cbn in Hok; discriminate Hok|].
  unfold Store.update_assets in Hr.
  set (s' := AssetIdRoute.with_updatedAt (clock env (ticks w)) s) in *.
  destruct (Store.returning (id_is Asset.id id) (Store.set_asset s')
              (assets (db w))) as [|u us] eqn:Hret;
    [subst r0; cbn in Hok; discriminate Hok|].
  assert (Hu : In u (Store.returning (id_is Asset.id id)
                       (Store.set_asset s') (assets (db w))))
    by (rewrite Hret; now left).
  apply returning_updated in Hu. destruct Hu as [x [Hx [Hidx [Hux Hu]]]].
  unfold select_projects_of, query, statement in Hr.
  unfold bind, ret in Hr. cbn [db log ticks draws projects] in Hr.
  destruct (faults env _); [subst r0; cbn in Hok; discriminate Hok|].
  subst r0. cbn [fst snd db assets projects case_status notes].
  exists x, u, (filter (assigned_to id) (projects (db w))).
  split; [reflexivity|]. split; [exact Hx|]. split; [exact Hu|].
  unfold id_is in Hidx. apply String.eqb_eq in Hidx.
  split; [exact Hidx|].
  rewrite Hux. unfold s'.
  cbn [Store.set_asset Asset.id Asset.createdAt Asset.updatedAt
       AssetIdRoute.with_updatedAt AssetSet.id AssetSet.createdAt
       AssetSet.updatedAt].
  rewrite Hsid, Hsc. cbn [Store.over].
  repeat split; try reflexivity. exact Hidx.
Qed.

(** ** The payload of a note *)

(** [normalizeBody] trims a content that is a string, puts the three
    references through [sanitizeNullableId] when they are truthy, and
    leaves every other key, and a falsy reference, as in the body. *)
Theorem normalizeBody_keys :
  forall fields k,
    assoc k (NotesRoute.normalizeBody (JObj fields))
    = if String.eqb k "content" then trimmed_value (assoc k fields)
      else if String.eqb k "assetId" || String.eqb k "projectId"
              || String.eqb k "caseId"
      then sanitized_value (assoc k fields)
      else assoc k fields.
Proof.
  intros fields k. unfold NotesRoute.normalizeBody. cbn [spread].
  assert (Hkeys : forall k',
             assoc k' (sanitize_key "caseId"
                         (sanitize_key "projectId"
                            (sanitize_key "assetId"
                               (trim_key "content" fields))))
             = if String.eqb k' "caseId" then
                 sanitized_value
                   (assoc "caseId"
                      (sanitize_key "projectId"
                         (sanitize_key "assetId" (trim_key "content" fields))))
               else if String.eqb k' "projectId" then
                 sanitized_value
                   (assoc "projectId"
                      (sanitize_key "assetId" (trim_key "content" fields)))
               else if String.eqb k' "assetId" then
                 sanitized_value (assoc "assetId" (trim_key "content" fields))
               else if String.eqb k' "content" then
                 trimmed_value (assoc "content" fields)
               else assoc k' fields).
  { intros k'. rewrite assoc_sanitize_key.
    destruct (String.eqb k' "caseId"); [reflexivity|].
    rewrite assoc_sanitize_key.
    destruct (String.eqb k' "projectId"); [reflexivity|].
    rewrite assoc_sanitize_key.
    destruct (String.eqb k' "assetId"); [reflexivity|].
    apply assoc_trim_key. }
  rewrite Hkeys.
  destruct (String.eqb k "caseId") eqn:Ec.
  - apply String.eqb_eq in Ec. subst k.
    rewrite ?assoc_sanitize_key, ?assoc_trim_key. reflexivity.
  - destruct (String.eqb k "projectId") eqn:Ep.
    + apply String.eqb_eq in Ep. subst k.
      rewrite ?assoc_sanitize_key, ?assoc_trim_key. reflexivity.
    + destruct (String.eqb k "assetId") eqn:Ea.
      * apply String.eqb_eq in Ea. subst k.
        rewrite ?assoc_trim_key. reflexivity.
      * cbn [orb]. destruct (String.eqb k "content") eqn:Ek; [|reflexivity].
        apply String.eqb_eq in Ek. subst k. reflexivity.
Qed.

(* ===================================================================== *)
(** * The properties on the sample store *)
(* ===================================================================== *)

Import Sample.

(** Renaming project P, which is assigned to asset A, leaves it assigned
    and clears its assignment date. *)
Lemma C1_renaming_breaks_invariant :
  exists p' asset',
    fst (ProjectIdRoute.PUT idP (JObj rename) env (world store))
    = respond 200 (project_with_asset p' asset')
        (Some "Project updated successfully")
    /\ Project.assetId p' = Some idA
    /\ Project.assignedAt p' = None
    /\ assignment_consistent p' = false.
Proof.
  destruct (@C1_update_without_assetId_clears_assignedAt
              env (world store) idP rename rename_set
              (project idP "Survey" (Some idA) (Some 5) 2) idA
              eq_refl (fun _ => eq_refl) eq_refl eq_refl eq_refl eq_refl
              eq_refl)
    as [[p' [asset' [Hr [_ [Ha [Hn [Hc _]]]]]]] _].
  exists p', asset'. repeat split; assumption.
Defined.



(** The second statement of the deletion of asset A fails: the answer is
    500, project P is unlinked, and asset A and the case that references it
    are still there. *)
Lemma C3_partial_cascade_is_reachable :
  let r := AssetIdRoute.DELETE idA env_second_fails (world store) in
  Response.status (fst r) = 500
  /\ existsb (assigned_to idA) (projects store) = true
  /\ existsb (assigned_to idA) (projects (db (snd r))) = false
  /\ Store.has_asset (db (snd r)) idA = true
  /\ existsb (fun c => eq_col (CaseStatus.assetId c) idA)
       (case_status (db (snd r))) = true.
Proof. vm_compute. repeat split. Qed.

Lemma C3_second_statement_fails_on_sample :
  let r := AssetIdRoute.DELETE idA env_second_fails (world store) in
  Response.status (fst r) = 500
  /\ db (snd r) = unlinked idA store
  /\ assets (db (snd r)) = assets store
  /\ case_status (db (snd r)) = case_status store
  /\ notes (db (snd r)) = notes store.
Proof.
  exact (proj1 (proj2 (C3_delete_is_two_statements env_second_fails
                         (world store) idA eq_refl eq_refl))
           eq_refl eq_refl).
Defined.


(** The project list sends a malformed assetId filter to the store. *)
Lemma C5_list_filter_reaches_store :
  uuidRegex_test "not-a-uuid" = false
  /\ let r := ProjectsRoute.GET (by_asset "not-a-uuid") env (world store) in
     Response.status (fst r) <> 400
     /\ exists q, In q (log (snd r)) /\ In "not-a-uuid" (bound q).
Proof.
  split; [reflexivity|]. split; [vm_compute; discriminate|].
  exists (q_ SELECT projects_table ["not-a-uuid"; "%not-a-uuid%"]).
  split; vm_compute; left; reflexivity.
Qed.

Lemma C5_malformed_path_on_sample :
  Response.status (fst (handler (Assign idA "42") env (world store))) = 400
  /\ snd (handler (Assign idA "42") env (world store)) = world store.
Proof.
  exact (proj1 C5_identifiers_checked_except_list_filter
           (Assign idA "42") env (world store) eq_refl).
Defined.

(** The same malformed identifier with a body that is not JSON: the
    update of a project answers 500. *)
Lemma C5_malformed_path_and_body :
  Response.status (fst (Arriving.update_project "42" None env (world store)))
  = 500
  /\ malformed "42" = true.
Proof. split; reflexivity. Qed.

(** A note with non-empty content and a well-formed reference to the
    existing asset A is refused for its malformed project reference. *)
Lemma C6_wellformed_reference_does_not_suffice :
  let r := NotesRoute.POST (JObj note_with_bad_project) env (world store) in
  Js.trim "hello" <> ""
  /\ assoc "assetId" note_with_bad_project = Some (JStr idA)
  /\ uuidRegex_test idA = true
  /\ Store.has_asset store idA = true
  /\ Response.status (fst r) = 400
  /\ notes (db (snd r)) = notes store.
Proof. vm_compute. repeat split. discriminate. Qed.

Lemma C6_note_on_sample :
  let r := NotesRoute.POST (JObj note_on_asset) env (world store) in
  Response.status (fst r) = 201
  /\ notes (db (snd r))
     = [note idN (Some idA) None None;
        {| Note.id := idNew; Note.content := "first visit";
           Note.assetId := Some idA; Note.projectId := None;
           Note.caseId := None; Note.createdAt := 1000;
           Note.updatedAt := 1000 |}].
Proof.
  exact (proj1 (proj2 (proj2 (C6_note_creation_rules env (world store)
                                note_on_asset eq_refl eq_refl eq_refl eq_refl)))
           eq_refl (fun _ => eq_refl) eq_refl eq_refl eq_refl eq_refl).
Defined.


(** A page at least 1 whose offset the store does not take: the list of
    assets is answered 500, with no slice and no pagination. *)
Lemma C8_huge_page_is_refused :
  let r := fst (AssetsRoute.GET (paged "99999999999999999999" "10") env
                  (world (store_of_assets 15))) in
  Js.parseInt "99999999999999999999" = Some 99999999999999999999
  /\ 1 <= 99999999999999999999
  /\ Js.parseInt "10" = Some 10
  /\ Response.status r = 500
  /\ Response.pagination r = None.
Proof.
  split; [reflexivity|]. split; [lia|]. split; [reflexivity|].
  split; reflexivity.
Qed.

(** 15 assets listed with limit 10, page 2: 5 assets and 2 pages. *)
Lemma C8_fifteen_assets_page_two :
  let r := fst (AssetsRoute.GET (paged "2" "10") env
                  (world (store_of_assets 15))) in
  Z.of_nat (List.length (listed_assets r)) = 5
  /\ Response.pagination r
     = Some {| page := Some 2; limit := Some 10; total := 15;
               pages := Some 2 |}.
Proof.
  assert (Hx : exact_paging 2 10)
    by (unfold exact_paging, MAX_SAFE_INTEGER; simpl; lia).
  destruct (proj1 (proj1 (C8_pagination_slice_and_counts env
                            (world (store_of_assets 15)) 2 10
                            ltac:(lia) ltac:(lia))
                     (fun _ => eq_refl) Hx)
              (paged "2" "10") eq_refl eq_refl)
    as [_ [_ [Hlen [k [Hpg Hk]]]]].
  cbv zeta. split; [exact Hlen|].
  rewrite Hpg.
  change (Z.of_nat
            (List.length
               (Store.order_desc Asset.createdAt
                  (AssetsRoute.matching (paged "2" "10")
                     (db (world (store_of_assets 15)))))))
    with 15 in *.
  assert (Hk2 : k = 2) by lia. rewrite Hk2. reflexivity.
Defined.

Lemma C9_latitude_just_above_90 :
  let r := Schema.updateAssetSchema env (JObj too_far_north) in
  (exists c, In (issue c ["location"; "lat"] Schema.lat_message) (issues r))
  /\ forall a, r <> Valid a.
Proof.
  apply (proj1 (proj2 (proj2 (@C9_location_bounds env true too_far_north
                                (900001 # 10000) (0 # 1) eq_refl)))).
  intros [_ H]. vm_compute in H. apply H. reflexivity.
Defined.

(** Assigning project P, already assigned to A since 5, to A again:
    the assignment date is now the clock reading of the call. *)
Lemma C10_assign_again_refreshes :
  let r := AssetProjectRoute.PUT idA idP env (world store) in
  projects (db (snd r))
  = [{| Project.id := idP; Project.name := "Survey";
        Project.description := Some "work"; Project.status := "active";
        Project.assetId := Some idA; Project.startDate := None;
        Project.endDate := None; Project.assignedAt := Some 1000;
        Project.createdAt := 2; Project.updatedAt := 1001 |};
     project idQ "Fencing" None None 3].
Proof.
  exact (proj2 (@C10_assign_overwrites env (world store) idA idP
                  eq_refl eq_refl (fun _ => eq_refl) eq_refl eq_refl)).
Defined.

(* ===================================================================== *)
(** * The further properties on the sample stores *)
(* ===================================================================== *)

Import Scenario.

Lemma project_delete_on_sample :
  let r := ProjectIdRoute.DELETE idP env (world store_linked) in
  projects (db (snd r)) = [project idQ "Fencing" None None 3]
  /\ case_status (db (snd r)) = [case_ idC (Some idA) None]
  /\ notes (db (snd r)) = [note idN (Some idA) None (Some idC)]
  /\ assets (db (snd r)) = [asset idA "Lot 7" 1].
Proof.
  exact (project_delete_unlinks_cases_and_notes env (world store_linked) idP
           eq_refl eq_refl).
Defined.

Lemma case_delete_on_sample :
  let r := CaseIdRoute.DELETE idC env (world store_linked) in
  case_status (db (snd r)) = []
  /\ notes (db (snd r)) = [note idN (Some idA) (Some idP) None]
  /\ assets (db (snd r)) = assets store_linked
  /\ projects (db (snd r)) = projects store_linked.
Proof.
  exact (case_delete_unlinks_notes env (world store_linked) idC eq_refl
           eq_refl).
Defined.

Lemma note_delete_on_sample :
  let r := NoteIdRoute.DELETE idN env (world store_linked) in
  (Store.has_note store_linked idN = false ->
     fst r = failure 404 "Note not found" /\ db (snd r) = store_linked)
  /\ (Store.has_note store_linked idN = true ->
        fst r = respond 200 no_data (Some "Note deleted successfully"))
  /\ notes (db (snd r)) = []
  /\ Store.has_note (db (snd r)) idN = false
  /\ assets (db (snd r)) = assets store_linked
  /\ projects (db (snd r)) = projects store_linked
  /\ case_status (db (snd r)) = case_status store_linked.
Proof.
  exact (note_delete_removes_only_the_note env (world store_linked) idN
           eq_refl eq_refl eq_refl).
Defined.

Lemma projects_bulk_delete_on_sample :
  let r := ProjectsRoute.DELETE (Some (idP ++ "," ++ idNew)) env
             (world store_linked) in
  fst r = respond 200
            (project_rows [project idP "Survey" (Some idA) (Some 5) 2])
            (Some "1 projects deleted successfully")
  /\ projects (db (snd r)) = [project idQ "Fencing" None None 3]
  /\ case_status (db (snd r)) = [case_ idC (Some idA) None]
  /\ notes (db (snd r)) = [note idN (Some idA) None (Some idC)]
  /\ assets (db (snd r)) = assets store_linked.
Proof.
  exact (projects_bulk_delete_unlinks env (world store_linked)
           (idP ++ "," ++ idNew) [idP; idNew] eq_refl eq_refl eq_refl).
Defined.

Lemma assign_on_sample_without_project :
  let r := AssetProjectRoute.PUT idA idNew env (world store) in
  (Store.has_asset store idA = false ->
     fst r = failure 404 "Asset not found" /\ db (snd r) = store)
  /\ (Store.has_asset store idA = true ->
      Store.has_project store idNew = false ->
        fst r = failure 404 "Project not found" /\ db (snd r) = store).
Proof.
  exact (assign_needs_asset_then_project env (world store) idA idNew
           eq_refl eq_refl eq_refl eq_refl (fun _ => eq_refl)).
Defined.

Lemma unassign_after_assign_on_sample :
  let w1 := snd (AssetProjectRoute.PUT idA idQ env (world store)) in
  let r := AssetProjectRoute.DELETE idA idQ env w1 in
  Response.status (fst r) = 200
  /\ projects (db (snd r))
     = [project idP "Survey" (Some idA) (Some 5) 2;
        {| Project.id := idQ; Project.name := "Fencing";
           Project.description := Some "work"; Project.status := "active";
           Project.assetId := None; Project.startDate := None;
           Project.endDate := None; Project.assignedAt := None;
           Project.createdAt := 3; Project.updatedAt := 1002 |}]
  /\ assets (db (snd r)) = assets store
  /\ case_status (db (snd r)) = case_status store
  /\ notes (db (snd r)) = notes store.
Proof.
  exact (unassign_after_assign env (world store) idA idQ
           eq_refl eq_refl (fun _ => eq_refl) eq_refl eq_refl).
Defined.

Lemma created_project_on_sample :
  let r := ProjectsRoute.POST (JObj drainage) env (world store) in
  exists p a,
    fst r = respond 201 (project_with_asset p a)
              (Some "Project created successfully")
    /\ projects (db (snd r)) = (projects store ++ [p])%list
    /\ assignment_consistent p = true
    /\ Store.fk (Store.has_asset store) (Project.assetId p) = true
    /\ assets (db (snd r)) = assets store
    /\ case_status (db (snd r)) = case_status store
    /\ notes (db (snd r)) = notes store.
Proof.
  exact (created_project_is_consistent env (world store) (JObj drainage)
           eq_refl eq_refl).
Defined.

Lemma moved_project_on_sample :
  let r := ProjectIdRoute.PUT idQ (JObj move_to_A) env (world store) in
  exists p a,
    fst r = respond 200 (project_with_asset p a)
              (Some "Project updated successfully")
    /\ In p (projects (db (snd r)))
    /\ Project.id p = idQ
    /\ assignment_consistent p = true
    /\ (Project.assetId p <> None -> Project.assignedAt p = Some 1000).
Proof.
  refine (update_with_assetId_is_consistent env (world store) idQ
            (JObj move_to_A) eq_refl eq_refl _ eq_refl).
  discriminate.
Defined.

Lemma project_created_for_asset_on_sample :
  let r := AssetProjectsRoute.POST idA (JObj drainage) env (world store) in
  exists p asset,
    fst r = respond 201 (project_with_asset p (Some asset))
              (Some "Project created and assigned to asset successfully")
    /\ projects (db (snd r)) = (projects store ++ [p])%list
    /\ Store.join_asset store (Some idA) = Some asset
    /\ Project.id p = idNew
    /\ Project.assetId p = Some idA
    /\ Project.assignedAt p = Some 1000
    /\ Project.updatedAt p = 1001
    /\ assets (db (snd r)) = assets store
    /\ case_status (db (snd r)) = case_status store
    /\ notes (db (snd r)) = notes store.
Proof.
  exact (proj2 (project_created_for_asset env (world store) idA
                  (JObj drainage) eq_refl)
           eq_refl).
Defined.

Lemma sanitizeNullableId_on_padded :
  sanitizeNullableId (Some (JStr (" " ++ idA ++ " "))) = JStr idA
  /\ Js.truthy idA = true /\ Js.trim idA = idA.
Proof.
  split; [reflexivity|].
  exact (proj1 (proj2 (sanitizeNullableId_canonical
                         (Some (JStr (" " ++ idA ++ " ")))))
           idA eq_refl).
Defined.

Lemma case_update_on_sample :
  let r := CaseIdRoute.PUT idC (JObj case_on_Q) env (world store) in
  exists c a p,
    fst r = respond 200 (case_with_links c a p)
              (Some "Case updated successfully")
    /\ In c (case_status (db (snd r)))
    /\ CaseStatus.id c = idC
    /\ CaseStatus.assetId c = None
    /\ CaseStatus.projectId c = Some idQ.
Proof.
  exact (case_update_rewrites_links env (world store) idC case_on_Q
           eq_refl eq_refl eq_refl eq_refl).
Defined.

Lemma asset_bulk_deletions_agree_on_sample :
  fst (AssetsRoute.DELETE (Some idA) env (world store))
  = fst (AssetsBulkRoute.DELETE (Some idA) env (world store))
  /\ db (snd (AssetsRoute.DELETE (Some idA) env (world store)))
     = db (snd (AssetsBulkRoute.DELETE (Some idA) env (world store))).
Proof.
  exact (asset_bulk_deletions_agree env (world store) (Some idA)
           (fun _ => eq_refl)).
Defined.

Lemma assets_bulk_delete_on_sample :
  let r := AssetsBulkRoute.DELETE (Some (idA ++ "," ++ idB)) env
             (world store_named) in
  fst r = respond 200
            (asset_rows [asset idA "Lot 7" 1;
                         asset idB ("Annex of " ++ idA) 2])
            (Some "2 assets deleted successfully")
  /\ assets (db (snd r)) = []
  /\ projects (db (snd r))
     = [project idP "Survey" None None 3;
        project idQ "Fencing" None None 4].
Proof.
  exact (assets_bulk_delete_unlinks_projects env (world store_named)
           (Some (idA ++ "," ++ idB)) [idA; idB]
           (fun _ => eq_refl) eq_refl eq_refl).
Defined.


Lemma lists_fail_on_page_zero :
  (fst (AssetsRoute.GET (paged "0" "10") env (world store))
   = failure 500 "Failed to fetch assets"
   /\ db (snd (AssetsRoute.GET (paged "0" "10") env (world store))) = store)
  /\ (fst (ProjectsRoute.GET (paged "0" "10") env (world store))
      = failure 500 "Failed to fetch projects"
      /\ db (snd (ProjectsRoute.GET (paged "0" "10") env (world store)))
         = store).
Proof.
  apply (lists_fail_on_page_below_one env (world store) (paged "0" "10")
           0 10); [reflexivity | reflexivity | lia | lia].
Defined.

Lemma identifier_check_on_sample :
  String.length idA = 36%nat
  /\ all_chars hex_or_dash idA = true
  /\ Js.truthy idA = true
  /\ Js.trim idA = idA.
Proof. exact (proj2 (identifier_check_shape idA) eq_refl). Defined.

Lemma bulk_update_on_sample :
  let r := ProjectsRoute.PUT
             (JObj [("projects",
                     JArr [JObj (("id", JStr idP) :: rename); JObj rename])])
             env (world store) in
  fst r = failure 500 "Failed to update projects"
  /\ projects (db (snd r))
     = [{| Project.id := idP; Project.name := "Renamed";
           Project.description := Some "work"; Project.status := "planning";
           Project.assetId := Some idA; Project.startDate := None;
           Project.endDate := None; Project.assignedAt := None;
           Project.createdAt := 2; Project.updatedAt := 1000 |};
        project idQ "Fencing" None None 3]
  /\ In (q_ UPDATE projects_table [idP]) (log (snd r)).
Proof.
  refine (bulk_update_is_not_atomic env (world store) idP rename rename_set
            (JObj rename) (fun _ => eq_refl) eq_refl eq_refl eq_refl eq_refl
            eq_refl _ eq_refl).
  discriminate.
Defined.

Lemma store_down_on_sample :
  let r := handler (DeleteAsset idA) env_down (world store) in
  (Response.status (fst r) = 400 \/ Response.status (fst r) = 500)
  /\ db (snd r) = store.
Proof.
  exact (store_down_is_reported (DeleteAsset idA) env_down (world store)
           (fun _ => eq_refl)).
Defined.

Lemma notes_of_asset_on_sample :
  let r := fst (NotesRoute.GET (notes_params (Some (" " ++ idA)) None None)
                  env (world store_linked)) in
  Response.status r = 200
  /\ map (fun x => fst (fst (fst x))) (listed_notes r)
     = [note idN (Some idA) (Some idP) (Some idC)]
  /\ Response.pagination r
     = Some {| page := Some 1; limit := Some 10; total := 1;
               pages := Some 1 |}.
Proof.
  exact (notes_filter_by_asset env (world store_linked) (" " ++ idA)
           (fun _ => eq_refl) eq_refl eq_refl).
Defined.

Lemma asset_projects_on_sample :
  fst (AssetIdRoute.GET idA env (world store))
  = respond 200
      (asset_with_projects (asset idA "Lot 7" 1)
         [project idP "Survey" (Some idA) (Some 5) 2])
      None
  /\ fst (AssetProjectsRoute.GET idA env (world store))
     = respond 200
         (projects_of_asset [project idP "Survey" (Some idA) (Some 5) 2]
            idA "Lot 7" 1)
         None.
Proof.
  exact (asset_projects_listed_alike env (world store) idA eq_refl eq_refl
           (fun _ => eq_refl)).
Defined.

Lemma assign_keeps_the_rule_on_sample :
  rule_kept store (db (snd (handler (Assign idA idQ) env (world store)))).
Proof.
  refine (operations_keep_the_assignment_rule (Assign idA idQ) env
            (world store) _).
  intros id body; discriminate.
Defined.

Lemma bulk_assignment_refused_on_sample :
  let r := AssetsBulkAssign.PUT
             (JObj [("assignments", JArr [assign_Q_to_A; assign_malformed])])
             env (world store) in
  answer_status (fst r) = 400 /\ snd r = world store.
Proof.
  refine (bulk_assignment_validates_first env (world store)
            [("assignments", JArr [assign_Q_to_A; assign_malformed])]
            [assign_Q_to_A; assign_malformed] eq_refl _).
  exists assign_malformed. split; [right; left; reflexivity|].
  intros v; discriminate.
Defined.

Lemma assigning_writes_on_sample :
  rule_kept store
    (db (snd (AssetsBulkAssign.PUT
                (JObj [("assignments", JArr [assign_Q_to_A])]) env
                (world store))))
  /\ rule_kept store
       (db (snd (ProjectsRoute.POST
                   (JObj [("assignments", JArr [assign_Q_to_A])]) env
                   (world store)))).
Proof.
  exact (assigning_writes_keep_the_rule env (world store)
           (JObj [("assignments", JArr [assign_Q_to_A])]) eq_refl).
Defined.

Lemma bulk_assignment_of_one_on_sample :
  let bulk :=
    AssetsBulkAssign.PUT
      (JObj [("assignments",
              JArr [JObj [("projectId", JStr idQ); ("assetId", JStr idA)]])])
      env (world store) in
  let single := AssetProjectRoute.PUT idA idQ env (world store) in
  answer_status (fst bulk) = 200
  /\ db (snd bulk) = db (snd single)
  /\ Response.status (fst single) = 200.
Proof.
  destruct (bulk_assignment_of_one env (world store) idA idQ
              eq_refl eq_refl eq_refl eq_refl eq_refl eq_refl eq_refl
              (fun _ => eq_refl) eq_refl)
    as [Hs [Hyes _]].
  split; [exact Hs | exact (Hyes eq_refl)].
Defined.

Lemma asset_update_on_sample :
  let r := AssetIdRoute.PUT idA (JObj renamed_lot) env (world store) in
  exists old a related,
    fst r = respond 200 (asset_with_projects a related)
              (Some "Asset updated successfully")
    /\ In old (assets store)
    /\ In a (assets (db (snd r)))
    /\ Asset.id old = idA
    /\ Asset.id a = idA
    /\ Asset.createdAt a = Asset.createdAt old
    /\ Asset.updatedAt a = 1000
    /\ related = [project idP "Survey" (Some idA) (Some 5) 2]
    /\ projects (db (snd r)) = projects store
    /\ case_status (db (snd r)) = case_status store
    /\ notes (db (snd r)) = notes store.
Proof.
  exact (asset_update_keeps_identity env (world store) idA
           (JObj renamed_lot) eq_refl eq_refl).
Defined.
